(** * N-lang (python/n.py): type checker and tree-walking evaluator

    A shallow embedding of [python/n.py]: the Lark syntax tree the two
    passes walk, the [Scope] objects they share, the evaluator
    ([eval_value], [eval_expr], [eval_command], [Function.run]), the type
    checker ([get_value_type], [type_check_expr], [type_check_command]) and
    the module-level driver.

    - A [Scope] is mutated and shared by reference (a function keeps the
      scope it was defined in, a child scope its parent): scopes live in a
      store and are named by their index. The two diagnostic lists every
      scope of a run shares are fields of the state.
    - A Python exception is the [Raise] outcome of a computation.
    - The evaluator may not terminate: [eval_expr], [eval_command] and [run]
      take a recursion budget, and more of it never changes a result
      ([fuel_mono]). Python's own recursion limit is not modelled. The type
      checker is structurally recursive.
    - Floating-point arithmetic, the text of floats and objects and the
      import of modules belong to the interpreter: they are the fields of
      the class [Host], over which everything is parametric.
    - What is printed is recorded one entry per [print] call. The
      rendering of the diagnostics ([File], [TypeCheckError.display]) is
      modelled apart, by [render], on lines whose characters are code
      points below 256. *)

Set Warnings "-register-all".
From Stdlib Require Import ZArith List String Ascii Bool Lia Arith DecimalString.
From Stdlib Require Import Floats.SpecFloat.
Import ListNotations.
Open Scope string_scope.
Open Scope Z_scope.

(** ** Lark syntax trees *)

(** Source position carried by a Lark token. *)
Record position := mk_position {
  line : Z;
  column : Z;
  end_line : Z;
  end_column : Z
}.

(** What the passes receive where Python has a [lark.Token], a [lark.Tree]
    or [None] (the absent default-return expression of a function). *)
Inductive node :=
| Token (type : string) (value : string) (pos : position)
| Tree (data : string) (children : list node)
| NoneNode.

Definition nopos : position := mk_position 0 0 0 0.

(** ** Python exceptions and results *)

(** Exceptions raised by [n.py] itself carry their message; the ones raised
    by the interpreter (unpacking a list of the wrong length, a missing
    attribute, ...) are named by their class. *)
Inductive exn :=
| NameError (msg : string)
| TypeError (msg : string)
| SyntaxError (msg : string)
| HostNameError
| HostTypeError
| ValueError
| AttributeError
| IndexError
| ZeroDivisionError
| OverflowError
| ModuleNotFoundError.

(** [OutOfFuel]: the recursion budget of the model ran out.
    [Unmodelled]: Python does something here that this embedding does not
    describe (printf-style [str % x], a [Tree] used where a name is
    expected). *)
Inductive res (A : Type) :=
| Ok (a : A)
| Raise (e : exn)
| OutOfFuel
| Unmodelled.

Arguments Ok {A} a.
Arguments Raise {A} e.
Arguments OutOfFuel {A}.
Arguments Unmodelled {A}.

(** ** Strings *)

Definition ESC : string := String (ascii_of_nat 27) "".
(** colorama's [Fore.YELLOW], [Fore.RED], [Style.RESET_ALL]. *)
Definition Fore_YELLOW : string := ESC ++ "[33m".
Definition Fore_RED : string := ESC ++ "[31m".
Definition Style_RESET_ALL : string := ESC ++ "[0m".

(** [sep.join(l)] *)
Fixpoint join (sep : string) (l : list string) : string :=
  match l with
  | [] => ""
  | [x] => x
  | x :: r => x ++ sep ++ join sep r
  end.

(** [s[1:-1]] *)
Definition strip_ends (s : string) : string :=
  substring 1 (String.length s - 2) s.

(** The characters of a string, as Python yields them when a [str] is
    unpacked. *)
Fixpoint chars (s : string) : list string :=
  match s with
  | EmptyString => []
  | String c r => String c "" :: chars r
  end.

(** [str(n)] for an [int]. *)
Definition str_of_int (n : Z) : string := NilZero.string_of_int (Z.to_int n).

(** [s * n] *)
Fixpoint repeat_string (s : string) (n : nat) : string :=
  match n with
  | O => ""
  | S k => s ++ repeat_string s k
  end.

Definition is_space (c : ascii) : bool :=
  let n := nat_of_ascii c in
  ((9 <=? n) && (n <=? 13))%nat || (n =? 32)%nat.

Definition digit_of (c : ascii) : option Z :=
  let n := nat_of_ascii c in
  if ((48 <=? n) && (n <=? 57))%nat then Some (Z.of_nat n - 48) else None.

Fixpoint lstrip (l : list ascii) : list ascii :=
  match l with
  | c :: r => if is_space c then lstrip r else l
  | [] => []
  end.

(** Digits with single underscores between them, as [int()] accepts them.
    [prev] tells whether the previous character was a digit. *)
Fixpoint digits (acc : Z) (prev : bool) (l : list ascii) : option Z :=
  match l with
  | [] => if prev then Some acc else None
  | c :: r =>
      match digit_of c with
      | Some d => digits (10 * acc + d) true r
      | None =>
          if (nat_of_ascii c =? 95)%nat && prev
          then match r with
               | [] => None
               | _ => digits acc false r
               end
          else None
      end
  end.

(** [int(s)] for a [str] of ASCII characters: [None] is [ValueError]. *)
Definition int_of_str (s : string) : option Z :=
  let l := lstrip (rev (lstrip (rev (list_ascii_of_string s)))) in
  match l with
  | [] => None
  | c :: r =>
      if (nat_of_ascii c =? 45)%nat then option_map Z.opp (digits 0 false r)
      else if (nat_of_ascii c =? 43)%nat then digits 0 false r
      else digits 0 false l
  end.

(** ** Dictionaries keyed by strings *)

Definition dict (A : Type) := list (string * A).

Fixpoint dict_get {A} (d : dict A) (k : string) : option A :=
  match d with
  | [] => None
  | (k', v) :: r => if String.eqb k' k then Some v else dict_get r k
  end.

(** [d[k] = v]: an existing key keeps its place. *)
Fixpoint dict_set {A} (d : dict A) (k : string) (v : A) : dict A :=
  match d with
  | [] => [(k, v)]
  | (k', v') :: r =>
      if String.eqb k' k then (k, v) :: r else (k', v') :: dict_set r k v
  end.

(** [k in d] *)
Definition dict_in {A} (d : dict A) (k : string) : bool :=
  match dict_get d k with Some _ => true | None => false end.

(** ** Values, types and variables *)

(** The host callables registered with [add_native_function]: the module
    registers one, [lambda number: str(number)]. *)
Inductive native_impl := IntInBase10.

(** A [Function] object. [fn_id] is the object's identity (Python compares
    functions by identity); [fn_types] is the [type] attribute it has as a
    [Variable]: the argument types followed by the return type;
    [fn_function] is set for a [NativeFunction]. *)
Record Function := mk_Function {
  fn_id : nat;
  fn_types : list string;
  fn_scope : nat;
  fn_arguments : list (string * string);
  fn_returntype : string;
  fn_codeblock : node;
  fn_defaultreturn : node;
  fn_function : option native_impl
}.

Inductive value_ :=
| VInt (n : Z)
| VFloat (f : spec_float)
| VBool (b : bool)
| VStr (s : string)
| VNone
| VFunction (f : Function).

(** A type as the checker has it: a [str], or a [tuple] of [str] for a
    function ([("a", "b", "c")] is [a -> b -> c]). *)
Inductive ntype :=
| TStr (s : string)
| TTuple (l : list string).

Record Variable_ := mk_Variable {
  var_type : ntype;
  var_value : value_
}.

(** An imported module: its [__name__] and its attributes, host callables
    that take the list of evaluated arguments. *)
Record pymodule := mk_pymodule {
  mod_name : string;
  mod_getattr : string -> option (list value_ -> res value_)
}.

Record TypeCheckError := mk_TypeCheckError {
  datum : node;
  message : string
}.

(** A [Scope] object. The [errors] and [warnings] lists it refers to are
    the ones of the state: every scope of a run shares them. *)
Record Scope := mk_Scope {
  parent : option nat;
  parent_function : option Function;
  imports : list pymodule;
  variables : dict Variable_
}.

(** One [print] call: a line of text, or the rendering of the collected
    diagnostics (warnings first, then errors) by [TypeCheckError.display].
    The rendering itself, which underlines source excerpts, is kept apart
    ([render]): the entry records what is rendered. *)
Inductive printed :=
| PLine (s : string)
| PDiagnostics (ws es : list TypeCheckError).

(** The state of a run: the [Scope] objects created so far (a scope is named
    by its index), the number of [Function] objects created, the two
    diagnostic sinks, and what was printed (one entry per [print] call). *)
Record state := mk_state {
  scopes : list Scope;
  next_function : nat;
  errors : list TypeCheckError;
  warnings : list TypeCheckError;
  stdout : list printed
}.

Inductive arith := ADD | SUBTRACT | MULTIPLY | DIVIDE | ROUNDDIV | MODULO | EXPONENT.
Inductive comparison_op := EQUALS | GORE | LORE | LESS | GREATER | NEQUALS.

(** What the Python interpreter provides and the repository does not
    define: floating-point arithmetic, the text of a float and of an object,
    and [importlib.import_module].
    - [int_truediv a b] is [a / b] on two [int]s, [b] not zero;
    - [int_negpow a b] is [a ** b] on two [int]s, [a] not zero, [b] negative;
    - [float_arith] and [float_compare] are the operators when at least one
      operand is a [float]. *)
Class Host := {
  float_str : spec_float -> string;
  object_str : Function -> string;
  int_truediv : Z -> Z -> res spec_float;
  int_negpow : Z -> Z -> res spec_float;
  float_arith : arith -> value_ -> value_ -> res value_;
  float_compare : comparison_op -> value_ -> value_ -> res bool;
  import_module : string -> res pymodule
}.

(** ** Python's operators on values *)

(** [bool] is a subclass of [int]. *)
Definition as_int (v : value_) : option Z :=
  match v with
  | VInt n => Some n
  | VBool b => Some (if b then 1 else 0)
  | _ => None
  end.

Definition is_float (v : value_) : bool :=
  match v with VFloat _ => true | _ => false end.

(** [type(v).__name__] *)
Definition host_type (v : value_) : string :=
  match v with
  | VInt _ => "int"
  | VFloat _ => "float"
  | VBool _ => "bool"
  | VStr _ => "str"
  | VNone => "NoneType"
  | VFunction f =>
      match fn_function f with Some _ => "NativeFunction" | None => "Function" end
  end.

(** [bool(v)] *)
Definition truthy (v : value_) : bool :=
  match v with
  | VInt n => negb (n =? 0)
  | VFloat (S754_zero _) => false
  | VFloat _ => true
  | VBool b => b
  | VStr s => negb (String.eqb s "")
  | VNone => false
  | VFunction _ => true
  end.

Definition res_map {A B} (f : A -> B) (r : res A) : res B :=
  match r with
  | Ok a => Ok (f a)
  | Raise e => Raise e
  | OutOfFuel => OutOfFuel
  | Unmodelled => Unmodelled
  end.

Section Operators.
Context {H : Host}.

(** [str(v)] *)
Definition py_str (v : value_) : string :=
  match v with
  | VInt n => str_of_int n
  | VFloat f => float_str f
  | VBool b => if b then "True" else "False"
  | VStr s => s
  | VNone => "None"
  | VFunction f => object_str f
  end.

Definition int_arith (op : arith) (x y : Z) : res value_ :=
  match op with
  | ADD => Ok (VInt (x + y))
  | SUBTRACT => Ok (VInt (x - y))
  | MULTIPLY => Ok (VInt (x * y))
  | DIVIDE =>
      if y =? 0 then Raise ZeroDivisionError
      else res_map VFloat (int_truediv x y)
  | ROUNDDIV => if y =? 0 then Raise ZeroDivisionError else Ok (VInt (x / y))
  | MODULO => if y =? 0 then Raise ZeroDivisionError else Ok (VInt (x mod y))
  | EXPONENT =>
      if 0 <=? y then Ok (VInt (x ^ y))
      else if x =? 0 then Raise ZeroDivisionError
      else res_map VFloat (int_negpow x y)
  end.

(** [a op b] for the seven arithmetic operators. *)
Definition py_arith (op : arith) (a b : value_) : res value_ :=
  match op, a, b with
  | MODULO, VStr _, _ => Unmodelled
  | _, _, _ =>
      if is_float a || is_float b then float_arith op a b
      else
        match op, a, b with
        | ADD, VStr s, VStr t => Ok (VStr (s ++ t))
        | MULTIPLY, VStr s, _ =>
            match as_int b with
            | Some n => Ok (VStr (repeat_string s (Z.to_nat n)))
            | None => Raise HostTypeError
            end
        | MULTIPLY, _, VStr s =>
            match as_int a with
            | Some n => Ok (VStr (repeat_string s (Z.to_nat n)))
            | None => Raise HostTypeError
            end
        | _, _, _ =>
            match as_int a, as_int b with
            | Some x, Some y => int_arith op x y
            | _, _ => Raise HostTypeError
            end
        end
  end.

(** [-a] *)
Definition py_neg (a : value_) : res value_ :=
  match a with
  | VFloat f => Ok (VFloat (SFopp f))
  | _ =>
      match as_int a with
      | Some x => Ok (VInt (- x))
      | None => Raise HostTypeError
      end
  end.

(** [a == b] *)
Definition py_eq (a b : value_) : res bool :=
  if is_float a || is_float b then float_compare EQUALS a b
  else
    match a, b with
    | VStr s, VStr t => Ok (String.eqb s t)
    | VNone, VNone => Ok true
    | VFunction f, VFunction g => Ok (Nat.eqb (fn_id f) (fn_id g))
    | _, _ =>
        match as_int a, as_int b with
        | Some x, Some y => Ok (x =? y)
        | _, _ => Ok false
        end
    end.

Definition int_order (op : comparison_op) (x y : Z) : bool :=
  match op with
  | GORE => y <=? x
  | LORE => x <=? y
  | LESS => x <? y
  | GREATER => y <? x
  | EQUALS => x =? y
  | NEQUALS => negb (x =? y)
  end.

Definition str_order (op : comparison_op) (s t : string) : bool :=
  match op with
  | GORE => String.leb t s
  | LORE => String.leb s t
  | LESS => String.ltb s t
  | GREATER => String.ltb t s
  | EQUALS => String.eqb s t
  | NEQUALS => negb (String.eqb s t)
  end.

(** [a op b] for the six comparison operators. *)
Definition py_compare (op : comparison_op) (a b : value_) : res value_ :=
  match op with
  | EQUALS => res_map VBool (py_eq a b)
  | NEQUALS =>
      if is_float a || is_float b then res_map VBool (float_compare NEQUALS a b)
      else res_map (fun e => VBool (negb e)) (py_eq a b)
  | _ =>
      if is_float a || is_float b then res_map VBool (float_compare op a b)
      else
        match a, b with
        | VStr s, VStr t => Ok (VBool (str_order op s t))
        | _, _ =>
            match as_int a, as_int b with
            | Some x, Some y => Ok (VBool (int_order op x y))
            | _, _ => Raise HostTypeError
            end
        end
  end.

(** [NativeFunction.run]: [self.function( *arguments)]. *)
Definition run_native (f : native_impl) (arguments : list value_) : res value_ :=
  match f, arguments with
  | IntInBase10, [number] => Ok (VStr (py_str number))
  | IntInBase10, _ => Raise HostTypeError
  end.

End Operators.

(** ** The monad of the two passes: state, exceptions and fuel *)

Definition M (A : Type) := state -> res (A * state).

Definition ret {A} (a : A) : M A := fun st => Ok (a, st).

Definition bind {A B} (m : M A) (k : A -> M B) : M B :=
  fun st =>
    match m st with
    | Ok (a, st') => k a st'
    | Raise e => Raise e
    | OutOfFuel => OutOfFuel
    | Unmodelled => Unmodelled
    end.

Definition raise {A} (e : exn) : M A := fun _ => Raise e.
Definition out_of_fuel {A} : M A := fun _ => OutOfFuel.
Definition unmodelled {A} : M A := fun _ => Unmodelled.

(** A host computation that does not touch the state. *)
Definition lift {A} (r : res A) : M A :=
  fun st => res_map (fun a => (a, st)) r.

Notation "x <- m ;; k" := (bind m (fun x => k))
  (at level 61, m at next level, right associativity).
Notation "m ;;; k" := (bind m (fun _ => k))
  (at level 61, right associativity).

(** [print(s)] *)
Definition print (s : string) : M unit :=
  fun st => Ok (tt, mk_state (scopes st) (next_function st) (errors st)
                             (warnings st) (stdout st ++ [PLine s])).

(** [[f(x) for x in l]] *)
Fixpoint map_M {A B} (f : A -> M B) (l : list A) : M (list B) :=
  match l with
  | [] => ret []
  | x :: r => y <- f x ;; ys <- map_M f r ;; ret (y :: ys)
  end.

(** [for x in l: exit, value = f(x); if exit: return (True, value)], and
    [(False, None)] when the list is exhausted. *)
Fixpoint for_until {A} (f : A -> M (bool * value_)) (l : list A) : M (bool * value_) :=
  match l with
  | [] => ret (false, VNone)
  | x :: r =>
      ev <- f x ;;
      if fst ev then ret (true, snd ev) else for_until f r
  end.

(** [range(n)] *)
Definition range (n : Z) : list Z := map Z.of_nat (seq 0 (Z.to_nat n)).

(** ** Attributes of nodes *)

(** [x.value] and [x.type]: only a [Token] has them. *)
Definition get_value (x : node) : res string :=
  match x with Token _ v _ => Ok v | _ => Raise AttributeError end.

Definition get_type (x : node) : res string :=
  match x with Token t _ _ => Ok t | _ => Raise AttributeError end.

(** [x.children]: only a [Tree] has them. *)
Definition get_children (x : node) : res (list node) :=
  match x with Tree _ c => Ok c | _ => Raise AttributeError end.

(** A token used as a [str] (a Lark token is a [str] that compares and
    hashes by its text): a dictionary key, a type name, the operand of
    [%s]. A [Tree] in such a place is outside this model. *)
Definition as_str (x : node) : res string :=
  match x with Token _ v _ => Ok v | _ => Unmodelled end.

(** [[(arg.children[0].value, arg.children[1].value) for arg in arguments]] *)
Definition argument_pair (arg : node) : res (string * string) :=
  match arg with
  | Tree _ [] => Raise IndexError
  | Tree _ (Token _ n _ :: []) => Raise IndexError
  | Tree _ (Token _ n _ :: Token _ t _ :: _) => Ok (n, t)
  | _ => Raise AttributeError
  end.

Fixpoint argument_pairs (arguments : list node) : res (list (string * string)) :=
  match arguments with
  | [] => Ok []
  | arg :: r =>
      match argument_pair arg with
      | Ok p => res_map (cons p) (argument_pairs r)
      | Raise e => Raise e
      | OutOfFuel => OutOfFuel
      | Unmodelled => Unmodelled
      end
  end.

(** ** Scopes *)

Definition empty_scope (p : option nat) (f : option Function) : Scope :=
  mk_Scope p f [] [].

(** The [Scope] object named [self]. *)
Definition get_scope (self : nat) : M Scope :=
  fun st =>
    match nth_error (scopes st) self with
    | Some s => Ok (s, st)
    | None => Unmodelled
    end.

Fixpoint list_set {A} (l : list A) (n : nat) (x : A) : list A :=
  match l, n with
  | [], _ => []
  | _ :: r, O => x :: r
  | y :: r, S k => y :: list_set r k x
  end.

Definition put_scope (self : nat) (s : Scope) : M unit :=
  fun st => Ok (tt, mk_state (list_set (scopes st) self s) (next_function st)
                             (errors st) (warnings st) (stdout st)).

(** [Scope.new_scope]: the child shares the diagnostic sinks;
    [parent_function or self.parent_function]. *)
Definition new_scope (self : nat) (parent_function_ : option Function) : M nat :=
  s <- get_scope self ;;
  fun st =>
    let pf := match parent_function_ with
              | Some f => Some f
              | None => parent_function s
              end in
    Ok (List.length (scopes st),
        mk_state (scopes st ++ [empty_scope (Some self) pf]) (next_function st)
                 (errors st) (warnings st) (stdout st)).

(** [self.variables[name] = variable] *)
Definition set_variable (self : nat) (name : string) (v : Variable_) : M unit :=
  s <- get_scope self ;;
  put_scope self (mk_Scope (parent s) (parent_function s) (imports s)
                           (dict_set (variables s) name v)).

(** [self.imports.append(module)] *)
Definition add_import (self : nat) (m : pymodule) : M unit :=
  s <- get_scope self ;;
  put_scope self (mk_Scope (parent s) (parent_function s) (imports s ++ [m])
                           (variables s)).

(** The walk of [Scope.get_variable] up the [parent] links. A scope is
    created after its parent, so the walk visits at most as many scopes as
    exist: [bound] is that number. *)
Fixpoint get_variable_walk (bound : nat) (scs : list Scope) (self : nat)
    (name : string) : res (option Variable_) :=
  match bound with
  | O => Unmodelled
  | S b =>
      match nth_error scs self with
      | None => Unmodelled
      | Some s =>
          match dict_get (variables s) name with
          | Some v => Ok (Some v)
          | None =>
              match parent s with
              | Some p => get_variable_walk b scs p name
              | None => Ok None
              end
          end
      end
  end.

(** [Scope.get_variable(name, err)]: [None] only when [err] is false. *)
Definition get_variable (self : nat) (name : string) (err : bool) : M (option Variable_) :=
  fun st =>
    match get_variable_walk (List.length (scopes st)) (scopes st) self name with
    | Ok (Some v) => Ok (Some v, st)
    | Ok None =>
        if err
        then Raise (NameError ("You tried to get a variable/function `" ++ name
                               ++ "`, but it isn't defined."))
        else Ok (None, st)
    | Raise e => Raise e
    | OutOfFuel => OutOfFuel
    | Unmodelled => Unmodelled
    end.

Fixpoint get_parent_function_walk (bound : nat) (scs : list Scope) (self : nat)
    : res (option Function) :=
  match bound with
  | O => Unmodelled
  | S b =>
      match nth_error scs self with
      | None => Unmodelled
      | Some s =>
          match parent_function s with
          | Some f => Ok (Some f)
          | None =>
              match parent s with
              | Some p => get_parent_function_walk b scs p
              | None => Ok None
              end
          end
      end
  end.

(** [Scope.get_parent_function] *)
Definition get_parent_function (self : nat) : M (option Function) :=
  fun st =>
    res_map (fun f => (f, st))
            (get_parent_function_walk (List.length (scopes st)) (scopes st) self).

(** [Scope.find_import]: only the scope's own imports are searched. *)
Definition find_import (self : nat) (name : string) : M (option pymodule) :=
  s <- get_scope self ;;
  ret (find (fun imp => String.eqb (mod_name imp) name) (imports s)).

(** [Function(scope, arguments, returntype, codeblock, defaultreturn)]:
    [arguments] are (name, type) pairs; the object stores them as
    (type, name). *)
Definition new_Function (scope : nat) (arguments : list (string * string))
    (returntype : string) (codeblock defaultreturn : node)
    (function : option native_impl) : M Function :=
  fun st =>
    Ok (mk_Function (next_function st)
                    (map snd arguments ++ [returntype])
                    scope
                    (map (fun a => (snd a, fst a)) arguments)
                    returntype codeblock defaultreturn function,
        mk_state (scopes st) (S (next_function st)) (errors st) (warnings st)
                 (stdout st)).

(** A [Function] is itself the [Variable] stored under its name. *)
Definition Function_variable (f : Function) : Variable_ :=
  mk_Variable (TTuple (fn_types f)) (VFunction f).

(** ** The evaluator *)

Definition compare_of_type (t : string) : option comparison_op :=
  if String.eqb t "EQUALS" then Some EQUALS
  else if String.eqb t "GORE" then Some GORE
  else if String.eqb t "LORE" then Some LORE
  else if String.eqb t "LESS" then Some LESS
  else if String.eqb t "GREATER" then Some GREATER
  else if String.eqb t "NEQUALS" || String.eqb t "NEQUALS_QUIRKY" then Some NEQUALS
  else None.

Section Evaluator.
Context {H : Host}.

(** [Scope.eval_value] *)
Definition eval_value (self : nat) (value : node) : M value_ :=
  match value with
  | Token type text _ =>
      if String.eqb type "NUMBER" then
        match int_of_str text with
        | Some n => ret (VInt n)
        | None => raise ValueError
        end
      else if String.eqb type "STRING" then ret (VStr (strip_ends text))
      else if String.eqb type "BOOLEAN" then
        if String.eqb text "false" then ret (VBool false)
        else if String.eqb text "true" then ret (VBool true)
        else raise (SyntaxError ("Unexpected boolean value " ++ text))
      else if String.eqb type "NAME" then
        v <- get_variable self text true ;;
        match v with
        | Some variable => ret (var_value variable)
        | None => unmodelled
        end
      else raise (SyntaxError ("Unexpected value type " ++ type ++ " value " ++ text))
  | _ => raise AttributeError
  end.

(** [for value, (arg_type, arg_name) in zip(arguments, self.arguments):
       scope.variables[arg_name] = Variable(arg_type, value)] *)
Fixpoint bind_arguments (scope : nat) (arguments : list value_)
    (declared : list (string * string)) : M unit :=
  match arguments, declared with
  | value :: vs, (arg_type, arg_name) :: ds =>
      set_variable scope arg_name (mk_Variable (TStr arg_type) value) ;;;
      bind_arguments scope vs ds
  | _, _ => ret tt
  end.

(** [Scope.eval_expr], [Scope.eval_command] and [Function.run] (with
    [NativeFunction.run]). Every call spends one unit of [fuel]. *)
Fixpoint eval_expr (fuel : nat) (self : nat) (expr : node) {struct fuel} : M value_ :=
  match fuel with
  | O => out_of_fuel
  | S fuel =>
    match expr with
    | Token _ _ _ => eval_value self expr
    | NoneNode => raise AttributeError
    | Tree data children =>
      if String.eqb data "ifelse_expr" then
        match children with
        | [condition; if_true; if_false] =>
            c <- eval_expr fuel self condition ;;
            if truthy c then eval_expr fuel self if_true
            else eval_expr fuel self if_false
        | _ => raise ValueError
        end
      else if String.eqb data "function_callback" then
        match children with
        | [] => raise IndexError
        | Tree _ (function :: arguments) :: _ =>
            f <- eval_expr fuel self function ;;
            match f with
            | VFunction fn =>
                args <- map_M (eval_expr fuel self) arguments ;;
                run fuel fn args
            | _ => raise AttributeError
            end
        | Tree _ [] :: _ => raise ValueError
        | _ :: _ => raise AttributeError
        end
      else if String.eqb data "imported_command" then
        match children with
        | l :: c :: args =>
            lname <- lift (as_str l) ;;
            library <- find_import self lname ;;
            match library with
            | None => raise (SyntaxError ("Library " ++ lname ++ " not found"))
            | Some lib =>
                match c with
                | Token _ cname _ =>
                    match mod_getattr lib cname with
                    | None => raise AttributeError
                    | Some com =>
                        vs <- map_M (fun a =>
                                match a with
                                | Tree _ (e :: _) => eval_expr fuel self e
                                | Tree _ [] => raise IndexError
                                | _ => raise AttributeError
                                end) args ;;
                        lift (com vs)
                    end
                | _ => raise HostTypeError
                end
            end
        | _ => raise ValueError
        end
      else if String.eqb data "or_expression" then
        match children with
        | [left_; _; right_] =>
            l <- eval_expr fuel self left_ ;;
            if truthy l then ret l else eval_expr fuel self right_
        | _ => raise ValueError
        end
      else if String.eqb data "and_expression" then
        match children with
        | [left_; _; right_] =>
            l <- eval_expr fuel self left_ ;;
            if truthy l then eval_expr fuel self right_ else ret l
        | _ => raise ValueError
        end
      else if String.eqb data "not_expression" then
        match children with
        | [_; value] =>
            v <- eval_expr fuel self value ;;
            ret (VBool (negb (truthy v)))
        | _ => raise ValueError
        end
      else if String.eqb data "compare_expression" then
        match children with
        | [left_; comparison; right_] =>
            match left_ with
            | Tree ldata lchildren =>
                let continue (left_ : node) : M value_ :=
                  ctype <- lift (get_type comparison) ;;
                  match compare_of_type ctype with
                  | Some op =>
                      l <- eval_expr fuel self left_ ;;
                      r <- eval_expr fuel self right_ ;;
                      lift (py_compare op l r)
                  | None =>
                      raise (SyntaxError
                        ("Unexpected operation for compare_expression: " ++ ctype))
                  end in
                if String.eqb ldata "compare_expression" then
                  lv <- eval_expr fuel self left_ ;;
                  if negb (truthy lv) then ret (VBool false)
                  else
                    match nth_error lchildren 2 with
                    | Some left_' => continue left_'
                    | None => raise IndexError
                    end
                else continue left_
            | _ => raise AttributeError
            end
        | _ => raise ValueError
        end
      else if String.eqb data "sum_expression" then
        match children with
        | [left_; operation; right_] =>
            otype <- lift (get_type operation) ;;
            if String.eqb otype "ADD" then
              l <- eval_expr fuel self left_ ;;
              r <- eval_expr fuel self right_ ;;
              lift (py_arith ADD l r)
            else if String.eqb otype "SUBTRACT" then
              l <- eval_expr fuel self left_ ;;
              r <- eval_expr fuel self right_ ;;
              lift (py_arith SUBTRACT l r)
            else
              otext <- lift (as_str operation) ;;
              raise (SyntaxError ("Unexpected operation for sum_expression: " ++ otext))
        | _ => raise ValueError
        end
      else if String.eqb data "product_expression" then
        match children with
        | [left_; operation; right_] =>
            otype <- lift (get_type operation) ;;
            if String.eqb otype "MULTIPLY" then
              l <- eval_expr fuel self left_ ;;
              r <- eval_expr fuel self right_ ;;
              lift (py_arith MULTIPLY l r)
            else if String.eqb otype "DIVIDE" then
              l <- eval_expr fuel self left_ ;;
              r <- eval_expr fuel self right_ ;;
              lift (py_arith DIVIDE l r)
            else if String.eqb otype "ROUNDDIV" then
              l <- eval_expr fuel self left_ ;;
              r <- eval_expr fuel self right_ ;;
              lift (py_arith ROUNDDIV l r)
            else if String.eqb otype "MODULO" then
              l <- eval_expr fuel self left_ ;;
              r <- eval_expr fuel self right_ ;;
              lift (py_arith MODULO l r)
            else
              otext <- lift (as_str operation) ;;
              raise (SyntaxError
                ("Unexpected operation for product_expression: " ++ otext))
        | _ => raise ValueError
        end
      else if String.eqb data "exponent_expression" then
        match children with
        | [left_; _; right_] =>
            l <- eval_expr fuel self left_ ;;
            r <- eval_expr fuel self right_ ;;
            lift (py_arith EXPONENT l r)
        | _ => raise ValueError
        end
      else if String.eqb data "unary_expression" then
        match children with
        | [operation; value] =>
            otype <- lift (get_type operation) ;;
            if String.eqb otype "NEGATE" then
              v <- eval_expr fuel self value ;;
              lift (py_neg v)
            else
              otext <- lift (as_str operation) ;;
              raise (SyntaxError
                ("Unexpected operation for unary_expression: " ++ otext))
        | _ => raise ValueError
        end
      else if String.eqb data "value" then
        match children with
        | [] => raise IndexError
        | token_or_tree :: _ =>
            match token_or_tree with
            | Tree _ _ => eval_expr fuel self token_or_tree
            | _ => eval_value self token_or_tree
            end
        end
      else
        raise (SyntaxError ("Unexpected command/expression type " ++ data))
    end
  end

with eval_command (fuel : nat) (self : nat) (tree : node) {struct fuel}
    : M (bool * value_) :=
  match fuel with
  | O => out_of_fuel
  | S fuel =>
    match tree with
    | Tree data children =>
      if negb (String.eqb data "instruction") then raise HostNameError
      else
        match children with
        | [] => raise IndexError
        | Tree cdata cchildren as command :: _ =>
          if String.eqb cdata "imp" then
            match cchildren with
            | [] => raise IndexError
            | Token _ name _ :: _ =>
                m <- lift (import_module name) ;;
                add_import self m ;;;
                ret (false, VNone)
            | _ :: _ => raise AttributeError
            end
          else if String.eqb cdata "function_def" then
            let define (deccall returntype codeblock defaultreturn : node) :=
              dchildren <- lift (get_children deccall) ;;
              match dchildren with
              | [] => raise ValueError
              | name :: arguments =>
                  arguments <- lift (argument_pairs arguments) ;;
                  rt <- lift (get_value returntype) ;;
                  f <- new_Function self arguments rt codeblock defaultreturn None ;;
                  n <- lift (as_str name) ;;
                  set_variable self n (Function_variable f) ;;;
                  ret (false, VNone)
              end in
            match cchildren with
            | [deccall; returntype; codeblock] =>
                define deccall returntype codeblock NoneNode
            | [deccall; returntype; codeblock; defaultreturn] =>
                define deccall returntype codeblock defaultreturn
            | _ => raise ValueError
            end
          else if String.eqb cdata "loop" then
            match cchildren with
            | [times; var; code] =>
                vchildren <- lift (get_children var) ;;
                match vchildren with
                | [name; type] =>
                    t <- lift (as_str type) ;;
                    (if negb (String.eqb t "int")
                     then print ("I cannot loop over a value of type " ++ t ++ ".")
                     else ret tt) ;;;
                    n <- match times with
                         | Token _ text _ =>
                             match int_of_str text with
                             | Some n => ret n
                             | None => raise ValueError
                             end
                         | _ => raise HostTypeError
                         end ;;
                    for_until (fun i =>
                        scope <- new_scope self None ;;
                        nm <- lift (as_str name) ;;
                        set_variable scope nm (mk_Variable (TStr t) (VInt i)) ;;;
                        body <- lift (get_children code) ;;
                        for_until (eval_command fuel scope) body)
                      (range n)
                | _ => raise ValueError
                end
            | _ => raise ValueError
            end
          else if String.eqb cdata "print" then
            match cchildren with
            | [] => raise IndexError
            | e :: _ =>
                v <- eval_expr fuel self e ;;
                print (py_str v) ;;;
                ret (false, VNone)
            end
          else if String.eqb cdata "return" then
            match cchildren with
            | [] => raise IndexError
            | e :: _ =>
                v <- eval_expr fuel self e ;;
                ret (true, v)
            end
          else if String.eqb cdata "declare" then
            match cchildren with
            | [name_type; value] =>
                ntchildren <- lift (get_children name_type) ;;
                match ntchildren with
                | [name; type] =>
                    v <- eval_expr fuel self value ;;
                    t <- lift (as_str type) ;;
                    n <- lift (as_str name) ;;
                    set_variable self n (mk_Variable (TStr t) v) ;;;
                    ret (false, VNone)
                | _ => raise ValueError
                end
            | _ => raise ValueError
            end
          else if String.eqb cdata "if" then
            match cchildren with
            | [condition; body] =>
                c <- eval_expr fuel self condition ;;
                if truthy c then
                  scope <- new_scope self None ;;
                  ev <- eval_command fuel scope body ;;
                  if fst ev then ret (true, snd ev) else ret (false, VNone)
                else ret (false, VNone)
            | _ => raise ValueError
            end
          else if String.eqb cdata "ifelse" then
            match cchildren with
            | [condition; if_true; if_false] =>
                c <- eval_expr fuel self condition ;;
                ev <- (if truthy c then
                         scope <- new_scope self None ;;
                         eval_command fuel scope if_true
                       else
                         scope <- new_scope self None ;;
                         eval_command fuel scope if_false) ;;
                if fst ev then ret (true, snd ev) else ret (false, VNone)
            | _ => raise ValueError
            end
          else
            eval_expr fuel self command ;;;
            ret (false, VNone)
        | _ :: _ => raise AttributeError
        end
    | _ => raise AttributeError
    end
  end

with run (fuel : nat) (self : Function) (arguments : list value_) {struct fuel}
    : M value_ :=
  match fuel with
  | O => out_of_fuel
  | S fuel =>
    match fn_function self with
    | Some function => lift (run_native function arguments)
    | None =>
        scope <- new_scope (fn_scope self) (Some self) ;;
        if (List.length arguments <? List.length (fn_arguments self))%nat then
          raise (TypeError ("Missing arguments " ++
            join ", " (map snd (skipn (List.length arguments) (fn_arguments self)))))
        else
          bind_arguments scope arguments (fn_arguments self) ;;;
          body <- lift (get_children (fn_codeblock self)) ;;
          ev <- for_until (eval_command fuel scope) body ;;
          if fst ev then ret (snd ev)
          else eval_expr fuel scope (fn_defaultreturn self)
    end
  end.

End Evaluator.

(** ** The type checker *)

(** [binary_operation_types], [unary_operation_types], [comparable_types]
    and [iterable_types]. *)
Definition binary_operation_types : dict (list (string * string * string)) :=
  [ ("OR", [("bool", "bool", "bool"); ("int", "int", "int")]);
    ("AND", [("bool", "bool", "bool"); ("int", "int", "int")]);
    ("ADD", [("int", "int", "int"); ("float", "float", "float"); ("str", "str", "str")]);
    ("SUBTRACT", [("int", "int", "int"); ("float", "float", "float")]);
    ("MULTIPLY", [("int", "int", "int"); ("float", "float", "float")]);
    ("DIVIDE", [("int", "int", "int"); ("float", "float", "float")]);
    ("ROUNDDIV", [("int", "int", "int"); ("float", "float", "float")]);
    ("MODULO", [("int", "int", "int"); ("float", "float", "float")]);
    ("EXPONENT", [("int", "int", "float"); ("float", "float", "float")]) ].

Definition unary_operation_types : dict (dict string) :=
  [ ("NEGATE", [("int", "int"); ("float", "float")]);
    ("NOT", [("bool", "bool"); ("int", "int")]) ].

Definition comparable_types : list string := ["int"; "float"].
Definition iterable_types : dict string := [("int", "int")].

Definition list_eqb {A} (eqb : A -> A -> bool) : list A -> list A -> bool :=
  fix go (l1 l2 : list A) : bool :=
    match l1, l2 with
    | [], [] => true
    | x :: r1, y :: r2 => eqb x y && go r1 r2
    | _, _ => false
    end.

(** [==] on types. *)
Definition ntype_eqb (a b : ntype) : bool :=
  match a, b with
  | TStr s, TStr t => String.eqb s t
  | TTuple l, TTuple m => list_eqb String.eqb l m
  | _, _ => false
  end.

(** [types.get(value_type)] on a row of [unary_operation_types]. *)
Definition unary_get (types : dict string) (value_type : ntype) : option string :=
  match value_type with
  | TStr s => dict_get types s
  | TTuple _ => None
  end.

(** [types.get((left_type, right_type))] on a row of
    [binary_operation_types]. *)
Definition binary_get (types : list (string * string * string))
    (left_type right_type : ntype) : option string :=
  match left_type, right_type with
  | TStr l, TStr r =>
      option_map snd
        (find (fun e => String.eqb (fst (fst e)) l && String.eqb (snd (fst e)) r) types)
  | _, _ => None
  end.

(** [iterable_types.get(iterable_type)] *)
Definition iterable_get (iterable_type : option ntype) : option string :=
  match iterable_type with
  | Some (TStr s) => dict_get iterable_types s
  | _ => None
  end.

Definition display_type (n_type : ntype) : string :=
  match n_type with
  | TStr s => Fore_YELLOW ++ s ++ Style_RESET_ALL
  | TTuple l => Fore_YELLOW ++ join " -> " l ++ Style_RESET_ALL
  end.

(** [d = TypeCheckError(datum, message)], which refuses what is neither a
    token nor a tree, then [self.errors.append(d)]. *)
Definition push_error (datum : node) (message : string) : M unit :=
  fun st =>
    match datum with
    | NoneNode => Raise (TypeError "token_or_tree should be a Lark Token or Tree.")
    | _ => Ok (tt, mk_state (scopes st) (next_function st)
                            (errors st ++ [mk_TypeCheckError datum message])
                            (warnings st) (stdout st))
    end.

(** The same with [self.warnings]. *)
Definition push_warning (datum : node) (message : string) : M unit :=
  fun st =>
    match datum with
    | NoneNode => Raise (TypeError "token_or_tree should be a Lark Token or Tree.")
    | _ => Ok (tt, mk_state (scopes st) (next_function st) (errors st)
                            (warnings st ++ [mk_TypeCheckError datum message])
                            (stdout st))
    end.

(** [scope.errors = []; scope.warnings = []; ... scope.type_check_expr(e)]
    on a scope that is dropped afterwards: the check runs on fresh sinks,
    and the sinks of [self] are left as they were. *)
Definition with_fresh_sinks {A} (m : M A) : M A :=
  fun st =>
    match m (mk_state (scopes st) (next_function st) [] [] (stdout st)) with
    | Ok (a, st') =>
        Ok (a, mk_state (scopes st') (next_function st') (errors st) (warnings st)
                        (stdout st'))
    | Raise e => Raise e
    | OutOfFuel => OutOfFuel
    | Unmodelled => Unmodelled
    end.

(** [Scope.get_value_type] *)
Definition get_value_type (self : nat) (value : node) : M (option ntype) :=
  match value with
  | Token type text _ =>
      if String.eqb type "NUMBER" then ret (Some (TStr "int"))
      else if String.eqb type "STRING" then ret (Some (TStr "str"))
      else if String.eqb type "BOOLEAN" then ret (Some (TStr "bool"))
      else if String.eqb type "NAME" then
        v <- get_variable self text false ;;
        match v with
        | None =>
            push_error value ("You haven't yet defined " ++ text ++ ".") ;;;
            ret None
        | Some variable => ret (Some (var_type variable))
        end
      else
        push_error value
          ("Internal problem: I don't know the value type " ++ type ++ ".") ;;;
        ret None
  | _ => raise AttributeError
  end.

(** [*arg_types, return_type = func_type]: a [str] unpacks into its
    characters. *)
Definition unpack_func_type (func_type : ntype) : option (list string * string) :=
  let l := match func_type with TStr s => chars s | TTuple l => l end in
  match l with
  | [] => None
  | _ => Some (removelast l, last l "")
  end.

Definition is_Some {A} (o : option A) : bool :=
  match o with Some _ => true | None => false end.

(** [bool(x)] for a node: a tree is true, a token is true when its text is
    not empty. *)
Definition node_truthy (x : node) : bool :=
  match x with
  | Tree _ _ => true
  | Token _ v _ => negb (String.eqb v "")
  | NoneNode => false
  end.

Section Arguments_loop.
Variable check : node -> M (option ntype).
Variable expr : node.
Variable func_type : ntype.

(** [for n, (argument, arg_type) in enumerate(zip(arguments, arg_types), start=1)] *)
Fixpoint check_arguments (n : nat) (arguments : list node) (arg_types : list string)
    : M unit :=
  match arguments, arg_types with
  | argument :: rest, arg_type :: types =>
      check_type <- check argument ;;
      match check_type with
      | Some t =>
          if negb (ntype_eqb t (TStr arg_type)) then
            push_error expr
              ("For a " ++ display_type func_type ++ "'s argument #"
               ++ str_of_int (Z.of_nat n) ++ ", you gave a " ++ display_type t
               ++ ", but you should've given a " ++ display_type (TStr arg_type) ++ ".")
          else ret tt
      | None => ret tt
      end ;;;
      check_arguments (S n) rest types
  | _, _ => ret tt
  end.

End Arguments_loop.

(** [Scope.type_check_expr]: the type of the expression, [None] when it is
    unknown. *)
Fixpoint type_check_expr (self : nat) (expr : node) {struct expr} : M (option ntype) :=
  match expr with
  | Token _ _ _ => get_value_type self expr
  | NoneNode => raise AttributeError
  | Tree data children =>
    if String.eqb data "ifelse_expr" then
      match children with
      | [condition; if_true; if_false] =>
          cond_type <- type_check_expr self condition ;;
          if_true_type <- type_check_expr self if_true ;;
          if_false_type <- type_check_expr self if_false ;;
          match cond_type with
          | Some t =>
              if negb (ntype_eqb t (TStr "bool")) then
                push_error condition
                  ("The condition here should be a boolean, not a "
                   ++ display_type t ++ ".")
              else ret tt
          | None => ret tt
          end ;;;
          match if_true_type, if_false_type with
          | Some a, Some b =>
              if negb (ntype_eqb a b) then
                push_error expr
                  ("The branches of the if-else expression should have the same type, but the true branch has type "
                   ++ display_type a ++ " while the false branch has type "
                   ++ display_type b ++ ".") ;;;
                ret None
              else ret (Some a)
          | _, _ => ret None
          end
      | _ => raise ValueError
      end
    else if String.eqb data "function_callback" then
      match children with
      | [] => raise IndexError
      | Tree _ (function :: arguments) :: _ =>
          func_type <- type_check_expr self function ;;
          match func_type with
          | None => ret None
          | Some ft =>
              match unpack_func_type ft with
              | None => raise ValueError
              | Some (arg_types, return_type) =>
                  check_arguments (type_check_expr self) expr ft 1 arguments arg_types ;;;
                  (if negb (List.length arguments =? List.length arg_types)%nat then
                     push_error expr
                       ("A " ++ display_type ft ++ " has "
                        ++ str_of_int (Z.of_nat (List.length arg_types))
                        ++ " argument(s), but you gave "
                        ++ str_of_int (Z.of_nat (List.length arguments)) ++ ".")
                   else ret tt) ;;;
                  ret (Some (TStr return_type))
              end
          end
      | Tree _ [] :: _ => raise ValueError
      | _ :: _ => raise AttributeError
      end
    else if String.eqb data "imported_command" then
      push_warning expr "I currently don't know how to type check imported commands." ;;;
      ret None
    else if String.eqb data "value" then
      match children with
      | [] => raise IndexError
      | token_or_tree :: _ =>
          match token_or_tree with
          | Tree _ _ => type_check_expr self token_or_tree
          | _ => get_value_type self token_or_tree
          end
      end
    else
      let internal_problem : M (option ntype) :=
        push_error expr
          ("Internal problem: I don't know the command/expression type " ++ data ++ ".") ;;;
        ret None in
      let three : M (option ntype) :=
        match children with
        | [left_; Token otype _ _ as operation; right_] =>
            match dict_get binary_operation_types otype with
            | Some types =>
                left_type <- type_check_expr self left_ ;;
                right_type <- type_check_expr self right_ ;;
                match left_type, right_type with
                | Some lt, Some rt =>
                    match binary_get types lt rt with
                    | None =>
                        push_error expr
                          ("I don't know how to use " ++ otype ++ " on a "
                           ++ display_type lt ++ " and " ++ display_type rt ++ ".") ;;;
                        ret None
                    | Some return_type => ret (Some (TStr return_type))
                    end
                | _, _ => ret None
                end
            | None =>
                if String.eqb data "compare_expression" then
                  left_type <-
                    match left_ with
                    | Tree ldata lchildren =>
                        if String.eqb ldata "compare_expression" then
                          type_check_expr self left_ ;;;
                          scope <- new_scope self None ;;
                          match lchildren with
                          | _ :: _ :: left_' :: _ =>
                              with_fresh_sinks (type_check_expr scope left_')
                          | _ => raise IndexError
                          end
                        else type_check_expr self left_
                    | _ => raise AttributeError
                    end ;;
                  right_type <- type_check_expr self right_ ;;
                  match left_type with
                  | Some lt =>
                      match right_type with
                      | Some rt =>
                          if negb (ntype_eqb lt rt) then
                            push_error operation
                              ("I can't compare " ++ display_type lt ++ " and "
                               ++ display_type rt
                               ++ " because they aren't the same type. You know they won't ever be equal.")
                          else ret tt
                      | None => ret tt
                      end ;;;
                      (if negb (String.eqb otype "EQUALS")
                          && negb (String.eqb otype "NEQUALS")
                          && negb (String.eqb otype "NEQUALS_QUIRKY")
                       then
                         if negb (existsb (ntype_eqb lt) (map TStr comparable_types))
                         then push_error operation
                                ("I don't know how to compare " ++ display_type lt ++ ".")
                         else ret tt
                       else ret tt) ;;;
                      ret (Some (TStr "bool"))
                  | None => ret (Some (TStr "bool"))
                  end
                else internal_problem
            end
        | _ => internal_problem
        end in
      match children with
      | [Token otype _ _; value] =>
          match dict_get unary_operation_types otype with
          | Some types =>
              value_type <- type_check_expr self value ;;
              match value_type with
              | None => ret None
              | Some vt =>
                  match unary_get types vt with
                  | None =>
                      push_error expr
                        ("I don't know how to use " ++ otype ++ " on a "
                         ++ display_type vt ++ ".") ;;;
                      ret None
                  | Some return_type => ret (Some (TStr return_type))
                  end
              end
          | None => internal_problem
          end
      | _ => three
      end
  end.

Definition unreachable_message : string :=
  "There are commands after this return statement, but I will never run them.".

Definition redundant_return_message : string :=
  "There is no need to have an explicit return statement because you have a default return expression that will never run.".

Definition already_defined_message (name : string) : string :=
  "You've already defined `" ++ name ++ "`.".

Definition condition_message (cond_type : ntype) : string :=
  "The condition here should be a boolean, not a " ++ display_type cond_type ++ ".".

Section Body_loops.
Variable check : node -> M (option node).

(** The loop over the body of a function definition:
    [for instruction in codeblock.children:
       exit = scope.type_check_command(instruction)
       if exit and exit_point is None: exit_point = exit
       elif exit_point and not warned: warned = True; self.warnings.append(...)]
    It returns the final [exit_point]. *)
Fixpoint check_body (exit_point : option node) (warned : bool)
    (instructions : list node) : M (option node) :=
  match instructions with
  | [] => ret exit_point
  | instruction :: rest =>
      exit <- check instruction ;;
      match exit, exit_point with
      | Some e, None => check_body (Some e) warned rest
      | _, Some p =>
          if negb warned then
            push_warning p unreachable_message ;;;
            check_body exit_point true rest
          else check_body exit_point warned rest
      | None, None => check_body exit_point warned rest
      end
  end.

(** The loop over the body of a [loop] command:
    [for child in code.children:
       exit = scope.type_check_command(child)
       if not exit_point: exit_point = exit] *)
Fixpoint check_loop_body (exit_point : option node) (children : list node)
    : M (option node) :=
  match children with
  | [] => ret exit_point
  | child :: rest =>
      exit <- check child ;;
      check_loop_body (match exit_point with Some p => Some p | None => exit end) rest
  end.

End Body_loops.

(** [for arg_type, arg_name in function.arguments:
       scope.variables[arg_name] = Variable(arg_type, "anything")] *)
Fixpoint seed_arguments (scope : nat) (arguments : list (string * string)) : M unit :=
  match arguments with
  | [] => ret tt
  | (arg_type, arg_name) :: rest =>
      set_variable scope arg_name (mk_Variable (TStr arg_type) (VStr "anything")) ;;;
      seed_arguments scope rest
  end.

Section Checker.
Context {H : Host}.

(** [Scope.type_check_command]: the exit point of the command ([None] is
    Python's [False]). *)
Fixpoint type_check_command (self : nat) (tree : node) {struct tree} : M (option node) :=
  match tree with
  | Tree data children =>
    if negb (String.eqb data "instruction") then
      push_error tree
        ("Internal problem: I only deal with instructions, not " ++ data ++ ".") ;;;
      ret None
    else
      match children with
      | [] => raise IndexError
      | Tree cdata cchildren as command :: _ =>
        if String.eqb cdata "imp" then
          match cchildren with
          | [] => raise IndexError
          | Token _ name _ :: _ =>
              m <- lift (import_module name) ;;
              add_import self m ;;;
              ret None
          | _ :: _ => raise AttributeError
          end
        else if String.eqb cdata "function_def" then
          match cchildren with
          | deccall :: returntype :: codeblock :: rest =>
              match (match rest with
                     | [] => Some NoneNode
                     | [d] => Some d
                     | _ => None
                     end) with
              | None => raise ValueError
              | Some defaultreturn =>
                  dchildren <- lift (get_children deccall) ;;
                  match dchildren with
                  | [] => raise ValueError
                  | name :: arguments =>
                      arguments <- lift (argument_pairs arguments) ;;
                      default_return_type <-
                        (if node_truthy defaultreturn
                         then type_check_expr self defaultreturn
                         else ret None) ;;
                      n <- lift (get_value name) ;;
                      rt <- lift (get_value returntype) ;;
                      match default_return_type with
                      | Some t =>
                          if negb (ntype_eqb t (TStr rt)) then
                            push_error defaultreturn
                              (n ++ "'s return type is " ++ display_type (TStr rt)
                               ++ ", but your default return value is a "
                               ++ display_type t ++ ".")
                          else ret tt
                      | None => ret tt
                      end ;;;
                      s <- get_scope self ;;
                      (if dict_in (variables s) n
                       then push_error name (already_defined_message n)
                       else ret tt) ;;;
                      function <- new_Function self arguments rt codeblock
                                    defaultreturn None ;;
                      set_variable self n (Function_variable function) ;;;
                      scope <- new_scope self (Some function) ;;
                      seed_arguments scope (fn_arguments function) ;;;
                      match codeblock with
                      | Tree _ body =>
                          exit_point <-
                            check_body (type_check_command scope) None false body ;;
                          match exit_point with
                          | Some p =>
                              if node_truthy defaultreturn
                              then push_warning p redundant_return_message ;;; ret None
                              else ret None
                          | None => ret None
                          end
                      | _ => raise AttributeError
                      end
                  end
              end
          | _ => raise ValueError
          end
        else if String.eqb cdata "loop" then
          match cchildren with
          | [iterable; var; code] =>
              vchildren <- lift (get_children var) ;;
              match vchildren with
              | [name; type] =>
                  iterable_type <- type_check_expr self iterable ;;
                  t <- lift (as_str type) ;;
                  match iterable_type with
                  | Some it =>
                      match iterable_get iterable_type with
                      | None =>
                          push_error iterable
                            ("I can't loop over a " ++ display_type it ++ ".")
                      | Some iterated_type =>
                          if negb (String.eqb t iterated_type) then
                            push_error type
                              ("Looping over a " ++ display_type it ++ " produces "
                               ++ display_type (TStr iterated_type) ++ " values, not "
                               ++ display_type (TStr t) ++ ".")
                          else ret tt
                      end
                  | None => ret tt
                  end ;;;
                  scope <- new_scope self None ;;
                  n <- lift (get_value name) ;;
                  set_variable scope n (mk_Variable (TStr t) (VStr "whatever")) ;;;
                  match code with
                  | Tree _ body =>
                      check_loop_body (type_check_command scope) None body
                  | _ => raise AttributeError
                  end
              | _ => raise ValueError
              end
          | _ => raise ValueError
          end
        else if String.eqb cdata "print" then
          match cchildren with
          | [] => raise IndexError
          | e :: _ => type_check_expr self e ;;; ret None
          end
        else if String.eqb cdata "return" then
          match cchildren with
          | [] => raise IndexError
          | e :: _ =>
              return_type <- type_check_expr self e ;;
              parent_function <- get_parent_function self ;;
              match parent_function with
              | None => push_error command "You can't return outside a function."
              | Some f =>
                  match return_type with
                  | Some t =>
                      if negb (ntype_eqb (TStr (fn_returntype f)) t) then
                        push_error e
                          ("You returned a " ++ display_type t
                           ++ ", but the function is supposed to return a "
                           ++ display_type (TStr (fn_returntype f)) ++ ".")
                      else ret tt
                  | None => ret tt
                  end
              end ;;;
              ret (Some command)
          end
        else if String.eqb cdata "declare" then
          match cchildren with
          | [name_type; value] =>
              ntchildren <- lift (get_children name_type) ;;
              match ntchildren with
              | [name; type] =>
                  n <- lift (get_value name) ;;
                  s <- get_scope self ;;
                  (if dict_in (variables s) n
                   then push_error name (already_defined_message n)
                   else ret tt) ;;;
                  value_type <- type_check_expr self value ;;
                  t <- lift (as_str type) ;;
                  match value_type with
                  | Some vt =>
                      if negb (ntype_eqb vt (TStr t)) then
                        push_error value
                          ("You set " ++ n ++ ", which is defined to be a "
                           ++ display_type (TStr t) ++ ", to what evaluates to a "
                           ++ display_type vt ++ ".")
                      else ret tt
                  | None => ret tt
                  end ;;;
                  set_variable self n (mk_Variable (TStr t) (VStr "whatever")) ;;;
                  ret None
              | _ => raise ValueError
              end
          | _ => raise ValueError
          end
        else if String.eqb cdata "if" then
          match cchildren with
          | [condition; body] =>
              cond_type <- type_check_expr self condition ;;
              match cond_type with
              | Some t =>
                  if negb (ntype_eqb t (TStr "bool"))
                  then push_error condition (condition_message t)
                  else ret tt
              | None => ret tt
              end ;;;
              type_check_command self body ;;;
              ret None
          | _ => raise ValueError
          end
        else if String.eqb cdata "ifelse" then
          match cchildren with
          | [condition; if_true; if_false] =>
              cond_type <- type_check_expr self condition ;;
              match cond_type with
              | Some t =>
                  if negb (ntype_eqb t (TStr "bool"))
                  then push_error condition (condition_message t)
                  else ret tt
              | None => ret tt
              end ;;;
              exit_if_true <- type_check_command self if_true ;;
              exit_if_false <- type_check_command self if_true ;;
              if is_Some exit_if_true && is_Some exit_if_false
              then ret (Some command)
              else ret None
          | _ => raise ValueError
          end
        else
          type_check_expr self command ;;;
          ret None
      | _ :: _ => raise AttributeError
      end
  | _ => raise AttributeError
  end.

End Checker.

(** ** The module level: global scope, the two passes, the driver *)

(** [for x in l: f(x)] *)
Fixpoint for_each {A B} (f : A -> M B) (l : list A) : M unit :=
  match l with
  | [] => ret tt
  | x :: r => f x ;;; for_each f r
  end.

(** [global_scope.add_native_function("intInBase10", [("number", "int")],
    "str", lambda number: str(number))] *)
Definition intInBase10 : Function :=
  mk_Function 0 ["int"; "str"] 0 [("int", "number")] "str" NoneNode NoneNode
              (Some IntInBase10).

Definition global_scope : Scope :=
  mk_Scope None None [] [("intInBase10", Function_variable intInBase10)].

(** The state once the module's definitions have run: [global_scope] is
    scope 0. *)
Definition initial_state : state := mk_state [global_scope] 1 [] [] [].

Definition Fore_BLUE : string := ESC ++ "[34m".

Definition summary_line (error_count warning_count : nat) : string :=
  Fore_BLUE ++ "Ran with " ++ Fore_RED ++ str_of_int (Z.of_nat error_count)
  ++ " error(s)" ++ Fore_BLUE ++ " and " ++ Fore_YELLOW
  ++ str_of_int (Z.of_nat warning_count) ++ " warning(s)" ++ Fore_BLUE ++ "."
  ++ Style_RESET_ALL.

(** [print('\n'.join([w.display('warning', file) ...] + [e.display('error', file) ...]))] *)
Definition print_diagnostics : M unit :=
  fun st => Ok (tt, mk_state (scopes st) (next_function st) (errors st) (warnings st)
                             (stdout st ++ [PDiagnostics (warnings st) (errors st)])).

Definition count_diagnostics : M (nat * nat) :=
  fun st => Ok ((List.length (errors st), List.length (warnings st)), st).

Section Driver.
Context {H : Host}.

(** [type_check(file, tree)] *)
Definition type_check (tree : node) : M (nat * nat) :=
  scope <- new_scope 0 None ;;
  match tree with
  | Tree data children =>
      if String.eqb data "start"
      then for_each (type_check_command scope) children
      else push_error tree
             "Internal issue: I cannot type check from a non-starting branch."
  | _ => raise AttributeError
  end ;;;
  print_diagnostics ;;;
  count_diagnostics.

(** [parse_tree(tree)] *)
Definition parse_tree (fuel : nat) (tree : node) : M unit :=
  match tree with
  | Tree data children =>
      if String.eqb data "start" then
        scope <- new_scope 0 None ;;
        for_each (eval_command fuel scope) children
      else raise (SyntaxError "Unable to run parse_tree on non-starting branch")
  | _ => raise AttributeError
  end.

(** The last four statements of the module, on the parsed [tree]:
    [error_count, warning_count = type_check(file, tree)]
    [parse_tree(tree)]
    [if error_count > 0: print(...)] *)
Definition driver (fuel : nat) (tree : node) : M unit :=
  counts <- type_check tree ;;
  parse_tree fuel tree ;;;
  if (0 <? fst counts)%nat
  then print (summary_line (fst counts) (snd counts))
  else ret tt.

End Driver.

(** ** Notions used to state the properties *)

Section Notions.
Context {H : Host}.

(** [Function.run] up to the end of its loop over the body: the scope of
    the call and the (exit, value) pair the loop ended with. *)
Definition run_body (fuel : nat) (self : Function) (arguments : list value_)
    : M (nat * (bool * value_)) :=
  scope <- new_scope (fn_scope self) (Some self) ;;
  if (List.length arguments <? List.length (fn_arguments self))%nat then
    raise (TypeError ("Missing arguments " ++
      join ", " (map snd (skipn (List.length arguments) (fn_arguments self)))))
  else
    bind_arguments scope arguments (fn_arguments self) ;;;
    body <- lift (get_children (fn_codeblock self)) ;;
    ev <- for_until (eval_command fuel scope) body ;;
    ret (scope, ev).

(** The expression evaluates to [v], from state [st] to state [st']. *)
Definition evaluates (self : nat) (expr : node) (st : state) (v : value_)
    (st' : state) : Prop :=
  exists fuel, eval_expr fuel self expr st = Ok (v, st').

End Notions.

(** ** A host to run examples on

    Only the examples and the instances of theorems at concrete inputs use
    it; the theorems hold for every host. Integer division rounds the two
    operands to binary64 first. *)

Definition float_of_Z (n : Z) : spec_float := binary_normalize 53 1024 n 0 false.

Definition example_host : Host := {|
  float_str := fun _ => "<float>";
  object_str := fun _ => "<function>";
  int_truediv := fun a b => Ok (SFdiv 53 1024 (float_of_Z a) (float_of_Z b));
  int_negpow := fun _ _ => Raise OverflowError;
  float_arith := fun _ _ _ => Raise HostTypeError;
  float_compare := fun _ _ _ => Raise HostTypeError;
  import_module := fun _ => Raise ModuleNotFoundError
|}.

(** Builders for example trees. *)
Definition tok (t v : string) : node := Token t v nopos.
Definition num (v : string) : node := Tree "value" [tok "NUMBER" v].
Definition var (v : string) : node := Tree "value" [tok "NAME" v].
Definition instr (command : node) : node := Tree "instruction" [command].
Definition name_type (n t : string) : node :=
  Tree "name_type" [tok "NAME" n; tok "NAME" t].

(** What a run printed, and the value it produced. *)
Definition printed_by {A} (r : res (A * state)) : res (list printed) :=
  res_map (fun p => stdout (snd p)) r.

Definition result_of {A} (r : res (A * state)) : res A := res_map fst r.

Definition warnings_of {A} (r : res (A * state)) : res (list TypeCheckError) :=
  res_map (fun p => warnings (snd p)) r.

Definition errors_of {A} (r : res (A * state)) : res (list TypeCheckError) :=
  res_map (fun p => errors (snd p)) r.

(** [r1] is [r2], or the fuel ran out before [r1] was reached. *)
Definition le_res {A} (r1 r2 : res A) : Prop := r1 = OutOfFuel \/ r1 = r2.
Definition le_M {A} (m1 m2 : M A) : Prop := forall st, le_res (m1 st) (m2 st).

(** ** Example programs *)

(** A function [fun h() -> int { print 1 }] defined in the global scope. *)
Definition h_no_return : Function :=
  mk_Function 1 ["int"] 0 [] "int"
    (Tree "code_block" [instr (Tree "print" [num "1"])]) NoneNode None.

(** [fun f(a: int, b: int) -> int { return a + b }] defined in the global
    scope. *)
Definition f_add : Function :=
  mk_Function 1 ["int"; "int"; "int"] 0 [("int", "a"); ("int", "b")] "int"
    (Tree "code_block"
       [instr (Tree "return" [Tree "sum_expression" [var "a"; tok "ADD" "+"; var "b"]])])
    NoneNode None.


(** [not 5], [2 ^ 3] and [4 / 2]. *)
Definition not_5 : node := Tree "not_expression" [tok "NOT" "not"; num "5"].
Definition two_pow_3 : node :=
  Tree "exponent_expression" [num "2"; tok "EXPONENT" "^"; num "3"].
Definition four_div_2 : node :=
  Tree "product_expression" [num "4"; tok "DIVIDE" "/"; num "2"].

(** [if false return 1 else print 2] and the program
    [fun g() -> int { if false return 1 else print 2; print 3 } -> 0]
    [print g()]. *)
Definition ifelse_cmd : node :=
  Tree "ifelse" [Tree "value" [tok "BOOLEAN" "false"];
                 instr (Tree "return" [num "1"]);
                 instr (Tree "print" [num "2"])].

Definition g_ifelse_program : node :=
  Tree "start"
    [instr (Tree "function_def"
       [Tree "deccall" [tok "NAME" "g"]; tok "NAME" "int";
        Tree "code_block" [instr ifelse_cmd; instr (Tree "print" [num "3"])];
        num "0"]);
     instr (Tree "print" [Tree "function_callback" [Tree "call" [var "g"]]])].

(** [1 = 2 = 3] *)
Definition chain_1_2_3 : node :=
  Tree "compare_expression"
    [Tree "compare_expression" [num "1"; tok "EQUALS" "="; num "2"];
     tok "EQUALS" "="; num "3"].

(** The program [print 1]. *)
Definition print_1_program : node :=
  Tree "start" [instr (Tree "print" [num "1"])].

(** The labels [type_check_expr] handles before it looks for an operator:
    if-else expression, call, imported command and value. *)
Definition is_special_label (data : string) : bool :=
  String.eqb data "ifelse_expr" || String.eqb data "function_callback"
  || String.eqb data "imported_command" || String.eqb data "value".

(** [-x] and [x + 1] where [x] is not defined. *)
Definition negate_x : node := Tree "unary_expression" [tok "NEGATE" "-"; var "x"].
Definition x_plus_1 : node := Tree "sum_expression" [var "x"; tok "ADD" "+"; num "1"].

(** [fun g() -> int { return 1; print 2 }] *)
Definition g_return_then_print : node :=
  Tree "start"
    [instr (Tree "function_def"
       [Tree "deccall" [tok "NAME" "g"]; tok "NAME" "int";
        Tree "code_block" [instr (Tree "return" [num "1"]);
                           instr (Tree "print" [num "2"])]])].

(** [if true return 1 else return 2] and
    [fun g() -> int { if true return 1 else return 2; return 3; print 4 }]. *)
Definition ifelse_both_return : node :=
  Tree "ifelse" [Tree "value" [tok "BOOLEAN" "true"];
                 instr (Tree "return" [num "1"]);
                 instr (Tree "return" [num "2"])].

Definition g_ifelse_return_print : node :=
  Tree "start"
    [instr (Tree "function_def"
       [Tree "deccall" [tok "NAME" "g"]; tok "NAME" "int";
        Tree "code_block" [instr ifelse_both_return;
                           instr (Tree "return" [num "3"]);
                           instr (Tree "print" [num "4"])]])].

(** A state in which scope 1 is the scope of a body of [h_no_return]. *)
Definition body_state : state :=
  mk_state [global_scope; empty_scope (Some 0%nat) (Some h_no_return)] 2 [] [] [].

(** ** Loops, as the specification describes them *)

Section Loop_specification.
Context {H : Host}.

(** One iteration: a fresh child scope of [self] in which the induction
    variable is bound to [i], then the commands of the body in order until
    one of them returns. *)
Definition iteration (fuel self : nat) (name type : string) (body : list node)
    (i : Z) : M (bool * value_) :=
  scope <- new_scope self None ;;
  set_variable scope name (mk_Variable (TStr type) (VInt i)) ;;;
  for_until (eval_command fuel scope) body.

(** [iterations ... l st k r st']: running the iterations for the values
    [l] of the induction variable, in order, from state [st], executes the
    body [k] times and ends in state [st'] with [r]: [(True, v)] as soon as
    an iteration returns [v], [(False, None)] when every iteration ran to
    its end. *)
Inductive iterations (fuel self : nat) (name type : string) (body : list node)
    : list Z -> state -> nat -> bool * value_ -> state -> Prop :=
| iterations_done st :
    iterations fuel self name type body [] st 0 (false, VNone) st
| iterations_exit i rest st v st1 :
    iteration fuel self name type body i st = Ok ((true, v), st1) ->
    iterations fuel self name type body (i :: rest) st 1 (true, v) st1
| iterations_next i rest st v st1 k r st2 :
    iteration fuel self name type body i st = Ok ((false, v), st1) ->
    iterations fuel self name type body rest st1 k r st2 ->
    iterations fuel self name type body (i :: rest) st (S k) r st2.

End Loop_specification.

(** [for 5 times as (i: int) { print i }],
    [for 3 times as (i: int) { print i; return i }], and a loop whose count
    is the expression tree of the literal [2]. *)
Definition loop_cmd (times : node) (name type : string) (body : list node) : node :=
  instr (Tree "loop" [times; name_type name type; Tree "code_block" body]).

Definition loop_5_print : node :=
  loop_cmd (tok "NUMBER" "5") "i" "int" [instr (Tree "print" [var "i"])].

Definition loop_3_return : node :=
  loop_cmd (tok "NUMBER" "3") "i" "int"
    [instr (Tree "print" [var "i"]); instr (Tree "return" [var "i"])].

(** [fun f() -> int { for 3 times as (i: int) { print i; return i } }]
    then [print f()]. *)
Definition loop_3_return_program : node :=
  Tree "start"
    [instr (Tree "function_def"
       [Tree "deccall" [tok "NAME" "f"]; tok "NAME" "int";
        Tree "code_block" [loop_3_return]]);
     instr (Tree "print" [Tree "function_callback" [Tree "call" [var "f"]]])].

Definition loop_tree_count : node :=
  loop_cmd (num "2") "i" "int" [instr (Tree "print" [var "i"])].

(** ** What a check may change *)

(** The number of nodes of a tree. *)
Fixpoint node_size (x : node) : nat :=
  match x with
  | Tree _ children => S (list_sum (map node_size children))
  | _ => 1%nat
  end.

(** From [st] to [st'], as seen from scope [self] when [n] scopes are
    under watch: the sinks only received new entries at their end, scopes
    were only added, and each of the first [n] scopes other than [self] is
    as it was. *)
Definition extends (n self : nat) (st st' : state) : Prop :=
  (n <= List.length (scopes st))%nat ->
  (exists es, errors st' = (errors st ++ es)%list)
  /\ (exists ws, warnings st' = (warnings st ++ ws)%list)
  /\ (List.length (scopes st) <= List.length (scopes st'))%nat
  /\ (forall i, (i < n)%nat -> i <> self ->
        nth_error (scopes st') i = nth_error (scopes st) i).

(** Every completed run of [m] is related by [R]. *)
Definition respects {A} (R : state -> state -> Prop) (m : M A) : Prop :=
  forall st a st', m st = Ok (a, st') -> R st st'.

(** ** Declarations *)

(** The state with diagnostics [es] appended to the error sink. *)
Definition with_errors (st : state) (es : list TypeCheckError) : state :=
  mk_state (scopes st) (next_function st) (errors st ++ es) (warnings st) (stdout st).

(** The "already defined" diagnostic for the name token [name]. *)
Definition duplicate_error (name : node) (n : string) : TypeCheckError :=
  mk_TypeCheckError name (already_defined_message n).

(** The diagnostic of a declaration whose value has a type other than
    the declared one. *)
Definition declare_mismatch (value : node) (n t : string) (value_type : option ntype)
    : list TypeCheckError :=
  match value_type with
  | Some vt =>
      if negb (ntype_eqb vt (TStr t))
      then [mk_TypeCheckError value
              ("You set " ++ n ++ ", which is defined to be a "
               ++ display_type (TStr t) ++ ", to what evaluates to a "
               ++ display_type vt ++ ".")]
      else []
  | None => []
  end.

(** [var x: int = 1] and [var x: int = 2], and the program that declares
    [x] twice. *)
Definition declare_x (v : string) : node :=
  instr (Tree "declare" [name_type "x" "int"; num v]).

Definition declare_twice_program : node :=
  Tree "start" [declare_x "1"; declare_x "2"].

(** A state in which the global scope binds [x] and scope 1, its child,
    binds nothing. *)
Definition shadow_state : state :=
  mk_state
    [mk_Scope None None [] [("x", mk_Variable (TStr "int") (VStr "whatever"))];
     empty_scope (Some 0%nat) None]
    1 [] [] [].

(** The diagnostic of a function definition whose default return value has
    a type other than the declared return type. *)
Definition default_mismatch (defaultreturn : node) (n rt : string)
    (default_return_type : option ntype) : list TypeCheckError :=
  match default_return_type with
  | Some t =>
      if negb (ntype_eqb t (TStr rt))
      then [mk_TypeCheckError defaultreturn
              (n ++ "'s return type is " ++ display_type (TStr rt)
               ++ ", but your default return value is a " ++ display_type t ++ ".")]
      else []
  | None => []
  end.

(** A function definition command: three children, or four when there is
    a default return expression. *)
Definition function_def_cmd (deccall returntype codeblock defaultreturn : node) : node :=
  instr (Tree "function_def"
           (deccall :: returntype :: codeblock
            :: match defaultreturn with NoneNode => [] | _ => [defaultreturn] end)).

(** What the rule of a function definition does after the body:
    [if exit_point and defaultreturn: self.warnings.append(...)]. *)
Definition after_body (defaultreturn : node) (exit_point : option node)
    : M (option node) :=
  match exit_point with
  | Some p =>
      if node_truthy defaultreturn
      then push_warning p redundant_return_message ;;; ret None
      else ret None
  | None => ret None
  end.

(** [fun x() -> int { return 1 }] twice, in one scope. *)
Definition define_x : node :=
  function_def_cmd (Tree "deccall" [tok "NAME" "x"]) (tok "NAME" "int")
    (Tree "code_block" [instr (Tree "return" [num "1"])]) NoneNode.

Definition define_twice_program : node := Tree "start" [define_x; define_x].

(** The scenarios of the specification:
    [var x: int = 1 + 2] then [print x];
    [var x: int = "a" + "b"];
    [fun f(a: int, b: int) -> int { return a + b }] then [print f(2, 3)];
    [fun k() -> int { } -> "hi"];
    [fun h() -> int { print 1 }] then [print h()]. *)
Definition scenario_1 : node :=
  Tree "start"
    [instr (Tree "declare"
       [name_type "x" "int"; Tree "sum_expression" [num "1"; tok "ADD" "+"; num "2"]]);
     instr (Tree "print" [var "x"])].

Definition a_plus_b : node :=
  Tree "sum_expression"
    [Tree "value" [tok "STRING" "'a'"]; tok "ADD" "+"; Tree "value" [tok "STRING" "'b'"]].

Definition scenario_2 : node :=
  Tree "start" [instr (Tree "declare" [name_type "x" "int"; a_plus_b])].

Definition scenario_3 : node :=
  Tree "start"
    [function_def_cmd
       (Tree "deccall" [tok "NAME" "f"; name_type "a" "int"; name_type "b" "int"])
       (tok "NAME" "int")
       (Tree "code_block"
          [instr (Tree "return"
             [Tree "sum_expression" [var "a"; tok "ADD" "+"; var "b"]])])
       NoneNode;
     instr (Tree "print"
       [Tree "function_callback" [Tree "call" [var "f"; num "2"; num "3"]]])].

Definition hi : node := Tree "value" [tok "STRING" "'hi'"].

Definition scenario_4 : node :=
  Tree "start"
    [function_def_cmd (Tree "deccall" [tok "NAME" "k"]) (tok "NAME" "int")
       (Tree "code_block" []) hi].

Definition call_without_return : node :=
  Tree "start"
    [function_def_cmd (Tree "deccall" [tok "NAME" "h"]) (tok "NAME" "int")
       (Tree "code_block" [instr (Tree "print" [num "1"])]) NoneNode;
     instr (Tree "print" [Tree "function_callback" [Tree "call" [var "h"]]])].

(** ** Stores in which every scope is younger than its parent *)

(** The scope of index [i] names an older scope as its parent, or none. *)
Definition scope_older (i : nat) (s : Scope) : bool :=
  match parent s with
  | Some p => (p <? i)%nat
  | None => true
  end.

Fixpoint wf_from (i : nat) (scs : list Scope) : bool :=
  match scs with
  | [] => true
  | s :: r => scope_older i s && wf_from (S i) r
  end.

(** [Scope.new_scope] is the only place that sets [parent], and it sets it
    to an existing scope: the parent links of a store never form a cycle. *)
Definition wf_store (scs : list Scope) : Prop := wf_from 0 scs = true.

(** From [st] to [st'] the store stays well formed. *)
Definition keeps_wf (st st' : state) : Prop :=
  wf_store (scopes st) -> wf_store (scopes st').

(** From [st] to [st'] nothing was printed. *)
Definition same_output (st st' : state) : Prop := stdout st' = stdout st.

(** From [st] to [st'] no diagnostic was added. *)
Definition same_diagnostics (st st' : state) : Prop :=
  errors st' = errors st /\ warnings st' = warnings st.

(** [if true { var x: int = 1 }] *)
Definition if_true_declare_x : node :=
  instr (Tree "if" [Tree "value" [tok "BOOLEAN" "true"]; declare_x "1"]).

(** Every completed run of [m] returns a result that satisfies [P]. *)
Definition yields {A} (P : A -> Prop) (m : M A) : Prop :=
  forall st a st', m st = Ok (a, st') -> P a.

(** The two commands [type_check_command] itself names as an exit point:
    [return command] in the rules of [return] and of [ifelse]. *)
Definition is_exit_node (p : node) : bool :=
  match p with
  | Tree d _ => String.eqb d "return" || String.eqb d "ifelse"
  | _ => false
  end.

Definition exit_ok (o : option node) : Prop :=
  forall p, o = Some p -> is_exit_node p = true.

(** The diagnostic of a call whose number of arguments is not the number
    of parameters of the type of the function. *)
Definition arity_error (expr : node) (ft : ntype) (arguments : list node)
    (arg_types : list string) : list TypeCheckError :=
  if negb (List.length arguments =? List.length arg_types)%nat
  then [mk_TypeCheckError expr
          ("A " ++ display_type ft ++ " has "
           ++ str_of_int (Z.of_nat (List.length arg_types))
           ++ " argument(s), but you gave "
           ++ str_of_int (Z.of_nat (List.length arguments)) ++ ".")]
  else [].

(** [1 < 2], [f(1)] where [f] is not defined, and [intInBase10(1, 2)]. *)
Definition one_less_2 : node :=
  Tree "compare_expression" [num "1"; tok "LESS" "<"; num "2"].

Definition call_undefined : node :=
  Tree "function_callback" [Tree "call" [var "f"; var "y"]].

Definition call_two_arguments : node :=
  Tree "function_callback" [Tree "call" [var "intInBase10"; num "1"; num "2"]].

(** ** Rendering of diagnostics: [File] and [TypeCheckError.display]

    The text of a line is a [string] of code points below 256. *)

(** colorama's [Fore.CYAN] and [Style.BRIGHT]. *)
Definition Fore_CYAN : string := ESC ++ "[36m".
Definition Style_BRIGHT : string := ESC ++ "[1m".

Definition newline : string := String (ascii_of_nat 10) "".
Definition tab : ascii := ascii_of_nat 9.

(** [c.isspace()] *)
Definition is_whitespace (c : ascii) : bool :=
  let n := nat_of_ascii c in
  (((9 <=? n) && (n <=? 13)) || ((28 <=? n) && (n <=? 32))
   || (n =? 133) || (n =? 160))%nat.

(** [s.rstrip()] *)
Fixpoint rstrip (s : string) : string :=
  match s with
  | EmptyString => EmptyString
  | String c r =>
      match rstrip r with
      | EmptyString => if is_whitespace c then EmptyString else String c EmptyString
      | r' => String c r'
      end
  end.

(** [s.replace('\t', ' ' * tab_length)] *)
Fixpoint replace_tabs (tab_length : nat) (s : string) : string :=
  match s with
  | EmptyString => EmptyString
  | String c r =>
      if Ascii.eqb c tab
      then repeat_string " " tab_length ++ replace_tabs tab_length r
      else String c (replace_tabs tab_length r)
  end.

(** [l[i]]: a negative index counts from the end. *)
Definition py_index {A} (l : list A) (i : Z) : res A :=
  let n := Z.of_nat (List.length l) in
  let j := if i <? 0 then i + n else i in
  if (j <? 0) || (n <=? j) then Raise IndexError
  else match nth_error l (Z.to_nat j) with
       | Some x => Ok x
       | None => Raise IndexError
       end.

(** The place a bound of a slice denotes in a sequence of length [n]. *)
Definition slice_bound (n : nat) (i : Z) : nat :=
  Z.to_nat (if i <? 0 then Z.max 0 (i + Z.of_nat n) else Z.min i (Z.of_nat n)).

(** [l[a:b]] *)
Definition py_slice {A} (l : list A) (a b : Z) : list A :=
  let n := List.length l in
  firstn (slice_bound n b - slice_bound n a) (skipn (slice_bound n a) l).

(** [s[:b]] and [s[a:]] *)
Definition slice_to (s : string) (b : Z) : string :=
  substring 0 (slice_bound (String.length s) b) s.

Definition slice_from (s : string) (a : Z) : string :=
  substring (slice_bound (String.length s) a)
            (String.length s - slice_bound (String.length s) a) s.

(** [enumerate(l, start=start)] *)
Fixpoint enumerate {A} (l : list A) (start : Z) : list (Z * A) :=
  match l with
  | [] => []
  | x :: r => (start, x) :: enumerate r (start + 1)
  end.

(** [f"{n:>{width}}"] for an [int]. *)
Definition right_aligned (width : nat) (n : Z) : string :=
  repeat_string " " (width - String.length (str_of_int n)) ++ str_of_int n.

(** A [File] object. *)
Record File := mk_File {
  lines : list string;
  line_num_width : nat
}.

(** [File(file, tab_length)]: [file] yields the lines of the source. *)
Definition File_init (file : list string) (tab_length : nat) : File :=
  let lines := map (fun line => replace_tabs tab_length (rstrip line)) file in
  mk_File lines (String.length (str_of_int (Z.of_nat (List.length lines)))).

(** The text [File.parse] hands to the parser: ['\n'.join(self.lines)]. *)
Definition File_text (self : File) : string := join newline (lines self).

(** [File.get_line] *)
Definition get_line (self : File) (line : Z) : res string :=
  py_index (lines self) (line - 1).

(** [File.get_lines] *)
Definition get_lines (self : File) (start end_ : Z) : list string :=
  py_slice (lines self) (start - 1) end_.

(** [f"{Fore.CYAN}{line_num:>{self.line_num_width}} | "]: what stands before
    the text of a rendered line, and its part that takes room on the
    screen. *)
Definition gutter (self : File) (line_num : Z) : string :=
  right_aligned (line_num_width self) line_num ++ " | ".

Definition numbered (self : File) (line_num : Z) (line : string) : string :=
  Fore_CYAN ++ gutter self line_num ++ Style_RESET_ALL ++ line.

(** The body of the loop of [File.display] over a range of several lines:
    the text of the line with the part in the range in red. *)
Definition highlight (start_line start_col end_line end_col line_num : Z)
    (line : string) : string :=
  if line_num =? start_line then
    slice_to line (start_col - 1) ++ Fore_RED ++ slice_from line (start_col - 1)
    ++ Style_RESET_ALL
  else if line_num =? end_line then
    Fore_RED ++ slice_to line (end_col - 1) ++ Style_RESET_ALL
    ++ slice_from line (end_col - 1)
  else Fore_RED ++ line ++ Style_RESET_ALL.

(** The second line of the rendering of a range within one line. *)
Definition underline (self : File) (start_col end_col : Z) : string :=
  repeat_string " " (Z.to_nat (Z.of_nat (line_num_width self) + 2 + start_col))
  ++ Fore_RED ++ repeat_string "^" (Z.to_nat (end_col - start_col))
  ++ Style_RESET_ALL.

(** [File.display] *)
Definition File_display (self : File) (start_line start_col end_line end_col : Z)
    : res string :=
  if start_line =? end_line then
    match get_line self start_line with
    | Ok line =>
        Ok (join newline [numbered self start_line line;
                          underline self start_col end_col])
    | Raise e => Raise e
    | OutOfFuel => OutOfFuel
    | Unmodelled => Unmodelled
    end
  else
    Ok (join newline
          (map (fun nl =>
                  numbered self (fst nl)
                    (highlight start_line start_col end_line end_col (fst nl) (snd nl)))
               (enumerate (get_lines self start_line end_line) start_line))).

(** [while type(first_token) is lark.Tree: first_token = first_token.children[0]] *)
Fixpoint first_token (x : node) : res node :=
  match x with
  | Tree _ [] => Raise IndexError
  | Tree _ (c :: _) => first_token c
  | _ => Ok x
  end.

Section Last_child.
Variable descend : node -> res node.

(** [descend(children[-1])] *)
Fixpoint last_child (children : list node) : res node :=
  match children with
  | [] => Raise IndexError
  | [c] => descend c
  | _ :: r => last_child r
  end.

End Last_child.

(** [while type(last_token) is lark.Tree: last_token = last_token.children[-1]] *)
Fixpoint last_token (x : node) : res node :=
  match x with
  | Tree _ children => last_child last_token children
  | _ => Ok x
  end.

(** [x.line], [x.column], [x.end_line], [x.end_column]: only a [Token] has
    them. *)
Definition get_position (x : node) : res position :=
  match x with Token _ _ p => Ok p | _ => Raise AttributeError end.

Definition res_bind {A B} (r : res A) (k : A -> res B) : res B :=
  match r with
  | Ok a => k a
  | Raise e => Raise e
  | OutOfFuel => OutOfFuel
  | Unmodelled => Unmodelled
  end.

(** [f"{Fore.CYAN}  --> {Fore.BLUE}run.n:{line}:{column}{Style.RESET_ALL}\n"] *)
Definition location_line (p : position) : string :=
  Fore_CYAN ++ "  --> " ++ Fore_BLUE ++ "run.n:" ++ str_of_int (line p) ++ ":"
  ++ str_of_int (column p) ++ Style_RESET_ALL ++ newline.

(** The first line of a rendered diagnostic; any [display_type] other than
    ["error"] and ["warning"] is a [ValueError] (whose message the model
    does not keep). *)
Definition headline (display_type : string) (message : string) : res string :=
  if String.eqb display_type "error" then
    Ok (Fore_RED ++ Style_BRIGHT ++ "Error" ++ Style_RESET_ALL
        ++ ": " ++ message ++ newline)
  else if String.eqb display_type "warning" then
    Ok (Fore_YELLOW ++ Style_BRIGHT ++ "Warning" ++ Style_RESET_ALL
        ++ ": " ++ message ++ newline)
  else Raise ValueError.

(** [TypeCheckError.display] *)
Definition TypeCheckError_display (self : TypeCheckError) (display_type : string)
    (file : File) : res string :=
  res_bind (headline display_type (message self)) (fun output =>
  match datum self with
  | Token _ _ p =>
      res_bind (File_display file (line p) (column p) (end_line p) (end_column p))
        (fun excerpt => Ok (output ++ location_line p ++ excerpt))
  | _ =>
      res_bind (first_token (datum self)) (fun first =>
      res_bind (last_token (datum self)) (fun last =>
      res_bind (get_position first) (fun fp =>
      res_bind (get_position last) (fun lp =>
      res_bind (File_display file (line fp) (column fp) (end_line lp) (end_column lp))
        (fun excerpt => Ok (output ++ location_line fp ++ excerpt))))))
  end).

(** What [type_check] prints:
    ['\n'.join([w.display('warning', file) ...] + [e.display('error', file) ...])] *)
Fixpoint displays (display_type : string) (file : File) (l : list TypeCheckError)
    : res (list string) :=
  match l with
  | [] => Ok []
  | d :: r =>
      res_bind (TypeCheckError_display d display_type file) (fun s =>
      res_bind (displays display_type file r) (fun ss => Ok (s :: ss)))
  end.

Definition render (file : File) (p : printed) : res string :=
  match p with
  | PLine s => Ok s
  | PDiagnostics ws es =>
      res_bind (displays "warning" file ws) (fun w =>
      res_bind (displays "error" file es) (fun e =>
      Ok (join newline (w ++ e)%list)))
  end.

(** The leaves of a tree, from left to right. *)
Fixpoint leaves (x : node) : list node :=
  match x with
  | Tree _ children => flat_map leaves children
  | _ => [x]
  end.

(** The last character of a string. *)
Fixpoint last_char (s : string) : option ascii :=
  match s with
  | EmptyString => None
  | String c EmptyString => Some c
  | String _ r => last_char r
  end.

(** ** Decimal digits *)

(** The value of a number written with its least significant digit first. *)
Fixpoint little_value (d : Decimal.uint) : Z :=
  match d with
  | Decimal.Nil => 0
  | Decimal.D0 r => 10 * little_value r
  | Decimal.D1 r => 1 + 10 * little_value r
  | Decimal.D2 r => 2 + 10 * little_value r
  | Decimal.D3 r => 3 + 10 * little_value r
  | Decimal.D4 r => 4 + 10 * little_value r
  | Decimal.D5 r => 5 + 10 * little_value r
  | Decimal.D6 r => 6 + 10 * little_value r
  | Decimal.D7 r => 7 + 10 * little_value r
  | Decimal.D8 r => 8 + 10 * little_value r
  | Decimal.D9 r => 9 + 10 * little_value r
  end.

(** The last digit written, the most significant one, is not 0. *)
Fixpoint leading_nonzero (d : Decimal.uint) : bool :=
  match d with
  | Decimal.Nil => false
  | Decimal.D0 Decimal.Nil => false
  | Decimal.D0 r | Decimal.D1 r | Decimal.D2 r | Decimal.D3 r | Decimal.D4 r
  | Decimal.D5 r | Decimal.D6 r | Decimal.D7 r | Decimal.D8 r | Decimal.D9 r =>
      match r with
      | Decimal.Nil => true
      | _ => leading_nonzero r
      end
  end.

(** A file of three lines, and tokens in it. *)
Definition example_file : File :=
  File_init ["var x: int = 1 +" ++ newline;
             String tab ("  'a'  " ++ newline);
             "print x"] 4.

Definition token_at (t v : string) (l c el ec : Z) : node :=
  Token t v (mk_position l c el ec).

(** A diagnostic on [1 + 'a'], whose operands stand on lines 1 and 2 of
    [example_file]. *)
Definition example_diagnostic : TypeCheckError :=
  mk_TypeCheckError
    (Tree "sum_expression"
       [Tree "value" [token_at "NUMBER" "1" 1 14 1 15]; token_at "ADD" "+" 1 16 1 17;
        Tree "value" [token_at "STRING" "'a'" 2 7 2 10]])
    "I don't know how to use ADD.".

(** Every completed run of [m] ends in a state that satisfies [Q]. *)
Definition ends {A} (Q : state -> Prop) (m : M A) : Prop :=
  forall st a st', m st = Ok (a, st') -> Q st'.

(** From [st] to [st'] every scope is still there, with the parent and the
    function it was created with. *)
Definition keeps_links (st st' : state) : Prop :=
  forall i s, nth_error (scopes st) i = Some s ->
    exists s', nth_error (scopes st') i = Some s'
               /\ parent s' = parent s /\ parent_function s' = parent_function s.

(** [if c { var x: int = 1 }] as the checker and the evaluator receive it,
    and the call [m.f()] of an imported command. *)
Definition if_x_declare_x : node :=
  instr (Tree "if" [var "x"; declare_x "1"]).

Definition imported_call : node :=
  Tree "imported_command" [tok "NAME" "m"; tok "NAME" "f"].

(** [return 1; print 2], the body of [g] in [g_return_then_print]. *)
Definition return_1 : node := instr (Tree "return" [num "1"]).
Definition print_2 : node := instr (Tree "print" [num "2"]).

(** A diagnostic is about a token or a tree. *)
Definition located (d : TypeCheckError) : bool :=
  match datum d with
  | NoneNode => false
  | _ => true
  end.

Definition diagnostics_located (st : state) : bool :=
  forallb located (errors st) && forallb located (warnings st).

Definition keeps_located (st st' : state) : Prop :=
  diagnostics_located st = true -> diagnostics_located st' = true.
(** ** Fuel: more of it never changes a result *)


Lemma le_M_refl {A} (m : M A) : le_M m m.
Proof. intros st. right. reflexivity. Qed.

Lemma le_M_bottom {A} (m : M A) : le_M out_of_fuel m.
Proof. intros st. left. reflexivity. Qed.

Lemma le_M_bind {A B} (m1 m2 : M A) (k1 k2 : A -> M B) :
  le_M m1 m2 -> (forall a, le_M (k1 a) (k2 a)) -> le_M (bind m1 k1) (bind m2 k2).
Proof.
  intros Hm Hk st. unfold bind.
  destruct (Hm st) as [E | E]; rewrite E.
  - left. reflexivity.
  - destruct (m2 st) as [[a st'] | e | | ]; try (right; reflexivity).
    apply Hk.
Qed.

Lemma le_M_map_M {A B} (f g : A -> M B) (l : list A) :
  (forall x, le_M (f x) (g x)) -> le_M (map_M f l) (map_M g l).
Proof.
  intros Hfg. induction l as [| x r IH]; simpl.
  - apply le_M_refl.
  - apply le_M_bind; [apply Hfg | intros y].
    apply le_M_bind; [apply IH | intros ys]. apply le_M_refl.
Qed.

Lemma le_M_for_until {A} (f g : A -> M (bool * value_)) (l : list A) :
  (forall x, le_M (f x) (g x)) -> le_M (for_until f l) (for_until g l).
Proof.
  intros Hfg. induction l as [| x r IH]; simpl.
  - apply le_M_refl.
  - apply le_M_bind; [apply Hfg | intros ev].
    destruct (fst ev); [apply le_M_refl | apply IH].
Qed.

Ltac fuel_step IHe IHc IHr :=
  cbv beta;
  match goal with
  | |- le_M ?x ?x => apply le_M_refl
  | |- le_M (eval_expr _ _ _) (eval_expr _ _ _) => apply IHe
  | |- le_M (eval_command _ _ _) (eval_command _ _ _) => apply IHc
  | |- le_M (run _ _ _) (run _ _ _) => apply IHr
  | |- le_M (bind _ _) (bind _ _) => apply le_M_bind; [ | intros ? ]
  | |- le_M (map_M _ _) (map_M _ _) => apply le_M_map_M; intros ?
  | |- le_M (for_until _ _) (for_until _ _) => apply le_M_for_until; intros ?
  | |- le_M (if ?b then _ else _) (if ?b then _ else _) => destruct b
  | |- le_M (match ?x with _ => _ end) (match ?x with _ => _ end) => destruct x
  end.

Lemma fuel_mono {H : Host} (n : nat) :
  forall m, (n <= m)%nat ->
    (forall self expr, le_M (eval_expr n self expr) (eval_expr m self expr)) /\
    (forall self tree, le_M (eval_command n self tree) (eval_command m self tree)) /\
    (forall f args, le_M (run n f args) (run m f args)).
Proof.
  induction n as [| n IH]; intros m Hle.
  - repeat split; intros; apply le_M_bottom.
  - destruct m as [| m]; [lia |].
    destruct (IH m ltac:(lia)) as (IHe & IHc & IHr).
    repeat split; intros; simpl; repeat fuel_step IHe IHc IHr.
Qed.

Section Fuel_facts.
Context {H : Host}.

Lemma eval_expr_fuel n m self expr st r :
  (n <= m)%nat -> eval_expr n self expr st = r -> r <> OutOfFuel ->
  eval_expr m self expr st = r.
Proof.
  intros Hle E Hr. destruct (fuel_mono n m Hle) as (He & _ & _).
  destruct (He self expr st) as [E' | E']; congruence.
Qed.

Lemma eval_command_fuel n m self tree st r :
  (n <= m)%nat -> eval_command n self tree st = r -> r <> OutOfFuel ->
  eval_command m self tree st = r.
Proof.
  intros Hle E Hr. destruct (fuel_mono n m Hle) as (_ & Hc & _).
  destruct (Hc self tree st) as [E' | E']; congruence.
Qed.

Lemma run_fuel n m f args st r :
  (n <= m)%nat -> run n f args st = r -> r <> OutOfFuel ->
  run m f args st = r.
Proof.
  intros Hle E Hr. destruct (fuel_mono n m Hle) as (_ & _ & Hf).
  destruct (Hf f args st) as [E' | E']; congruence.
Qed.

Lemma run_body_le n m f args :
  (n <= m)%nat -> le_M (run_body n f args) (run_body m f args).
Proof.
  intros Hle. destruct (fuel_mono n m Hle) as (_ & Hc & _).
  unfold run_body. apply le_M_bind; [apply le_M_refl | intros scope].
  destruct (_ <? _)%nat; [apply le_M_refl |].
  apply le_M_bind; [apply le_M_refl | intros _].
  apply le_M_bind; [apply le_M_refl | intros body].
  apply le_M_bind; [| intros ev; apply le_M_refl].
  apply le_M_for_until. intros x. apply Hc.
Qed.

Lemma run_body_fuel n m f args st r :
  (n <= m)%nat -> run_body n f args st = r -> r <> OutOfFuel ->
  run_body m f args st = r.
Proof.
  intros Hle E Hr. destruct (run_body_le n m f args Hle st) as [E' | E']; congruence.
Qed.

(** [Function.run] is [run_body] followed by the default return. *)
Lemma run_unfold fuel f args st :
  fn_function f = None ->
  run (S fuel) f args st =
  bind (run_body fuel f args)
       (fun se => if fst (snd se) then ret (snd (snd se))
                  else eval_expr fuel (fst se) (fn_defaultreturn f)) st.
Proof.
  intros Hn. simpl. rewrite Hn. unfold run_body, bind.
  destruct (new_scope (fn_scope f) (Some f) st) as [[scope st1] | | |]; try reflexivity.
  destruct (_ <? _)%nat; [reflexivity |].
  destruct (bind_arguments scope args (fn_arguments f) st1) as [[[] st2] | | |];
    try reflexivity.
  destruct (lift (get_children (fn_codeblock f)) st2) as [[body st3] | | |];
    try reflexivity.
  destruct (for_until (eval_command fuel scope) body st3) as [[ev st4] | | |];
    reflexivity.
Qed.

End Fuel_facts.

(** ** The checker only appends diagnostics and only writes its own scope *)

Section Frame.
Variables n self : nat.

Lemma extends_refl st : extends n self st st.
Proof.
  intros _. repeat split; try (exists []; rewrite app_nil_r; reflexivity); lia.
Qed.

Lemma extends_trans st0 st1 st2 :
  extends n self st0 st1 -> extends n self st1 st2 -> extends n self st0 st2.
Proof.
  intros H01 H12 Hn.
  destruct (H01 Hn) as ([es1 E1] & [ws1 W1] & L1 & F1).
  destruct (H12 ltac:(lia)) as ([es2 E2] & [ws2 W2] & L2 & F2).
  repeat split.
  - exists (es1 ++ es2)%list. rewrite E2, E1, app_assoc. reflexivity.
  - exists (ws1 ++ ws2)%list. rewrite W2, W1, app_assoc. reflexivity.
  - lia.
  - intros i Hi Hs. rewrite F2, F1 by assumption. reflexivity.
Qed.

Lemma respects_ret {A} (a : A) : respects (extends n self) (ret a).
Proof. intros st b st' E. injection E as <- <-. apply extends_refl. Qed.

Lemma respects_raise {A} e : respects (extends n self) (@raise A e).
Proof. intros st b st' E. discriminate. Qed.

Lemma respects_lift {A} (r : res A) : respects (extends n self) (lift r).
Proof.
  intros st b st' E. unfold lift in E. destruct r; try discriminate.
  injection E as <- <-. apply extends_refl.
Qed.

Lemma respects_bind {A B} (m : M A) (k : A -> M B) :
  respects (extends n self) m -> (forall a, respects (extends n self) (k a)) ->
  respects (extends n self) (bind m k).
Proof.
  intros Hm Hk st b st' E. unfold bind in E.
  destruct (m st) as [[a s1] | | |] eqn:Em; try discriminate.
  eapply extends_trans; [eapply Hm | eapply Hk]; eassumption.
Qed.

Lemma respects_push_error d msg : respects (extends n self) (push_error d msg).
Proof.
  intros st [] st' E. unfold push_error in E. destruct d; try discriminate;
    injection E as <-; intros _; repeat split; simpl;
    try (eexists; reflexivity); try (exists []; rewrite app_nil_r; reflexivity); lia.
Qed.

Lemma respects_push_warning d msg : respects (extends n self) (push_warning d msg).
Proof.
  intros st [] st' E. unfold push_warning in E. destruct d; try discriminate;
    injection E as <-; intros _; repeat split; simpl;
    try (eexists; reflexivity); try (exists []; rewrite app_nil_r; reflexivity); lia.
Qed.

Lemma respects_get_variable x name err :
  respects (extends n self) (get_variable x name err).
Proof.
  intros st v st' E. unfold get_variable in E.
  destruct (get_variable_walk _ _ _ _) as [[w |] | | |]; try discriminate.
  - injection E as <- <-. apply extends_refl.
  - destruct err; [discriminate |]. injection E as <- <-. apply extends_refl.
Qed.

Lemma respects_get_parent_function x :
  respects (extends n self) (get_parent_function x).
Proof.
  intros st v st' E. unfold get_parent_function in E.
  destruct (get_parent_function_walk _ _ _); try discriminate.
  injection E as <- <-. apply extends_refl.
Qed.

Lemma respects_get_scope x : respects (extends n self) (get_scope x).
Proof.
  intros st v st' E. unfold get_scope in E.
  destruct (nth_error _ _); try discriminate.
  injection E as <- <-. apply extends_refl.
Qed.

Lemma respects_new_Function sc args rt cb dr fn :
  respects (extends n self) (new_Function sc args rt cb dr fn).
Proof.
  intros st f st' E. unfold new_Function in E. injection E as <- <-.
  intros _. repeat split; simpl;
    try (exists []; rewrite app_nil_r; reflexivity); lia.
Qed.

(** A new scope is named by the number of scopes that existed. *)
Lemma respects_new_scope {A} p pf (k : nat -> M A) :
  (forall c, (n <= c)%nat -> respects (extends n self) (k c)) ->
  respects (extends n self) (bind (new_scope p pf) k).
Proof.
  intros Hk st b st' E. unfold bind, new_scope, bind, get_scope in E.
  destruct (nth_error (scopes st) p) as [s |]; try discriminate.
  intros Hn.
  refine (extends_trans _ _ _ _ (Hk _ Hn _ _ _ E) Hn).
  intros _. repeat split; simpl;
    try (exists []; rewrite app_nil_r; reflexivity).
  - rewrite length_app. simpl. lia.
  - intros i Hi _. apply nth_error_app1. lia.
Qed.

Lemma nth_error_list_set_ne {A} (l : list A) i j x :
  i <> j -> nth_error (list_set l j x) i = nth_error l i.
Proof.
  revert i j. induction l as [| y l IH]; intros [| i] [| j] Hne; simpl;
    try reflexivity; try congruence.
  apply IH. congruence.
Qed.

Lemma length_list_set {A} (l : list A) j x :
  List.length (list_set l j x) = List.length l.
Proof.
  revert j. induction l as [| y l IH]; intros [| j]; simpl; try reflexivity.
  rewrite IH. reflexivity.
Qed.

Lemma respects_put_scope x s :
  x = self \/ (n <= x)%nat -> respects (extends n self) (put_scope x s).
Proof.
  intros Hx st [] st' E. unfold put_scope in E. injection E as <-.
  intros _. repeat split; simpl;
    try (exists []; rewrite app_nil_r; reflexivity).
  - rewrite length_list_set. lia.
  - intros i Hi Hs. apply nth_error_list_set_ne. destruct Hx; [congruence | lia].
Qed.

Lemma respects_set_variable x name v :
  x = self \/ (n <= x)%nat -> respects (extends n self) (set_variable x name v).
Proof.
  intros Hx. unfold set_variable.
  apply respects_bind; [apply respects_get_scope | intros s].
  apply respects_put_scope. exact Hx.
Qed.

Lemma respects_add_import x m :
  x = self \/ (n <= x)%nat -> respects (extends n self) (add_import x m).
Proof.
  intros Hx. unfold add_import.
  apply respects_bind; [apply respects_get_scope | intros s].
  apply respects_put_scope. exact Hx.
Qed.

Lemma respects_seed_arguments x args :
  x = self \/ (n <= x)%nat -> respects (extends n self) (seed_arguments x args).
Proof.
  intros Hx. induction args as [| [t a] r IH]; simpl.
  - apply respects_ret.
  - apply respects_bind; [apply respects_set_variable; exact Hx | intros _; exact IH].
Qed.

Lemma respects_with_fresh_sinks {A} (m : M A) :
  respects (extends n self) m -> respects (extends n self) (with_fresh_sinks m).
Proof.
  intros Hm st a st' E. unfold with_fresh_sinks in E.
  destruct (m _) as [[b s1] | | |] eqn:Em; try discriminate.
  injection E as <- <-. intros Hn.
  destruct (Hm _ _ _ Em Hn) as (_ & _ & L & F).
  repeat split; simpl; try (exists []; rewrite app_nil_r; reflexivity); assumption.
Qed.

End Frame.

Lemma node_size_In x l : In x l -> (node_size x <= list_sum (map node_size l))%nat.
Proof.
  induction l as [| y r IH]; cbn [In map list_sum fold_right]; [tauto |].
  intros [-> | Hin]; [lia | specialize (IH Hin); unfold list_sum in IH; lia].
Qed.

Section Frame_of_the_checker.
Variables n self : nat.

Lemma respects_get_value_type x value :
  respects (extends n self) (get_value_type x value).
Proof.
  unfold get_value_type. destruct value as [t v p | |]; try apply respects_raise.
  repeat match goal with
  | |- respects _ (if ?b then _ else _) => destruct b
  | |- respects _ (ret _) => apply respects_ret
  | |- respects _ (bind _ _) => apply respects_bind; [| intros ?]
  | |- respects _ (get_variable _ _ _) => apply respects_get_variable
  | |- respects _ (push_error _ _) => apply respects_push_error
  | |- respects _ (match ?x with _ => _ end) => destruct x
  end.
Qed.

Lemma respects_check_arguments check expr ft k arguments arg_types :
  (forall a, In a arguments -> respects (extends n self) (check a)) ->
  respects (extends n self) (check_arguments check expr ft k arguments arg_types).
Proof.
  revert k arg_types. induction arguments as [| a r IH]; intros k [| t ts] Hc; simpl;
    try apply respects_ret.
  apply respects_bind; [apply Hc; left; reflexivity | intros ct].
  apply respects_bind.
  - destruct ct as [ct |]; [| apply respects_ret].
    destruct (negb _); [apply respects_push_error | apply respects_ret].
  - intros _. apply IH. intros b Hb. apply Hc. right. exact Hb.
Qed.

Lemma respects_check_body check ep warned l :
  (forall c, In c l -> respects (extends n self) (check c)) ->
  respects (extends n self) (check_body check ep warned l).
Proof.
  revert ep warned. induction l as [| c r IH]; intros ep warned Hc; simpl.
  - apply respects_ret.
  - assert (Hr : forall e w, respects (extends n self) (check_body check e w r)).
    { intros e w. apply IH. intros b Hb. apply Hc. right. exact Hb. }
    apply respects_bind; [apply Hc; left; reflexivity | intros exit].
    destruct exit, ep; try apply Hr;
      (destruct (negb warned);
       [apply respects_bind; [apply respects_push_warning | intros _; apply Hr]
       | apply Hr]).
Qed.

Lemma respects_check_loop_body check ep l :
  (forall c, In c l -> respects (extends n self) (check c)) ->
  respects (extends n self) (check_loop_body check ep l).
Proof.
  revert ep. induction l as [| c r IH]; intros ep Hc; simpl.
  - apply respects_ret.
  - apply respects_bind; [apply Hc; left; reflexivity | intros exit].
    apply IH. intros b Hb. apply Hc. right. exact Hb.
Qed.

Lemma respects_for_each {A B} (f : A -> M B) l :
  (forall c, In c l -> respects (extends n self) (f c)) ->
  respects (extends n self) (for_each f l).
Proof.
  induction l as [| c r IH]; intros Hc; simpl.
  - apply respects_ret.
  - apply respects_bind; [apply Hc; left; reflexivity | intros _].
    apply IH. intros b Hb. apply Hc. right. exact Hb.
Qed.

Ltac size_in :=
  repeat match goal with
  | H : In _ _ |- _ => apply node_size_In in H
  end;
  cbn [node_size list_sum map fold_right] in *; unfold list_sum in *; lia.

Ltac frame_step IH :=
  cbv beta iota;
  match goal with
  | |- respects _ (ret _) => apply respects_ret
  | |- respects _ (raise _) => apply respects_raise
  | |- respects _ (lift _) => apply respects_lift
  | |- respects _ (push_error _ _) => apply respects_push_error
  | |- respects _ (push_warning _ _) => apply respects_push_warning
  | |- respects _ (get_variable _ _ _) => apply respects_get_variable
  | |- respects _ (get_parent_function _) => apply respects_get_parent_function
  | |- respects _ (get_scope _) => apply respects_get_scope
  | |- respects _ (new_Function _ _ _ _ _ _) => apply respects_new_Function
  | |- respects _ (get_value_type _ _) => apply respects_get_value_type
  | |- respects _ (with_fresh_sinks _) => apply respects_with_fresh_sinks
  | |- respects _ (set_variable _ _ _) =>
      apply respects_set_variable;
      first [assumption | right; assumption | left; reflexivity]
  | |- respects _ (add_import _ _) =>
      apply respects_add_import;
      first [assumption | right; assumption | left; reflexivity]
  | |- respects _ (seed_arguments _ _) =>
      apply respects_seed_arguments;
      first [assumption | right; assumption | left; reflexivity]
  | |- respects _ (check_arguments _ _ _ _ _ _) =>
      apply respects_check_arguments; intros ? ?
  | |- respects _ (check_body _ _ _ _) => apply respects_check_body; intros ? ?
  | |- respects _ (check_loop_body _ _ _) => apply respects_check_loop_body; intros ? ?
  | |- respects _ (bind (new_scope _ _) _) => apply respects_new_scope; intros ? ?
  | |- respects _ (bind _ _) => apply respects_bind; [| intros ?]
  | |- respects _ (type_check_expr _ _) => IH
  | |- respects _ (type_check_command _ _) => IH
  | |- context [match ?x with _ => _ end] => is_var x; destruct x
  | |- respects _ (if ?b then _ else _) => destruct b
  | |- respects _ (match ?x with _ => _ end) => destruct x
  end.

(** [type_check_expr] writes no scope at all. *)
Lemma respects_type_check_expr expr :
  forall x, respects (extends n self) (type_check_expr x expr).
Proof.
  assert (Hk : forall k e, (node_size e < k)%nat ->
            forall x, respects (extends n self) (type_check_expr x e)).
  { induction k as [| k IH]; intros e Hsz x; [lia |].
    destruct e as [t v p | d children |].
    - exact (respects_get_value_type x (Token t v p)).
    - cbn -[dict_get String.eqb append]. repeat frame_step ltac:(apply IH; size_in).
    - exact (respects_raise n self AttributeError). }
  intros x. apply (Hk (S (node_size expr))). lia.
Qed.

(** [type_check_command] writes the scope it runs in and the scopes it
    creates, no other. *)
Lemma respects_type_check_command {H : Host} tree :
  forall x, x = self \/ (n <= x)%nat ->
    respects (extends n self) (type_check_command x tree).
Proof.
  assert (Hk : forall k t, (node_size t < k)%nat ->
            forall x, x = self \/ (n <= x)%nat ->
              respects (extends n self) (type_check_command x t)).
  { induction k as [| k IH]; intros t Hsz x Hx; [lia |].
    destruct t as [t v p | d children |].
    - exact (respects_raise n self AttributeError).
    - cbn -[dict_get String.eqb append type_check_expr].
      repeat frame_step
        ltac:(first [ apply respects_type_check_expr
                    | apply IH; [size_in | first [assumption | right; assumption]] ]).
    - exact (respects_raise n self AttributeError). }
  intros x. apply (Hk (S (node_size tree))). lia.
Qed.

End Frame_of_the_checker.

(** ** The checker against the evaluator *)

(** C1. The type the checker reports is not always the type of the value
    the evaluator produces. On [not 5] the checker reports [int] and the
    evaluator yields the [bool] [False]; on [2 ^ 3] the checker reports
    [float] and the evaluator yields the [int] [8]; on [4 / 2] the checker
    reports [int] and the evaluator performs Python's true division, whose
    result is a [float]. None of the three checks emits a diagnostic. *)
Theorem C1_checker_and_evaluator_disagree {H : Host} :
  (result_of (type_check_expr 0 not_5 initial_state) = Ok (Some (TStr "int"))
   /\ errors_of (type_check_expr 0 not_5 initial_state) = Ok []
   /\ result_of (eval_expr 3 0 not_5 initial_state) = Ok (VBool false)
   /\ host_type (VBool false) = "bool")
  /\
  (result_of (type_check_expr 0 two_pow_3 initial_state) = Ok (Some (TStr "float"))
   /\ errors_of (type_check_expr 0 two_pow_3 initial_state) = Ok []
   /\ result_of (eval_expr 3 0 two_pow_3 initial_state) = Ok (VInt 8)
   /\ host_type (VInt 8) = "int")
  /\
  (result_of (type_check_expr 0 four_div_2 initial_state) = Ok (Some (TStr "int"))
   /\ errors_of (type_check_expr 0 four_div_2 initial_state) = Ok []
   /\ result_of (eval_expr 3 0 four_div_2 initial_state)
      = res_map VFloat (int_truediv 4 2)
   /\ forall f, host_type (VFloat f) = "float").
Proof.
  repeat split; try reflexivity.
  destruct H as [fs os truediv np fa fc im].
  vm_compute. destruct (truediv 4 2); reflexivity.
Qed.

(** The if-else rule of the checker never looks at its false branch:
    whether an exit point is reported, and the state the check leaves, do
    not depend on it. *)
Lemma ifelse_ignores_false_branch {H : Host} self condition if_true if_false if_false' st :
  res_map (fun p => (is_Some (fst p), snd p))
    (type_check_command self (instr (Tree "ifelse" [condition; if_true; if_false])) st)
  = res_map (fun p => (is_Some (fst p), snd p))
    (type_check_command self (instr (Tree "ifelse" [condition; if_true; if_false'])) st).
Proof.
  unfold instr. simpl. unfold bind.
  destruct (type_check_expr self condition st) as [[ct st1] | | |]; try reflexivity.
  match goal with |- context [match ?m st1 with _ => _ end] =>
    destruct (m st1) as [[[] st2] | | |]; try reflexivity end.
  destruct (type_check_command self if_true st2) as [[e1 st3] | | |]; try reflexivity.
  destruct (type_check_command self if_true st3) as [[e2 st4] | | |]; try reflexivity.
  destruct (is_Some e1 && is_Some e2); reflexivity.
Qed.

(** C2. [type_check_command] checks the true branch of an if-else twice and
    the false branch never. In
    [fun g() -> int { if false return 1 else print 2; print 3 } -> 0]
    the false branch has no exit point, yet the if-else is reported as the
    exit point of the body: the checker warns that [print 3] never runs
    and that the default return never runs, while the evaluator, on
    [print g()], prints 2, 3 and 0. *)
Theorem C2_ifelse_exit_point_from_true_branch_only :
  warnings_of (@type_check example_host g_ifelse_program initial_state)
  = Ok [mk_TypeCheckError ifelse_cmd unreachable_message;
        mk_TypeCheckError ifelse_cmd redundant_return_message]
  /\ errors_of (@type_check example_host g_ifelse_program initial_state) = Ok []
  /\ printed_by (@parse_tree example_host 10 g_ifelse_program initial_state)
     = Ok [PLine "2"; PLine "3"; PLine "0"].
Proof. repeat split; vm_compute; reflexivity. Qed.

(** ** Comparison chains *)

Section Chains.
Context {H : Host}.

Lemma py_compare_bool op a b v :
  py_compare op a b = Ok v -> exists r, v = VBool r.
Proof.
  unfold py_compare, py_eq. intros E.
  repeat match type of E with
  | res_map _ ?x = Ok _ => destruct x; simpl in E
  | Raise _ = Ok _ => discriminate
  | OutOfFuel = Ok _ => discriminate
  | Unmodelled = Ok _ => discriminate
  | Ok _ = Ok _ => injection E as <-; eexists; reflexivity
  | context [match ?x with _ => _ end] => destruct x; simpl in E
  end.
Qed.

(** A comparison yields a [bool]. *)
Lemma compare_expression_bool fuel self children st v st' :
  eval_expr fuel self (Tree "compare_expression" children) st = Ok (v, st') ->
  exists r, v = VBool r.
Proof.
  destruct fuel as [| n]; [discriminate |]. simpl.
  destruct children as [| l [| cmp [| r [| ? ?]]]]; try discriminate.
  destruct l as [? ? ? | ldata lchildren |]; try discriminate.
  assert (Hcont : forall l0 st0,
    bind (lift (get_type cmp))
      (fun ctype => match compare_of_type ctype with
         | Some op => bind (eval_expr n self l0) (fun lv =>
                      bind (eval_expr n self r) (fun rv => lift (py_compare op lv rv)))
         | None => raise (SyntaxError
             ("Unexpected operation for compare_expression: " ++ ctype))
         end) st0 = Ok (v, st') -> exists r0, v = VBool r0).
  { intros l0 st0. unfold bind, lift.
    destruct (get_type cmp) as [ctype | | |]; simpl; try discriminate.
    destruct (compare_of_type ctype) as [op |]; [| discriminate].
    destruct (eval_expr n self l0 st0) as [[lv st1] | | |]; try discriminate.
    destruct (eval_expr n self r st1) as [[rv st2] | | |]; try discriminate.
    destruct (py_compare op lv rv) as [w | | |] eqn:E; simpl; try discriminate.
    intros E'. injection E' as <- _. eapply py_compare_bool; eassumption. }
  destruct (String.eqb ldata "compare_expression").
  - unfold bind at 1.
    destruct (eval_expr n self (Tree ldata lchildren) st) as [[lv st1] | | |];
      try discriminate.
    destruct (negb (truthy lv)).
    + intros E. injection E as <- _. eexists; reflexivity.
    + destruct lchildren as [| ? [| ? [| ? ?]]]; try discriminate. apply Hcont.
  - apply Hcont.
Qed.

(** One step of a chain: the left link, then, unless it is false, the link
    made of its right operand and the next operand. *)
Lemma chain_unfold n self a op1 bdata bchildren op2 c st :
  String.eqb bdata "compare_expression" = false ->
  eval_expr (S n) self
    (Tree "compare_expression"
       [Tree "compare_expression" [a; op1; Tree bdata bchildren]; op2; c]) st
  = bind (eval_expr n self (Tree "compare_expression" [a; op1; Tree bdata bchildren]))
      (fun lv => if negb (truthy lv) then ret (VBool false)
                 else eval_expr (S n) self
                        (Tree "compare_expression" [Tree bdata bchildren; op2; c])) st.
Proof.
  intros Hb. simpl. rewrite Hb. reflexivity.
Qed.

End Chains.

(** C3. A comparison chain [a OP1 b OP2 c], that is
    [compare_expression(compare_expression(a, OP1, b), OP2, c)] with [b] an
    operand (a tree that is not itself a comparison), is evaluated left to
    right with short-circuit: it evaluates to true exactly when [a OP1 b]
    evaluates to true and then [b OP2 c], whose left operand is the right
    operand of the left link, evaluates to true; when [a OP1 b] is false the
    chain is false and [c] is not evaluated. [1 = 2 = 3] type-checks as
    [bool] without a diagnostic and evaluates to false. *)
Theorem C3_comparison_chain {H : Host}
    (self : nat) (a op1 op2 c : node) (bdata : string) (bchildren : list node)
    (st st' : state) :
  String.eqb bdata "compare_expression" = false ->
  let b := Tree bdata bchildren in
  let left_link := Tree "compare_expression" [a; op1; b] in
  let right_link := Tree "compare_expression" [b; op2; c] in
  let chain := Tree "compare_expression" [left_link; op2; c] in
  (evaluates self chain st (VBool true) st' <->
   exists st1, evaluates self left_link st (VBool true) st1 /\
               evaluates self right_link st1 (VBool true) st')
  /\ (evaluates self left_link st (VBool false) st' ->
      evaluates self chain st (VBool false) st')
  /\ result_of (type_check_expr 0 chain_1_2_3 initial_state) = Ok (Some (TStr "bool"))
  /\ errors_of (type_check_expr 0 chain_1_2_3 initial_state) = Ok []
  /\ evaluates 0 chain_1_2_3 initial_state (VBool false) initial_state.
Proof.
  intros Hb. cbv zeta.
  split; [split |].
  - intros [fuel E]. destruct fuel as [| n]; [discriminate |].
    rewrite chain_unfold in E by exact Hb. unfold bind in E.
    destruct (eval_expr n self (Tree "compare_expression" [a; op1; Tree bdata bchildren]) st)
      as [[lv st1] | | |] eqn:El; try discriminate.
    destruct (compare_expression_bool _ _ _ _ _ _ El) as [r ->].
    destruct r; simpl in E; [| discriminate].
    exists st1. split; [exists n; exact El | exists (S n); exact E].
  - intros (st1 & [n1 E1] & [n2 E2]).
    exists (S (Nat.max n1 n2)).
    rewrite chain_unfold by exact Hb. unfold bind.
    rewrite (eval_expr_fuel n1 (Nat.max n1 n2) _ _ _ _ ltac:(lia) E1) by discriminate.
    simpl negb. cbv iota.
    apply (eval_expr_fuel n2 (S (Nat.max n1 n2)) _ _ _ _ ltac:(lia) E2). discriminate.
  - split.
    + intros [n E]. exists (S n).
      rewrite chain_unfold by exact Hb. unfold bind. rewrite E. reflexivity.
    + repeat split; try reflexivity. exists 4%nat. reflexivity.
Qed.

Lemma C3_witness :
  (@evaluates example_host 0
     (Tree "compare_expression"
        [Tree "compare_expression" [num "1"; tok "LESS" "<"; num "2"];
         tok "LESS" "<"; num "3"])
     initial_state (VBool true) initial_state
   <-> exists st1,
         @evaluates example_host 0
           (Tree "compare_expression" [num "1"; tok "LESS" "<"; num "2"])
           initial_state (VBool true) st1
         /\ @evaluates example_host 0
              (Tree "compare_expression" [num "2"; tok "LESS" "<"; num "3"])
              st1 (VBool true) initial_state)
  /\ @evaluates example_host 0
       (Tree "compare_expression"
          [Tree "compare_expression" [num "1"; tok "LESS" "<"; num "2"];
           tok "LESS" "<"; num "3"])
       initial_state (VBool true) initial_state.
Proof.
  split.
  - exact (proj1 (@C3_comparison_chain example_host 0 (num "1") (tok "LESS" "<")
                    (tok "LESS" "<") (num "3") "value" [tok "NUMBER" "2"]
                    initial_state initial_state eq_refl)).
  - exists 4%nat. reflexivity.
Defined.

(** ** Unreachable code *)

Section Reachability.
Variable check : node -> M (option node).

(** While no command has an exit point, the loop over a function body only
    checks the commands in turn. *)
Lemma check_body_no_exit pre rest st exits st1 :
  map_M check pre st = Ok (exits, st1) ->
  Forall (fun e => e = None) exits ->
  check_body check None false (pre ++ rest) st = check_body check None false rest st1.
Proof.
  revert st exits. induction pre as [| x pre IH]; intros st exits Hm Hf; simpl in *.
  - injection Hm as <- <-. reflexivity.
  - unfold bind in *.
    destruct (check x st) as [[e s1] | | |]; try discriminate.
    destruct (map_M check pre s1) as [[es s2] | | |] eqn:Em; try discriminate.
    injection Hm as <- <-. inversion Hf as [| ? ? He Hes]; subst.
    apply (IH s1 es Em Hes).
Qed.

(** Once the warning is out, the loop only checks the commands in turn. *)
Lemma check_body_warned p l st :
  check_body check (Some p) true l st
  = bind (for_each check l) (fun _ => ret (Some p)) st.
Proof.
  revert st. induction l as [| x l IH]; intros st; simpl; [reflexivity |].
  unfold bind in *. destruct (check x st) as [[e s1] | | |]; try reflexivity.
  destruct e; simpl; apply IH.
Qed.

(** The loop from the first command that has an exit point on. *)
Lemma check_body_first_exit r c post p st1 st2 :
  check r st1 = Ok (Some p, st2) ->
  check_body check None false (r :: c :: post) st1
  = bind (check c) (fun _ =>
    bind (push_warning p unreachable_message) (fun _ =>
    bind (for_each check post) (fun _ => ret (Some p)))) st2.
Proof.
  intros Hr. simpl. unfold bind at 1. rewrite Hr. unfold bind.
  destruct (check c st2) as [[e s1] | | |]; try reflexivity.
  assert (E : forall s, check_body check (Some p) true post s
                = match for_each check post s with
                  | Ok (_, s') => Ok (Some p, s')
                  | Raise e0 => Raise e0
                  | OutOfFuel => OutOfFuel
                  | Unmodelled => Unmodelled
                  end).
  { intros s. rewrite check_body_warned. unfold bind, ret.
    destruct (for_each check post s) as [[[] s'] | | |]; reflexivity. }
  destruct e; simpl; destruct (push_warning p unreachable_message s1)
    as [[[] s2] | | |]; try reflexivity; apply E.
Qed.

End Reachability.

(** The exit point of a return command is the command itself. *)
Lemma return_exit_point {H : Host} self children st x st' :
  type_check_command self (instr (Tree "return" children)) st = Ok (x, st') ->
  x = Some (Tree "return" children).
Proof.
  unfold instr. simpl. destruct children as [| e rest]; [discriminate |].
  unfold bind. destruct (type_check_expr self e st) as [[t s1] | | |]; try discriminate.
  destruct (get_parent_function self s1) as [[pf s2] | | |]; try discriminate.
  match goal with |- context [match ?m s2 with _ => _ end] =>
    destruct (m s2) as [[[] s3] | | |]; try discriminate end.
  intros E. injection E as <- _. reflexivity.
Qed.

(** C4, as stated, fails: in
    [fun g() -> int { if true return 1 else return 2; return 3; print 4 }]
    the return command [return 3] is followed by [print 4] in the same
    block, and the single unreachable-code warning points at the if-else
    command before it, not at the return. *)
Lemma C4_counterexample :
  warnings_of (@type_check example_host g_ifelse_return_print initial_state)
  = Ok [mk_TypeCheckError ifelse_both_return unreachable_message]
  /\ ifelse_both_return <> Tree "return" [num "3"].
Proof. split; [reflexivity | discriminate]. Qed.

(** C4, amended. In the body of a function, let a command be the first one
    with an exit point [p], and let at least one command follow it in the
    block. The loop of the checker over the body checks the command that
    follows, appends one unreachable-code warning whose datum is [p], then
    only checks the remaining commands: it appends no warning for them.
    For a return command the exit point is the command itself, so the
    warning points at the return when no earlier command of the block has
    an exit point. [fun g() -> int { return 1; print 2 }] gets exactly one
    warning, at [return 1]. *)
Theorem C4_one_warning_at_first_exit_point {H : Host}
    (scope : nat) (pre post : list node) (r c p : node)
    (st st1 st2 : state) (exits : list (option node)) :
  map_M (type_check_command scope) pre st = Ok (exits, st1) ->
  Forall (fun e => e = None) exits ->
  type_check_command scope r st1 = Ok (Some p, st2) ->
  check_body (type_check_command scope) None false (pre ++ r :: c :: post) st
  = bind (type_check_command scope c) (fun _ =>
    bind (push_warning p unreachable_message) (fun _ =>
    bind (for_each (type_check_command scope) post) (fun _ => ret (Some p)))) st2
  /\ (forall children, r = instr (Tree "return" children) -> p = Tree "return" children)
  /\ warnings_of (type_check g_return_then_print initial_state)
     = Ok [mk_TypeCheckError (Tree "return" [num "1"]) unreachable_message].
Proof.
  intros Hpre Hnone Hr. split; [| split].
  - rewrite (check_body_no_exit _ pre (r :: c :: post) st exits st1 Hpre Hnone).
    apply check_body_first_exit. exact Hr.
  - intros children ->. apply return_exit_point in Hr. injection Hr as <-. reflexivity.
  - destruct H. vm_compute. reflexivity.
Qed.

Lemma C4_witness :
  check_body (@type_check_command example_host 1) None false
    ([instr (Tree "print" [num "0"])]
     ++ instr (Tree "return" [num "1"]) :: instr (Tree "print" [num "2"])
        :: [instr (Tree "print" [num "3"])])
    body_state
  = Ok (Some (Tree "return" [num "1"]),
        mk_state (scopes body_state) 2 []
          [mk_TypeCheckError (Tree "return" [num "1"]) unreachable_message] []).
Proof.
  rewrite (proj1 (@C4_one_warning_at_first_exit_point example_host 1
             [instr (Tree "print" [num "0"])] [instr (Tree "print" [num "3"])]
             (instr (Tree "return" [num "1"])) (instr (Tree "print" [num "2"]))
             (Tree "return" [num "1"]) body_state body_state body_state [None]
             eq_refl (Forall_cons _ eq_refl (Forall_nil _)) eq_refl)).
  reflexivity.
Defined.

(** ** The driver *)

(** C5, as stated, fails: on the program [print 1], which has no error,
    the driver prints the (empty) diagnostics and the evaluator's [1], and
    no line reporting the counts. *)
Lemma C5_counterexample :
  printed_by (@driver example_host 5 print_1_program initial_state)
  = Ok [PDiagnostics [] []; PLine "1"]
  /\ forall error_count warning_count,
       ~ In (PLine (summary_line error_count warning_count))
            [PDiagnostics [] []; PLine "1"].
Proof.
  split; [reflexivity |].
  intros e w [E | [E | []]]; [discriminate |].
  unfold summary_line, Fore_BLUE, ESC in E. simpl in E. discriminate.
Qed.

(** C5, amended. Whatever number of errors the checker collected, the
    driver runs the evaluator from the state the checker left; once the
    evaluator completes, it prints the line reporting the error and warning
    counts when at least one error was collected, and nothing otherwise. *)
Theorem C5_driver_runs_evaluator_then_reports_errors {H : Host}
    (fuel : nat) (tree : node) (st st1 : state) (error_count warning_count : nat) :
  type_check tree st = Ok ((error_count, warning_count), st1) ->
  error_count = List.length (errors st1)
  /\ warning_count = List.length (warnings st1)
  /\ driver fuel tree st
     = bind (parse_tree fuel tree)
         (fun _ => if (0 <? error_count)%nat
                   then print (summary_line error_count warning_count)
                   else ret tt) st1
  /\ forall st2, parse_tree fuel tree st1 = Ok (tt, st2) ->
       printed_by (driver fuel tree st)
       = Ok (stdout st2 ++
             if (0 <? error_count)%nat
             then [PLine (summary_line error_count warning_count)] else [])%list.
Proof.
  intros E.
  assert (Hd : driver fuel tree st
     = bind (parse_tree fuel tree)
         (fun _ => if (0 <? error_count)%nat
                   then print (summary_line error_count warning_count)
                   else ret tt) st1).
  { unfold driver. unfold bind at 1. rewrite E. reflexivity. }
  assert (Hc : error_count = List.length (errors st1)
               /\ warning_count = List.length (warnings st1)).
  { unfold type_check, bind in E.
    destruct (new_scope 0 None st) as [[scope s0] | | |]; try discriminate.
    match type of E with context [match ?m s0 with _ => _ end] =>
      destruct (m s0) as [[[] s1] | | |]; try discriminate end.
    unfold print_diagnostics, count_diagnostics in E. simpl in E.
    injection E as <- <- <-. simpl. split; reflexivity. }
  destruct Hc as [He Hw]. repeat split; try assumption.
  intros st2 Hp. rewrite Hd. unfold bind. rewrite Hp.
  destruct (0 <? error_count)%nat; simpl; [reflexivity |].
  rewrite app_nil_r. reflexivity.
Qed.

Lemma C5_witness :
  printed_by (@driver example_host 5 print_1_program initial_state)
  = Ok [PDiagnostics [] []; PLine "1"].
Proof.
  destruct (@C5_driver_runs_evaluator_then_reports_errors example_host 5
              print_1_program initial_state _ 0%nat 0%nat eq_refl)
    as (_ & _ & _ & Hp).
  rewrite (Hp _ eq_refl). reflexivity.
Defined.

(** ** Loops *)

Section Loops.
Context {H : Host}.

Lemma for_until_ext {A} (f g : A -> M (bool * value_)) l st :
  (forall x s, f x s = g x s) -> for_until f l st = for_until g l st.
Proof.
  intros E. revert st. induction l as [| x l IH]; intros st; simpl; [reflexivity |].
  unfold bind. rewrite E. destruct (g x st) as [[ev s1] | | |]; try reflexivity.
  destruct (fst ev); [reflexivity | apply IH].
Qed.

(** The loop of the evaluator over [range(n)] is the sequence of
    iterations of the specification. *)
Lemma for_until_iterations fuel self name type body l st r st' :
  for_until (iteration fuel self name type body) l st = Ok (r, st')
  <-> exists k, iterations fuel self name type body l st k r st'.
Proof.
  split.
  - revert st. induction l as [| i l IH]; intros st; simpl.
    + intros E. injection E as <- <-. exists 0%nat. constructor.
    + unfold bind.
      destruct (iteration fuel self name type body i st) as [[[e v] s1] | | |] eqn:Ei;
        try discriminate.
      destruct e; simpl.
      * intros E. injection E as <- <-. exists 1%nat. apply iterations_exit. exact Ei.
      * intros E. destruct (IH s1 E) as [k Hk]. exists (S k).
        eapply iterations_next; eassumption.
  - intros [k Hk]. induction Hk as [st | i rest st v st1 Hi | i rest st v st1 k r st2 Hi Hk IH];
      simpl.
    + reflexivity.
    + unfold bind. rewrite Hi. reflexivity.
    + unfold bind. rewrite Hi. simpl. exact IH.
Qed.

Lemma iterations_count fuel self name type body l st k r st' :
  iterations fuel self name type body l st k r st' ->
  (k <= List.length l)%nat /\ (fst r = false -> k = List.length l /\ r = (false, VNone)).
Proof.
  induction 1 as [st | i rest st v st1 Hi | i rest st v st1 k r st2 Hi Hk IH]; simpl.
  - split; [lia | intros _; split; reflexivity].
  - split; [lia | discriminate].
  - destruct IH as [Hle Hf]. split; [lia |].
    intros E. destruct (Hf E) as [-> ->]. split; reflexivity.
Qed.

End Loops.

(** C6, as stated, fails. In the program
    [fun f() -> int { for 3 times as (i: int) { print i; return i } }]
    [print f()], which the checker accepts without a diagnostic, the count
    evaluates to 3 and the body is executed once, not three times: its
    return ends the loop, and the program prints 0 and 0. And when the count
    is not a number token but an expression, here the value tree of the
    literal 2, which evaluates to 2, the loop raises [TypeError]: the
    evaluator applies [int()] to the node instead of evaluating it. *)
Lemma C6_counterexample :
  (result_of (@eval_expr example_host 10 0 (tok "NUMBER" "3") initial_state)
     = Ok (VInt 3)
   /\ printed_by (@driver example_host 10 loop_3_return_program initial_state)
      = Ok [PDiagnostics [] []; PLine "0"; PLine "0"])
  /\
  (result_of (@eval_expr example_host 10 0 (num "2") initial_state) = Ok (VInt 2)
   /\ @eval_command example_host 10 0 loop_tree_count initial_state
      = Raise HostTypeError).
Proof. repeat split; reflexivity. Qed.

(** C6, amended. For a loop command whose count is a token that [int()]
    reads as [n] and whose induction variable is declared [int], the
    evaluator runs the iterations for [i = 0, 1, ..., n-1] in that order,
    each in a fresh child scope of the current scope in which the induction
    variable is bound to [i], and stops at the first iteration in which a
    command returns, with that value; when no iteration returns, the body
    is executed exactly [n] times ([range n] has [n] elements, none when
    [n] is negative). [for 5 times as (i: int) { print i }] prints 0, 1, 2,
    3 and 4, one per line. *)
Theorem C6_loop_iterations {H : Host}
    (fuel self : nat) (ttype text vdata ntype_ name tytype cdata : string)
    (tpos npos typos : position) (body : list node) (n : Z)
    (st : state) (r : bool * value_) (st' : state) :
  int_of_str text = Some n ->
  (eval_command (S fuel) self
     (instr (Tree "loop" [Token ttype text tpos;
                          Tree vdata [Token ntype_ name npos; Token tytype "int" typos];
                          Tree cdata body])) st = Ok (r, st')
   <-> exists k, iterations fuel self name "int" body (range n) st k r st')
  /\ (forall k, iterations fuel self name "int" body (range n) st k r st' ->
        (k <= Z.to_nat n)%nat /\ (fst r = false -> k = Z.to_nat n /\ r = (false, VNone)))
  /\ range 5 = [0; 1; 2; 3; 4]
  /\ printed_by (eval_command 6 0 loop_5_print initial_state)
     = Ok [PLine "0"; PLine "1"; PLine "2"; PLine "3"; PLine "4"].
Proof.
  intros Hn. split; [| split; [| split]].
  - rewrite <- for_until_iterations.
    unfold instr. cbn -[int_of_str range].
    rewrite Hn. unfold bind at 1 2. unfold lift at 1. simpl res_map.
    change (ret tt st) with (Ok (tt, st)). cbv iota. unfold bind at 1, ret at 1.
    rewrite (for_until_ext _ (iteration fuel self name "int" body)); [reflexivity |].
    intros i s. unfold iteration, bind, lift. simpl.
    destruct (new_scope self None s) as [[scope s1] | | |]; try reflexivity.
  - intros k Hk. apply iterations_count in Hk.
    unfold range in Hk. rewrite length_map, length_seq in Hk. exact Hk.
  - reflexivity.
  - destruct H. vm_compute. reflexivity.
Qed.

Lemma C6_witness :
  (exists k, @iterations example_host 5 0 "i" "int" [instr (Tree "print" [var "i"])]
               (range 5) initial_state k
               (false, VNone)
               (mk_state
                  (global_scope ::
                   map (fun i => mk_Scope (Some 0%nat) None []
                                   [("i", mk_Variable (TStr "int") (VInt i))])
                       (range 5))
                  1 [] []
                  [PLine "0"; PLine "1"; PLine "2"; PLine "3"; PLine "4"]))
  /\ int_of_str "5" = Some 5.
Proof.
  split; [| reflexivity].
  apply (proj1 (@C6_loop_iterations example_host 5 0 "NUMBER" "5" "name_type" "NAME"
                  "i" "NAME" "code_block" nopos nopos nopos
                  [instr (Tree "print" [var "i"])] 5 initial_state _ _ eq_refl)).
  reflexivity.
Defined.

(** ** Unknown operands *)

Lemma special_label_false data :
  is_special_label data = false ->
  String.eqb data "ifelse_expr" = false
  /\ String.eqb data "function_callback" = false
  /\ String.eqb data "imported_command" = false
  /\ String.eqb data "value" = false.
Proof.
  unfold is_special_label. intros E.
  apply orb_false_elim in E as [E E4].
  apply orb_false_elim in E as [E E3].
  apply orb_false_elim in E as [E1 E2].
  repeat split; assumption.
Qed.

(** C7. In an expression built with a unary or binary operator of the
    operator tables, an operand whose type is unknown makes the whole
    expression unknown, and the operator rule appends nothing: the state
    after the check is the state the checks of the operands left, so no
    "I don't know how to use ..." diagnostic is emitted for the
    expression. *)
Theorem C7_unknown_operand_propagates
    (self : nat) (data otype otext : string) (opos : position) (st : state) :
  is_special_label data = false ->
  (forall types value st1,
     dict_get unary_operation_types otype = Some types ->
     type_check_expr self value st = Ok (None, st1) ->
     type_check_expr self (Tree data [Token otype otext opos; value]) st
     = Ok (None, st1))
  /\
  (forall types left_ right_ left_type right_type st1 st2,
     dict_get binary_operation_types otype = Some types ->
     type_check_expr self left_ st = Ok (left_type, st1) ->
     type_check_expr self right_ st1 = Ok (right_type, st2) ->
     left_type = None \/ right_type = None ->
     type_check_expr self (Tree data [left_; Token otype otext opos; right_]) st
     = Ok (None, st2)).
Proof.
  intros Hd. destruct (special_label_false data Hd) as (E1 & E2 & E3 & E4).
  split.
  - intros types value st1 Ht Hv.
    cbn -[dict_get]. rewrite E1, E2, E3, E4, Ht. unfold bind. rewrite Hv. reflexivity.
  - intros types left_ right_ left_type right_type st1 st2 Ht Hl Hr Hnone.
    assert (Hthree :
      (match dict_get binary_operation_types otype with
       | Some types0 =>
           bind (type_check_expr self left_) (fun lt =>
           bind (type_check_expr self right_) (fun rt =>
             match lt, rt with
             | Some l, Some r =>
                 match binary_get types0 l r with
                 | None =>
                     bind (push_error
                             (Tree data [left_; Token otype otext opos; right_])
                             ("I don't know how to use " ++ otype ++ " on a "
                              ++ display_type l ++ " and " ++ display_type r ++ "."))
                          (fun _ => ret None)
                 | Some return_type => ret (Some (TStr return_type))
                 end
             | _, _ => ret None
             end))
       | None => ret None
       end) st = Ok (None, st2)).
    { rewrite Ht. unfold bind. rewrite Hl, Hr.
      destruct Hnone as [-> | ->]; [reflexivity |].
      destruct left_type; reflexivity. }
    cbn -[dict_get]. rewrite E1, E2, E3, E4.
    destruct left_ as [lt lv lp | ld lc |]; rewrite Ht; rewrite Ht in Hthree;
      exact Hthree.
Qed.

Lemma C7_witness :
  result_of (type_check_expr 0 negate_x initial_state) = Ok None
  /\ result_of (type_check_expr 0 x_plus_1 initial_state) = Ok None
  /\ errors_of (type_check_expr 0 x_plus_1 initial_state)
     = Ok [mk_TypeCheckError (tok "NAME" "x") "You haven't yet defined x."].
Proof.
  destruct (C7_unknown_operand_propagates 0 "unary_expression" "NEGATE" "-" nopos
              initial_state eq_refl) as [Hu _].
  destruct (C7_unknown_operand_propagates 0 "sum_expression" "ADD" "+" nopos
              initial_state eq_refl) as [_ Hb].
  pose proof (Hu _ (var "x") _ eq_refl eq_refl) as Eu.
  pose proof (Hb _ (var "x") (num "1") _ _ _ _ eq_refl eq_refl eq_refl
                (or_introl eq_refl)) as Eb.
  split; [| split].
  - unfold negate_x, tok. rewrite Eu. reflexivity.
  - unfold x_plus_1, tok. rewrite Eb. reflexivity.
  - unfold x_plus_1, tok. rewrite Eb. reflexivity.
Defined.

(** ** Declarations *)

Lemma dict_get_set_eq {A} (d : dict A) k v : dict_get (dict_set d k v) k = Some v.
Proof.
  induction d as [| [k' v'] r IH]; simpl.
  - rewrite String.eqb_refl. reflexivity.
  - destruct (String.eqb k' k) eqn:E; simpl.
    + rewrite String.eqb_refl. reflexivity.
    + rewrite E. exact IH.
Qed.

Lemma nth_error_list_set_eq {A} (l : list A) i x y :
  nth_error l i = Some y -> nth_error (list_set l i x) i = Some x.
Proof.
  revert i. induction l as [| z l IH]; intros [| i]; simpl; try discriminate.
  - reflexivity.
  - apply IH.
Qed.

(** After [self.variables[name] = v] the scope binds [name] to [v]. *)
Lemma set_variable_binds self name v st s :
  nth_error (scopes st) self = Some s ->
  exists st' s',
    set_variable self name v st = Ok (tt, st')
    /\ errors st' = errors st /\ warnings st' = warnings st
    /\ nth_error (scopes st') self = Some s'
    /\ dict_get (variables s') name = Some v.
Proof.
  intros Hs. unfold set_variable, bind, get_scope, put_scope. rewrite Hs.
  eexists. eexists. split; [reflexivity |]. simpl.
  repeat split.
  - eapply nth_error_list_set_eq. exact Hs.
  - simpl. apply dict_get_set_eq.
Qed.

(** A check of an expression leaves every scope as it was. *)
Lemma type_check_expr_scopes x expr st t st' i :
  type_check_expr x expr st = Ok (t, st') ->
  (i < List.length (scopes st))%nat ->
  nth_error (scopes st') i = nth_error (scopes st) i
  /\ exists es, errors st' = (errors st ++ es)%list.
Proof.
  intros E Hi.
  destruct (respects_type_check_expr (List.length (scopes st)) (List.length (scopes st))
              expr x st t st' E (le_n _)) as (Hes & _ & _ & F).
  split; [apply F; lia | exact Hes].
Qed.

Lemma push_error_ok d msg st :
  d <> NoneNode ->
  push_error d msg st = Ok (tt, with_errors st [mk_TypeCheckError d msg]).
Proof. intros Hd. destruct d; try reflexivity. congruence. Qed.

Lemma type_check_expr_not_None x expr st t st' :
  type_check_expr x expr st = Ok (t, st') -> expr <> NoneNode.
Proof. intros E ->. discriminate. Qed.

(** The rule of a declaration, once its shape is read: the duplicate
    check, then the value, the comparison with the declared type, and the
    insertion. *)
Lemma declare_unfold {H : Host} self ntd nty n np tty t tp value st s :
  nth_error (scopes st) self = Some s ->
  type_check_command self
    (instr (Tree "declare" [Tree ntd [Token nty n np; Token tty t tp]; value])) st
  = bind (type_check_expr self value) (fun value_type =>
    bind (match value_type with
          | Some vt =>
              if negb (ntype_eqb vt (TStr t))
              then push_error value
                     ("You set " ++ n ++ ", which is defined to be a "
                      ++ display_type (TStr t) ++ ", to what evaluates to a "
                      ++ display_type vt ++ ".")
              else ret tt
          | None => ret tt
          end) (fun _ =>
    bind (set_variable self n (mk_Variable (TStr t) (VStr "whatever"))) (fun _ =>
    ret None)))
    (if dict_in (variables s) n
     then with_errors st [duplicate_error (Token nty n np) n] else st).
Proof.
  intros Hs. unfold instr. cbn -[type_check_expr append dict_in].
  unfold with_errors, duplicate_error.
  unfold bind at 1. unfold get_scope. rewrite Hs.
  destruct (dict_in (variables s) n); unfold bind, lift, push_error at 1, ret at 1;
    cbn [res_map];
    match goal with |- context [type_check_expr self value ?x] =>
      destruct (type_check_expr self value x) as [[vt s1] | | |]; reflexivity
    end.
Qed.

(** What the rule of a declaration does from the state [st1] in which the
    value is checked. *)
Lemma declare_from {H : Host} self n t value st1 s value_type st2 :
  nth_error (scopes st1) self = Some s ->
  type_check_expr self value st1 = Ok (value_type, st2) ->
  exists st3 s3,
    bind (type_check_expr self value) (fun value_type =>
    bind (match value_type with
          | Some vt =>
              if negb (ntype_eqb vt (TStr t))
              then push_error value
                     ("You set " ++ n ++ ", which is defined to be a "
                      ++ display_type (TStr t) ++ ", to what evaluates to a "
                      ++ display_type vt ++ ".")
              else ret tt
          | None => ret tt
          end) (fun _ =>
    bind (set_variable self n (mk_Variable (TStr t) (VStr "whatever"))) (fun _ =>
    ret (@None node)))) st1 = Ok (None, st3)
    /\ errors st3 = (errors st2 ++ declare_mismatch value n t value_type)%list
    /\ (exists es, errors st2 = (errors st1 ++ es)%list)
    /\ nth_error (scopes st3) self = Some s3
    /\ dict_get (variables s3) n = Some (mk_Variable (TStr t) (VStr "whatever")).
Proof.
  intros Hs Hv.
  assert (Hi : (self < List.length (scopes st1))%nat)
    by (apply nth_error_Some; congruence).
  destruct (type_check_expr_scopes _ _ _ _ _ self Hv Hi) as [Hsc Hes].
  pose proof (type_check_expr_not_None _ _ _ _ _ Hv) as Hnn.
  unfold bind at 1. rewrite Hv.
  assert (Hm : exists st2', 
    (match value_type with
     | Some vt =>
         if negb (ntype_eqb vt (TStr t))
         then push_error value
                ("You set " ++ n ++ ", which is defined to be a "
                 ++ display_type (TStr t) ++ ", to what evaluates to a "
                 ++ display_type vt ++ ".")
         else ret tt
     | None => ret tt
     end) st2 = Ok (tt, st2')
    /\ scopes st2' = scopes st2
    /\ errors st2' = (errors st2 ++ declare_mismatch value n t value_type)%list).
  { unfold declare_mismatch. destruct value_type as [vt |].
    - destruct (negb (ntype_eqb vt (TStr t))).
      + rewrite push_error_ok by exact Hnn. eexists. repeat split.
      + exists st2. rewrite app_nil_r. repeat split.
    - exists st2. rewrite app_nil_r. repeat split. }
  destruct Hm as (st2' & Em & Hsc' & Her').
  unfold bind at 1. rewrite Em.
  assert (Hs2 : nth_error (scopes st2') self = Some s) by (rewrite Hsc', Hsc; exact Hs).
  destruct (set_variable_binds self n (mk_Variable (TStr t) (VStr "whatever")) st2' s Hs2)
    as (st3 & s3 & Es & He3 & _ & Hn3 & Hd3).
  unfold bind. rewrite Es. exists st3, s3.
  repeat split; try assumption. rewrite He3. exact Her'.
Qed.

Lemma with_errors_nil st : with_errors st [] = st.
Proof. destruct st. unfold with_errors. simpl. rewrite app_nil_r. reflexivity. Qed.

Lemma seed_arguments_ok c args st :
  (c < List.length (scopes st))%nat ->
  exists st',
    seed_arguments c args st = Ok (tt, st')
    /\ errors st' = errors st /\ warnings st' = warnings st
    /\ List.length (scopes st') = List.length (scopes st)
    /\ forall i, i <> c -> nth_error (scopes st') i = nth_error (scopes st) i.
Proof.
  revert st. induction args as [| [t a] r IH]; intros st Hc; simpl.
  - exists st. repeat split.
  - destruct (nth_error (scopes st) c) as [s |] eqn:Hs;
      [| apply nth_error_None in Hs; lia].
    unfold bind at 1. unfold set_variable, bind, get_scope, put_scope. rewrite Hs.
    match goal with |- context [seed_arguments c r ?s1] =>
      destruct (IH s1) as (st' & E & He & Hw & Hl & Hf) end.
    { simpl. rewrite length_list_set. exact Hc. }
    exists st'. rewrite E. simpl in *. rewrite length_list_set in Hl.
    repeat split; try assumption.
    intros i Hi. rewrite Hf by exact Hi. apply nth_error_list_set_ne. exact Hi.
Qed.

(** The rule of a function definition up to the body: the diagnostics it
    appends are the mismatch of the default return, if any, and the
    duplicate definition, if the name is bound in this very scope; it then
    binds the name to the new function and checks the body in a fresh child
    scope. *)
Lemma function_def_proceeds {H : Host}
    self dd nty n np arguments args rty rt rp cd body d st s dt st_a :
  nth_error (scopes st) self = Some s ->
  argument_pairs arguments = Ok args ->
  (if node_truthy d then type_check_expr self d else ret None) st = Ok (dt, st_a) ->
  exists f scope st_c s_c,
    type_check_command self
      (function_def_cmd (Tree dd (Token nty n np :: arguments)) (Token rty rt rp)
         (Tree cd body) d) st
    = bind (check_body (type_check_command scope) None false body) (after_body d) st_c
    /\ errors st_c
       = (errors st_a ++ default_mismatch d n rt dt
          ++ (if dict_in (variables s) n
              then [duplicate_error (Token nty n np) n] else []))%list
    /\ warnings st_c = warnings st_a
    /\ nth_error (scopes st_c) self = Some s_c
    /\ dict_get (variables s_c) n = Some (Function_variable f)
    /\ fn_returntype f = rt /\ fn_codeblock f = Tree cd body /\ fn_defaultreturn f = d
    /\ scope = List.length (scopes st_a)
    /\ List.length (scopes st_c) = S scope.
Proof.
  intros Hs Ha Hd.
  assert (Hself : (self < List.length (scopes st))%nat)
    by (apply nth_error_Some; congruence).
  (* the default return is checked before anything is written *)
  assert (Hsa : nth_error (scopes st_a) self = Some s).
  { destruct (node_truthy d).
    - destruct (type_check_expr_scopes _ _ _ _ _ self Hd Hself) as [-> _]. exact Hs.
    - injection Hd as _ <-. exact Hs. }
  assert (Hm : (match dt with
      | Some t =>
          if negb (ntype_eqb t (TStr rt))
          then push_error d
                 (n ++ "'s return type is " ++ (Fore_YELLOW ++ rt ++ Style_RESET_ALL)
                  ++ ", but your default return value is a " ++ display_type t ++ ".")
          else ret tt
      | None => ret tt
      end) st_a = Ok (tt, with_errors st_a (default_mismatch d n rt dt))).
  { unfold default_mismatch. destruct dt as [t |].
    - destruct (negb (ntype_eqb t (TStr rt))).
      + apply push_error_ok. intros ->. simpl in Hd. discriminate.
      + rewrite with_errors_nil. reflexivity.
    - rewrite with_errors_nil. reflexivity. }
  set (st_m := with_errors st_a (default_mismatch d n rt dt)) in *.
  assert (Hdup : (if dict_in (variables s) n
                  then push_error (Token nty n np) (already_defined_message n)
                  else ret tt) st_m
                 = Ok (tt, with_errors st_m
                             (if dict_in (variables s) n
                              then [duplicate_error (Token nty n np) n] else []))).
  { destruct (dict_in (variables s) n); [reflexivity |].
    rewrite with_errors_nil. reflexivity. }
  set (st_d := with_errors st_m
                 (if dict_in (variables s) n
                  then [duplicate_error (Token nty n np) n] else [])) in *.
  set (f := mk_Function (next_function st_d) (map snd args ++ [rt]) self
              (map (fun a => (snd a, fst a)) args) rt (Tree cd body) d None).
  set (s_c := mk_Scope (parent s) (parent_function s) (imports s)
                (dict_set (variables s) n (Function_variable f))).
  set (st_f := mk_state (list_set (scopes st_d) self s_c) (S (next_function st_d))
                 (errors st_d) (warnings st_d) (stdout st_d)).
  set (scope := List.length (scopes st_f)).
  set (st_n := mk_state (scopes st_f ++ [empty_scope (Some self) (Some f)])
                 (next_function st_f) (errors st_f) (warnings st_f) (stdout st_f)).
  assert (Hsf : nth_error (scopes st_f) self = Some s_c).
  { simpl. eapply nth_error_list_set_eq. exact Hsa. }
  destruct (seed_arguments_ok scope (fn_arguments f) st_n) as (st_c & Es & He & Hw & Hl & Hf).
  { simpl. rewrite length_app. simpl. unfold scope. simpl. lia. }
  assert (Hlen : scope = List.length (scopes st_a)).
  { unfold scope. simpl. apply length_list_set. }
  exists f, scope, st_c, s_c.
  split; [| repeat split].
  - assert (Hchain :
      (bind (lift (argument_pairs arguments)) (fun arguments0 =>
       bind (if node_truthy d then type_check_expr self d else ret None)
            (fun default_return_type =>
       bind (lift (Ok n)) (fun n0 =>
       bind (lift (Ok rt)) (fun rt0 =>
       bind (match default_return_type with
             | Some t =>
                 if negb (ntype_eqb t (TStr rt0))
                 then push_error d
                        (n0 ++ "'s return type is "
                         ++ (Fore_YELLOW ++ rt0 ++ Style_RESET_ALL)
                         ++ ", but your default return value is a "
                         ++ display_type t ++ ".")
                 else ret tt
             | None => ret tt
             end) (fun _ =>
       bind (get_scope self) (fun s0 =>
       bind (if dict_in (variables s0) n0
             then push_error (Token nty n np) (already_defined_message n0)
             else ret tt) (fun _ =>
       bind (new_Function self arguments0 rt0 (Tree cd body) d None) (fun function =>
       bind (set_variable self n0 (Function_variable function)) (fun _ =>
       bind (new_scope self (Some function)) (fun scope0 =>
       bind (seed_arguments scope0 (fn_arguments function)) (fun _ =>
       bind (check_body (type_check_command scope0) None false body)
            (after_body d))))))))))))) st
      = bind (check_body (type_check_command scope) None false body) (after_body d) st_c).
    { unfold bind at 1. unfold lift at 1. rewrite Ha. cbn [res_map].
      unfold bind at 1. rewrite Hd.
      unfold bind at 1. unfold lift at 1. cbn [res_map].
      unfold bind at 1. unfold lift at 1. cbn [res_map].
      unfold bind at 1. rewrite Hm.
      unfold bind at 1. unfold get_scope at 1.
      change (scopes st_m) with (scopes st_a). rewrite Hsa.
      unfold bind at 1. rewrite Hdup.
      unfold bind at 1. unfold new_Function at 1.
      unfold bind at 1. unfold set_variable at 1, bind at 1, get_scope at 1.
      cbn [scopes]. change (scopes st_d) with (scopes st_a). rewrite Hsa.
      unfold put_scope at 1. cbn [scopes next_function errors warnings stdout].
      fold f. change (mk_Scope (parent s) (parent_function s) (imports s)
                        (dict_set (variables s) n (Function_variable f))) with s_c.
      change (scopes st_a) with (scopes st_d). fold st_f.
      unfold bind at 1. unfold new_scope at 1, bind at 1, get_scope at 1.
      rewrite Hsf. fold scope. fold st_n.
      unfold bind at 1. rewrite Es. reflexivity. }
    rewrite <- Hchain. clear.
    unfold function_def_cmd, instr.
    destruct d; cbn -[type_check_expr append dict_in node_truthy]; reflexivity.
  - rewrite He. simpl. unfold st_m. simpl. rewrite <- !app_assoc. reflexivity.
  - rewrite Hw. reflexivity.
  - assert (Hlt : (self < List.length (scopes st_f))%nat)
      by (apply nth_error_Some; congruence).
    rewrite Hf by (unfold scope; lia).
    unfold st_n. cbn [scopes]. rewrite nth_error_app1 by exact Hlt. exact Hsf.
  - simpl. apply dict_get_set_eq.
  - exact Hlen.
  - rewrite Hl. unfold st_n. cbn [scopes]. rewrite length_app.
    cbn [List.length]. unfold scope. lia.
Qed.

(** After the body, the scope of the definition still binds what it bound
    when the body was entered, and the sinks only grew. *)
Lemma function_def_after_body {H : Host} self scope body d st_c x st' :
  (self < scope)%nat -> List.length (scopes st_c) = S scope ->
  bind (check_body (type_check_command scope) None false body) (after_body d) st_c
  = Ok (x, st') ->
  x = None
  /\ (exists es, errors st' = (errors st_c ++ es)%list)
  /\ nth_error (scopes st') self = nth_error (scopes st_c) self.
Proof.
  intros Hlt Hlen E.
  assert (Hx : x = None).
  { unfold bind in E.
    destruct (check_body _ _ _ _ st_c) as [[ep s1] | | |]; try discriminate.
    unfold after_body in E. destruct ep as [p |].
    - destruct (node_truthy d).
      + unfold bind in E. destruct (push_warning _ _ s1) as [[[] s2] | | |];
          try discriminate. injection E as <- _. reflexivity.
      + injection E as <- _. reflexivity.
    - injection E as <- _. reflexivity. }
  assert (R : respects (extends (S scope) scope)
                (bind (check_body (type_check_command scope) None false body)
                      (after_body d))).
  { apply respects_bind.
    - apply respects_check_body. intros c _.
      apply respects_type_check_command. left. reflexivity.
    - intros [p |]; unfold after_body.
      + destruct (node_truthy d).
        * apply respects_bind; [apply respects_push_warning | intros _; apply respects_ret].
        * apply respects_ret.
      + apply respects_ret. }
  destruct (R _ _ _ E ltac:(lia)) as (Hes & _ & _ & F).
  repeat split; [exact Hx | exact Hes | apply F; lia].
Qed.

(** C8. A declaration of a variable or of a function whose name is already
    bound in the scope it is checked in gets the diagnostic "You've already
    defined ..." at the name, and the check goes on: for a variable, once
    the value is checked the command completes and the scope binds the name
    to the new variable; for a function, the name is bound to the new
    function, the body is checked in a fresh child scope, and when that
    check completes the scope still binds the name to the new function.
    When the name is not bound in the scope itself, whatever the enclosing
    scopes bind, no such diagnostic is appended: the rule appends at most
    the diagnostic of a value or default return of the wrong type. *)
Theorem C8_duplicate_declaration {H : Host}
    (self : nat) (nty n : string) (np : position) (st : state) (s : Scope) :
  nth_error (scopes st) self = Some s ->
  let name := Token nty n np in
  let duplicate :=
    if dict_in (variables s) n then [duplicate_error name n] else [] in
  (forall ntd tty t tp value value_type st2,
     type_check_expr self value (with_errors st duplicate) = Ok (value_type, st2) ->
     exists st3 s3,
       type_check_command self
         (instr (Tree "declare" [Tree ntd [name; Token tty t tp]; value])) st
       = Ok (None, st3)
       /\ (exists es, errors st2 = (errors st ++ duplicate ++ es)%list)
       /\ errors st3 = (errors st2 ++ declare_mismatch value n t value_type)%list
       /\ nth_error (scopes st3) self = Some s3
       /\ dict_get (variables s3) n = Some (mk_Variable (TStr t) (VStr "whatever")))
  /\
  (forall dd arguments args rty rt rp cd body d dt st_a,
     argument_pairs arguments = Ok args ->
     (if node_truthy d then type_check_expr self d else ret None) st = Ok (dt, st_a) ->
     exists f scope st_c,
       type_check_command self
         (function_def_cmd (Tree dd (name :: arguments)) (Token rty rt rp)
            (Tree cd body) d) st
       = bind (check_body (type_check_command scope) None false body) (after_body d) st_c
       /\ errors st_c = (errors st_a ++ default_mismatch d n rt dt ++ duplicate)%list
       /\ fn_returntype f = rt /\ fn_codeblock f = Tree cd body
       /\ (exists s_c, nth_error (scopes st_c) self = Some s_c
                       /\ dict_get (variables s_c) n = Some (Function_variable f))
       /\ forall x st',
            type_check_command self
              (function_def_cmd (Tree dd (name :: arguments)) (Token rty rt rp)
                 (Tree cd body) d) st = Ok (x, st') ->
            x = None
            /\ (exists es, errors st' = (errors st_c ++ es)%list)
            /\ exists s', nth_error (scopes st') self = Some s'
                          /\ dict_get (variables s') n = Some (Function_variable f)).
Proof.
  intros Hs name duplicate. split.
  - intros ntd tty t tp value value_type st2 Hv.
    assert (Hst1 : (if dict_in (variables s) n
                    then with_errors st [duplicate_error name n] else st)
                   = with_errors st duplicate).
    { unfold duplicate. destruct (dict_in (variables s) n); [reflexivity |].
      symmetry. apply with_errors_nil. }
    unfold name. rewrite (declare_unfold self ntd nty n np tty t tp value st s Hs).
    fold name. rewrite Hst1.
    destruct (declare_from self n t value (with_errors st duplicate) s value_type st2
                Hs Hv) as (st3 & s3 & E & He3 & [es Hes] & Hn & Hb).
    exists st3, s3. repeat split; try assumption.
    exists es. rewrite Hes. simpl. rewrite app_assoc. reflexivity.
  - intros dd arguments args rty rt rp cd body d dt st_a Ha Hd.
    destruct (function_def_proceeds self dd nty n np arguments args rty rt rp cd body d
                st s dt st_a Hs Ha Hd)
      as (f & scope & st_c & s_c & E & He & _ & Hn & Hb & Hrt & Hcb & _ & Hsc & Hlen).
    exists f, scope, st_c. fold name in E.
    assert (Hlt : (self < scope)%nat).
    { subst scope.
      assert (Hsa : (self < List.length (scopes st))%nat)
        by (apply nth_error_Some; congruence).
      destruct (node_truthy d).
      - destruct (respects_type_check_expr (List.length (scopes st))
                    (List.length (scopes st)) d self st dt st_a Hd (le_n _))
          as (_ & _ & L & _). lia.
      - injection Hd as _ <-. lia. }
    repeat split; try assumption.
    + exists s_c. split; assumption.
    + rewrite E in H0.
      destruct (function_def_after_body self scope body d st_c x st' Hlt Hlen H0)
        as (Hx & _ & _). exact Hx.
    + rewrite E in H0.
      destruct (function_def_after_body self scope body d st_c x st' Hlt Hlen H0)
        as (_ & Hes & _). exact Hes.
    + rewrite E in H0.
      destruct (function_def_after_body self scope body d st_c x st' Hlt Hlen H0)
        as (_ & _ & Hsame).
      exists s_c. rewrite Hsame. split; assumption.
Qed.

Lemma C8_witness :
  errors_of (@type_check_command example_host 0 (declare_x "2") shadow_state)
  = Ok [duplicate_error (tok "NAME" "x") "x"]
  /\ errors_of (@type_check_command example_host 1 (declare_x "2") shadow_state)
     = Ok [].
Proof.
  split.
  - destruct (@C8_duplicate_declaration example_host 0 "NAME" "x" nopos shadow_state
                _ eq_refl) as [Hdecl _].
    destruct (Hdecl "name_type" "NAME" "int" nopos (num "2") _ _ eq_refl)
      as (st3 & s3 & E & _ & He & _ & _).
    unfold declare_x, name_type, tok. rewrite E. unfold errors_of. simpl res_map.
    rewrite He. reflexivity.
  - destruct (@C8_duplicate_declaration example_host 1 "NAME" "x" nopos shadow_state
                _ eq_refl) as [Hdecl _].
    destruct (Hdecl "name_type" "NAME" "int" nopos (num "2") _ _ eq_refl)
      as (st3 & s3 & E & _ & He & _ & _).
    unfold declare_x, name_type, tok. rewrite E. unfold errors_of. simpl res_map.
    rewrite He. reflexivity.
Defined.

(** Declaring [x] twice, as a variable or as a function, is reported once
    and the check completes. *)
Example declare_twice_reported :
  errors_of (@type_check example_host declare_twice_program initial_state)
  = Ok [duplicate_error (tok "NAME" "x") "x"]
  /\ errors_of (@type_check example_host define_twice_program initial_state)
     = Ok [duplicate_error (tok "NAME" "x") "x"].
Proof. split; reflexivity. Qed.

(** ** Calls: [Function.run] *)

Section Calls.
Context {H : Host}.

Lemma bind_arguments_firstn scope (arguments : list value_) declared :
  bind_arguments scope arguments declared =
  bind_arguments scope (firstn (List.length declared) arguments) declared.
Proof.
  revert declared. induction arguments as [| v vs IH]; intros [| [t n] ds]; simpl;
    try reflexivity.
  rewrite <- IH. reflexivity.
Qed.

Lemma run_body_firstn fuel f (arguments : list value_) st :
  (List.length (fn_arguments f) <= List.length arguments)%nat ->
  run_body fuel f arguments st =
  run_body fuel f (firstn (List.length (fn_arguments f)) arguments) st.
Proof.
  intros Hle. unfold run_body, bind.
  destruct (new_scope (fn_scope f) (Some f) st) as [[scope st1] | | |]; try reflexivity.
  rewrite length_firstn, Nat.min_l by exact Hle.
  rewrite Nat.ltb_irrefl.
  replace (List.length arguments <? List.length (fn_arguments f))%nat with false
    by (symmetry; apply Nat.ltb_ge; exact Hle).
  rewrite <- bind_arguments_firstn. reflexivity.
Qed.

(** The scope of a call exists as soon as the defining scope does. *)
Lemma new_scope_ok self pf st s :
  nth_error (scopes st) self = Some s ->
  exists st', new_scope self pf st = Ok (List.length (scopes st), st').
Proof.
  intros Hs. unfold new_scope, bind, get_scope. rewrite Hs. eexists. reflexivity.
Qed.

End Calls.

(** C9. A call of a user-defined function that has no default-return
    expression and whose body runs to its end without executing a return
    produces no value: [Function.run] hands [None] to [eval_expr], which
    raises [AttributeError]. The call yields a value for no amount of fuel,
    and raises as soon as the fuel suffices for the body. *)
Theorem C9_no_default_return_raises {H : Host}
    (f : Function) (arguments : list value_) (st : state)
    (fuel0 scope : nat) (v0 : value_) (st1 : state) :
  fn_function f = None ->
  fn_defaultreturn f = NoneNode ->
  run_body fuel0 f arguments st = Ok ((scope, (false, v0)), st1) ->
  (forall fuel v st', run fuel f arguments st <> Ok (v, st')) /\
  (forall fuel, (fuel0 <= fuel)%nat ->
     run (S (S fuel)) f arguments st = Raise AttributeError).
Proof.
  intros Hn Hd Hb.
  assert (Hraise : forall fuel, (fuel0 <= fuel)%nat ->
            run (S (S fuel)) f arguments st = Raise AttributeError).
  { intros fuel Hle. rewrite run_unfold by exact Hn. unfold bind.
    rewrite (run_body_fuel fuel0 (S fuel) f arguments st _ ltac:(lia) Hb)
      by discriminate.
    simpl. rewrite Hd. reflexivity. }
  split; [| exact Hraise].
  intros fuel v st' Hok.
  pose proof (Hraise (Nat.max fuel fuel0) ltac:(lia)) as Hr.
  rewrite (run_fuel fuel (S (S (Nat.max fuel fuel0))) f arguments st _
             ltac:(lia) Hok) in Hr by discriminate.
  discriminate.
Qed.

Lemma C9_witness :
  (forall fuel v st', @run example_host fuel h_no_return [] initial_state <> Ok (v, st'))
  /\ (forall fuel, (3 <= fuel)%nat ->
        @run example_host (S (S fuel)) h_no_return [] initial_state
        = Raise AttributeError).
Proof.
  eapply (@C9_no_default_return_raises example_host h_no_return [] initial_state 3);
    reflexivity.
Defined.

(** C10. At evaluation time a call with fewer arguments than declared
    parameters raises [TypeError] with the message
    [Missing arguments] followed by the names of the parameters left
    unbound; a call with more arguments raises nothing for them: the loop
    over [zip(arguments, self.arguments)] drops the extra values, so the
    call is the call with exactly the declared number of arguments. *)
Theorem C10_argument_count {H : Host}
    (fuel : nat) (f : Function) (arguments : list value_) (st : state) (s : Scope) :
  fn_function f = None ->
  nth_error (scopes st) (fn_scope f) = Some s ->
  ((List.length arguments < List.length (fn_arguments f))%nat ->
     run (S fuel) f arguments st =
     Raise (TypeError ("Missing arguments " ++
       join ", " (map snd (skipn (List.length arguments) (fn_arguments f))))))
  /\
  ((List.length (fn_arguments f) < List.length arguments)%nat ->
     run (S fuel) f arguments st =
     run (S fuel) f (firstn (List.length (fn_arguments f)) arguments) st).
Proof.
  intros Hn Hs. split; intros Hlen.
  - rewrite run_unfold by exact Hn. unfold bind, run_body, bind.
    destruct (new_scope_ok (fn_scope f) (Some f) st s Hs) as [st' E]. rewrite E.
    apply Nat.ltb_lt in Hlen. rewrite Hlen. reflexivity.
  - rewrite !run_unfold by exact Hn. unfold bind.
    rewrite <- run_body_firstn by lia. reflexivity.
Qed.

Lemma C10_witness :
  @run example_host 5 f_add [VInt 2] initial_state
    = Raise (TypeError "Missing arguments b")
  /\ result_of (@run example_host 5 f_add [VInt 2; VInt 3; VInt 9] initial_state)
     = Ok (VInt 5).
Proof.
  split.
  - apply (proj1 (@C10_argument_count example_host 4 f_add [VInt 2] initial_state
                    global_scope eq_refl eq_refl)).
    simpl. lia.
  - rewrite (proj2 (@C10_argument_count example_host 4 f_add [VInt 2; VInt 3; VInt 9]
                      initial_state global_scope eq_refl eq_refl)).
    + reflexivity.
    + simpl. lia.
Defined.

(** ** The scenarios of the specification *)

Example scenario_1_prints_3 :
  printed_by (@driver example_host 10 scenario_1 initial_state)
  = Ok [PDiagnostics [] []; PLine "3"].
Proof. reflexivity. Qed.

Example scenario_2_one_error :
  res_map (map datum) (errors_of (@type_check example_host scenario_2 initial_state))
  = Ok [a_plus_b]
  /\ warnings_of (@type_check example_host scenario_2 initial_state) = Ok [].
Proof. split; reflexivity. Qed.

Example scenario_3_prints_5 :
  printed_by (@driver example_host 10 scenario_3 initial_state)
  = Ok [PDiagnostics [] []; PLine "5"].
Proof. reflexivity. Qed.

Example scenario_4_error_at_default_return :
  res_map (map datum) (errors_of (@type_check example_host scenario_4 initial_state))
  = Ok [hi].
Proof. reflexivity. Qed.

(** A call that reaches the end of a body without default return stops
    the evaluator. *)
Example call_without_return_raises :
  @parse_tree example_host 10 call_without_return initial_state
  = Raise AttributeError.
Proof. reflexivity. Qed.

(** ** Invariants of the two passes

    What every primitive of a pass preserves, the pass preserves. *)

Ltac smaller :=
  repeat match goal with
  | H : In _ _ |- _ => apply node_size_In in H
  end;
  cbn [node_size list_sum map fold_right] in *; unfold list_sum in *; lia.

Section Invariants.
Variable R : state -> state -> Prop.
Hypothesis R_refl : forall st, R st st.
Hypothesis R_trans : forall st0 st1 st2, R st0 st1 -> R st1 st2 -> R st0 st2.
Hypothesis R_set_variable : forall x name v, respects R (set_variable x name v).
Hypothesis R_add_import : forall x m, respects R (add_import x m).
Hypothesis R_new_scope : forall p pf, respects R (new_scope p pf).
Hypothesis R_new_Function :
  forall sc args rt cb dr fn, respects R (new_Function sc args rt cb dr fn).
Hypothesis R_print : forall s, respects R (print s).
Hypothesis R_push_error : forall d msg, respects R (push_error d msg).
Hypothesis R_push_warning : forall d msg, respects R (push_warning d msg).
Hypothesis R_with_fresh_sinks :
  forall A (m : M A), respects R m -> respects R (with_fresh_sinks m).
Hypothesis R_print_diagnostics : respects R print_diagnostics.

Lemma keeps_ret {A} (a : A) : respects R (ret a).
Proof. intros st b st' E. injection E as <- <-. apply R_refl. Qed.

Lemma keeps_raise {A} e : respects R (@raise A e).
Proof. intros st b st' E. discriminate. Qed.

Lemma keeps_unmodelled {A} : respects R (@unmodelled A).
Proof. intros st b st' E. discriminate. Qed.

Lemma keeps_out_of_fuel {A} : respects R (@out_of_fuel A).
Proof. intros st b st' E. discriminate. Qed.

Lemma keeps_lift {A} (r : res A) : respects R (lift r).
Proof.
  intros st b st' E. unfold lift in E. destruct r; try discriminate.
  injection E as <- <-. apply R_refl.
Qed.

Lemma keeps_bind {A B} (m : M A) (k : A -> M B) :
  respects R m -> (forall a, respects R (k a)) -> respects R (bind m k).
Proof.
  intros Hm Hk st b st' E. unfold bind in E.
  destruct (m st) as [[a s1] | | |] eqn:Em; try discriminate.
  eapply R_trans; [eapply Hm | eapply Hk]; eassumption.
Qed.

Lemma keeps_get_scope x : respects R (get_scope x).
Proof.
  intros st v st' E. unfold get_scope in E.
  destruct (nth_error _ _); try discriminate.
  injection E as <- <-. apply R_refl.
Qed.

Lemma keeps_get_variable x name err : respects R (get_variable x name err).
Proof.
  intros st v st' E. unfold get_variable in E.
  destruct (get_variable_walk _ _ _ _) as [[w |] | | |]; try discriminate.
  - injection E as <- <-. apply R_refl.
  - destruct err; [discriminate |]. injection E as <- <-. apply R_refl.
Qed.

Lemma keeps_get_parent_function x : respects R (get_parent_function x).
Proof.
  intros st v st' E. unfold get_parent_function in E.
  destruct (get_parent_function_walk _ _ _); try discriminate.
  injection E as <- <-. apply R_refl.
Qed.

Lemma keeps_find_import x name : respects R (find_import x name).
Proof.
  unfold find_import. apply keeps_bind; [apply keeps_get_scope | intros s].
  apply keeps_ret.
Qed.

Lemma keeps_count_diagnostics : respects R count_diagnostics.
Proof. intros st v st' E. injection E as <- <-. apply R_refl. Qed.

Lemma keeps_map_M {A B} (f : A -> M B) l :
  (forall a, respects R (f a)) -> respects R (map_M f l).
Proof.
  intros Hf. induction l as [| a r IH]; simpl.
  - apply keeps_ret.
  - apply keeps_bind; [apply Hf | intros y].
    apply keeps_bind; [exact IH | intros ys]. apply keeps_ret.
Qed.

Lemma keeps_for_until {A} (f : A -> M (bool * value_)) l :
  (forall a, respects R (f a)) -> respects R (for_until f l).
Proof.
  intros Hf. induction l as [| a r IH]; simpl.
  - apply keeps_ret.
  - apply keeps_bind; [apply Hf | intros ev].
    destruct (fst ev); [apply keeps_ret | exact IH].
Qed.

Lemma keeps_for_each {A B} (f : A -> M B) l :
  (forall c, In c l -> respects R (f c)) -> respects R (for_each f l).
Proof.
  induction l as [| c r IH]; intros Hc; simpl.
  - apply keeps_ret.
  - apply keeps_bind; [apply Hc; left; reflexivity | intros _].
    apply IH. intros b Hb. apply Hc. right. exact Hb.
Qed.

Lemma keeps_bind_arguments scope (arguments : list value_) declared :
  respects R (bind_arguments scope arguments declared).
Proof.
  revert declared. induction arguments as [| v vs IH]; intros [| [t a] ds]; simpl;
    try apply keeps_ret.
  apply keeps_bind; [apply R_set_variable | intros _; apply IH].
Qed.

Lemma keeps_seed_arguments x args : respects R (seed_arguments x args).
Proof.
  induction args as [| [t a] r IH]; simpl.
  - apply keeps_ret.
  - apply keeps_bind; [apply R_set_variable | intros _; exact IH].
Qed.

Lemma keeps_check_arguments check expr ft k arguments arg_types :
  (forall a, In a arguments -> respects R (check a)) ->
  respects R (check_arguments check expr ft k arguments arg_types).
Proof.
  revert k arg_types. induction arguments as [| a r IH]; intros k [| t ts] Hc; simpl;
    try apply keeps_ret.
  apply keeps_bind; [apply Hc; left; reflexivity | intros ct].
  apply keeps_bind.
  - destruct ct as [ct |]; [| apply keeps_ret].
    destruct (negb _); [apply R_push_error | apply keeps_ret].
  - intros _. apply IH. intros b Hb. apply Hc. right. exact Hb.
Qed.

Lemma keeps_check_body check ep warned l :
  (forall c, In c l -> respects R (check c)) ->
  respects R (check_body check ep warned l).
Proof.
  revert ep warned. induction l as [| c r IH]; intros ep warned Hc; simpl.
  - apply keeps_ret.
  - assert (Hr : forall e w, respects R (check_body check e w r)).
    { intros e w. apply IH. intros b Hb. apply Hc. right. exact Hb. }
    apply keeps_bind; [apply Hc; left; reflexivity | intros exit].
    destruct exit, ep; try apply Hr;
      (destruct (negb warned);
       [apply keeps_bind; [apply R_push_warning | intros _; apply Hr]
       | apply Hr]).
Qed.

Lemma keeps_check_loop_body check ep l :
  (forall c, In c l -> respects R (check c)) ->
  respects R (check_loop_body check ep l).
Proof.
  revert ep. induction l as [| c r IH]; intros ep Hc; simpl.
  - apply keeps_ret.
  - apply keeps_bind; [apply Hc; left; reflexivity | intros exit].
    apply IH. intros b Hb. apply Hc. right. exact Hb.
Qed.

Ltac keep_step IH :=
  cbv beta iota;
  match goal with
  | |- respects _ (ret _) => apply keeps_ret
  | |- respects _ (raise _) => apply keeps_raise
  | |- respects _ unmodelled => apply keeps_unmodelled
  | |- respects _ (lift _) => apply keeps_lift
  | |- respects _ (push_error _ _) => apply R_push_error
  | |- respects _ (push_warning _ _) => apply R_push_warning
  | |- respects _ (print _) => apply R_print
  | |- respects _ (get_variable _ _ _) => apply keeps_get_variable
  | |- respects _ (get_parent_function _) => apply keeps_get_parent_function
  | |- respects _ (get_scope _) => apply keeps_get_scope
  | |- respects _ (find_import _ _) => apply keeps_find_import
  | |- respects _ (new_Function _ _ _ _ _ _) => apply R_new_Function
  | |- respects _ (new_scope _ _) => apply R_new_scope
  | |- respects _ (with_fresh_sinks _) => apply R_with_fresh_sinks
  | |- respects _ (set_variable _ _ _) => apply R_set_variable
  | |- respects _ (add_import _ _) => apply R_add_import
  | |- respects _ (seed_arguments _ _) => apply keeps_seed_arguments
  | |- respects _ (bind_arguments _ _ _) => apply keeps_bind_arguments
  | |- respects _ (check_arguments _ _ _ _ _ _) =>
      apply keeps_check_arguments; intros ? ?
  | |- respects _ (check_body _ _ _ _) => apply keeps_check_body; intros ? ?
  | |- respects _ (check_loop_body _ _ _) => apply keeps_check_loop_body; intros ? ?
  | |- respects _ (map_M _ _) => apply keeps_map_M; intros ?
  | |- respects _ (for_until _ _) => apply keeps_for_until; intros ?
  | |- respects _ (bind _ _) => apply keeps_bind; [| intros ?]
  | |- respects _ (eval_expr _ _ _) => IH
  | |- respects _ (eval_command _ _ _) => IH
  | |- respects _ (run _ _ _) => IH
  | |- respects _ (type_check_expr _ _) => IH
  | |- respects _ (type_check_command _ _) => IH
  | |- respects _ (eval_value _ _) => IH
  | |- respects _ (get_value_type _ _) => IH
  | |- context [match ?x with _ => _ end] => is_var x; destruct x
  | |- respects _ (if ?b then _ else _) => destruct b
  | |- respects _ (match ?x with _ => _ end) => destruct x
  end.

Lemma keeps_eval_value x value : respects R (eval_value x value).
Proof.
  unfold eval_value. destruct value as [t v p | |]; try apply keeps_raise.
  repeat keep_step idtac.
Qed.

Lemma keeps_get_value_type x value : respects R (get_value_type x value).
Proof.
  unfold get_value_type. destruct value as [t v p | |]; try apply keeps_raise.
  repeat keep_step idtac.
Qed.

(** The evaluator. *)
Lemma keeps_eval {H : Host} fuel :
  (forall x e, respects R (eval_expr fuel x e)) /\
  (forall x t, respects R (eval_command fuel x t)) /\
  (forall f args, respects R (run fuel f args)).
Proof.
  induction fuel as [| fuel (IHe & IHc & IHr)].
  - repeat split; intros; apply keeps_out_of_fuel.
  - repeat split; intros.
    + destruct e as [t v p | d children |].
      * exact (keeps_eval_value x (Token t v p)).
      * cbn -[String.eqb append eval_value compare_of_type int_of_str range].
        repeat keep_step ltac:(first [apply IHe | apply IHc | apply IHr
                                      | apply keeps_eval_value]).
      * apply keeps_raise.
    + destruct t as [t v p | d children |]; try apply keeps_raise.
      cbn -[String.eqb append eval_value compare_of_type int_of_str range].
      repeat keep_step ltac:(first [apply IHe | apply IHc | apply IHr
                                    | apply keeps_eval_value]).
    + cbn -[String.eqb append eval_value compare_of_type int_of_str range].
      repeat keep_step ltac:(first [apply IHe | apply IHc | apply IHr]).
Qed.

(** The checker. *)
Lemma keeps_type_check_expr expr :
  forall x, respects R (type_check_expr x expr).
Proof.
  assert (Hk : forall k e, (node_size e < k)%nat ->
            forall x, respects R (type_check_expr x e)).
  { induction k as [| k IH]; intros e Hsz x; [lia |].
    destruct e as [t v p | d children |].
    - exact (keeps_get_value_type x (Token t v p)).
    - cbn -[dict_get String.eqb append get_value_type].
      repeat keep_step ltac:(first [apply keeps_get_value_type | apply IH; smaller]).
    - apply keeps_raise. }
  intros x. apply (Hk (S (node_size expr))). lia.
Qed.

Lemma keeps_type_check_command {H : Host} tree :
  forall x, respects R (type_check_command x tree).
Proof.
  assert (Hk : forall k t, (node_size t < k)%nat ->
            forall x, respects R (type_check_command x t)).
  { induction k as [| k IH]; intros t Hsz x; [lia |].
    destruct t as [t v p | d children |]; try apply keeps_raise.
    cbn -[dict_get String.eqb append type_check_expr].
    repeat keep_step
      ltac:(first [apply keeps_type_check_expr | apply IH; smaller]). }
  intros x. apply (Hk (S (node_size tree))). lia.
Qed.

(** The module level. *)
Lemma keeps_type_check {H : Host} tree : respects R (type_check tree).
Proof.
  unfold type_check.
  apply keeps_bind; [apply R_new_scope | intros scope].
  apply keeps_bind.
  - destruct tree as [| d children |]; try apply keeps_raise.
    destruct (String.eqb d "start"); [| apply R_push_error].
    apply keeps_for_each. intros c _. apply keeps_type_check_command.
  - intros _. apply keeps_bind; [exact R_print_diagnostics | intros _].
    apply keeps_count_diagnostics.
Qed.

Lemma keeps_parse_tree {H : Host} fuel tree : respects R (parse_tree fuel tree).
Proof.
  unfold parse_tree. destruct tree as [| d children |]; try apply keeps_raise.
  destruct (String.eqb d "start"); [| apply keeps_raise].
  apply keeps_bind; [apply R_new_scope | intros scope].
  apply keeps_for_each. intros c _. apply (keeps_eval fuel).
Qed.

Lemma keeps_driver {H : Host} fuel tree : respects R (driver fuel tree).
Proof.
  unfold driver.
  apply keeps_bind; [apply keeps_type_check | intros counts].
  apply keeps_bind; [apply keeps_parse_tree | intros _].
  destruct (_ <? _)%nat; [apply R_print | apply keeps_ret].
Qed.

End Invariants.

(** ** Well-formed stores *)

Lemma wf_from_nth scs : forall k i s p,
  wf_from k scs = true -> nth_error scs i = Some s -> parent s = Some p ->
  (p < k + i)%nat.
Proof.
  induction scs as [| s0 r IH]; intros k [| i] s p W Hs Hp; simpl in *;
    try discriminate; apply andb_prop in W; destruct W as [W0 W].
  - injection Hs as ->. unfold scope_older in W0. rewrite Hp in W0.
    apply Nat.ltb_lt in W0. lia.
  - specialize (IH (S k) i s p W Hs Hp). lia.
Qed.

Lemma wf_nth scs i s p :
  wf_store scs -> nth_error scs i = Some s -> parent s = Some p -> (p < i)%nat.
Proof. intros W Hs Hp. apply (wf_from_nth scs 0 i s p W Hs Hp). Qed.

Lemma wf_from_app scs s : forall k,
  wf_from k (scs ++ [s]) = wf_from k scs && scope_older (k + List.length scs) s.
Proof.
  induction scs as [| s0 r IH]; intros k; simpl.
  - rewrite Nat.add_0_r, andb_true_r. reflexivity.
  - rewrite IH, andb_assoc. replace (S k + List.length r)%nat
      with (k + S (List.length r))%nat by lia. reflexivity.
Qed.

Lemma wf_from_list_set scs : forall k x s s',
  wf_from k scs = true -> nth_error scs x = Some s -> parent s' = parent s ->
  wf_from k (list_set scs x s') = true.
Proof.
  induction scs as [| s0 r IH]; intros k [| x] s s' W Hs Hp; simpl in *;
    try discriminate; apply andb_prop in W; destruct W as [W0 W];
    apply andb_true_intro; split; try assumption.
  - injection Hs as ->. unfold scope_older in *. rewrite Hp. exact W0.
  - eapply IH; eassumption.
Qed.

(** ** What the primitives of the passes preserve *)

Ltac primitive E :=
  unfold set_variable, add_import, new_scope, new_Function, print, push_error,
    push_warning, print_diagnostics, with_fresh_sinks, put_scope, get_scope, bind in E;
  repeat match type of E with
         | context [nth_error ?l ?x] => destruct (nth_error l x) eqn:?; try discriminate
         | context [match ?x with _ => _ end] => is_var x; destruct x; try discriminate
         end;
  cbv beta iota in E; injection E as <- <-.

Section Output.

Lemma same_output_refl st : same_output st st.
Proof. reflexivity. Qed.

Lemma same_output_trans st0 st1 st2 :
  same_output st0 st1 -> same_output st1 st2 -> same_output st0 st2.
Proof. unfold same_output. congruence. Qed.

Lemma same_output_set_variable x name v : respects same_output (set_variable x name v).
Proof. intros st a st' E. primitive E; reflexivity. Qed.

Lemma same_output_add_import x m : respects same_output (add_import x m).
Proof. intros st a st' E. primitive E; reflexivity. Qed.

Lemma same_output_new_scope p pf : respects same_output (new_scope p pf).
Proof. intros st a st' E. primitive E; reflexivity. Qed.

Lemma same_output_new_Function sc args rt cb dr fn :
  respects same_output (new_Function sc args rt cb dr fn).
Proof. intros st a st' E. primitive E; reflexivity. Qed.

Lemma same_output_push_error d msg : respects same_output (push_error d msg).
Proof. intros st a st' E. primitive E; reflexivity. Qed.

Lemma same_output_push_warning d msg : respects same_output (push_warning d msg).
Proof. intros st a st' E. primitive E; reflexivity. Qed.

Lemma same_output_with_fresh_sinks A (m : M A) :
  respects same_output m -> respects same_output (with_fresh_sinks m).
Proof.
  intros Hm st a st' E. unfold with_fresh_sinks in E.
  destruct (m _) as [[b s1] | | |] eqn:Em; try discriminate.
  injection E as <- <-. exact (Hm _ _ _ Em).
Qed.

End Output.

Section Diagnostics.

Lemma same_diagnostics_refl st : same_diagnostics st st.
Proof. split; reflexivity. Qed.

Lemma same_diagnostics_trans st0 st1 st2 :
  same_diagnostics st0 st1 -> same_diagnostics st1 st2 -> same_diagnostics st0 st2.
Proof. unfold same_diagnostics. intros [] []. split; congruence. Qed.

Lemma same_diagnostics_set_variable x name v :
  respects same_diagnostics (set_variable x name v).
Proof. intros st a st' E. primitive E; split; reflexivity. Qed.

Lemma same_diagnostics_add_import x m : respects same_diagnostics (add_import x m).
Proof. intros st a st' E. primitive E; split; reflexivity. Qed.

Lemma same_diagnostics_new_scope p pf : respects same_diagnostics (new_scope p pf).
Proof. intros st a st' E. primitive E; split; reflexivity. Qed.

Lemma same_diagnostics_new_Function sc args rt cb dr fn :
  respects same_diagnostics (new_Function sc args rt cb dr fn).
Proof. intros st a st' E. primitive E; split; reflexivity. Qed.

Lemma same_diagnostics_print s : respects same_diagnostics (print s).
Proof. intros st a st' E. primitive E; split; reflexivity. Qed.

End Diagnostics.

Section Well_formed.

Lemma keeps_wf_refl st : keeps_wf st st.
Proof. intros W. exact W. Qed.

Lemma keeps_wf_trans st0 st1 st2 :
  keeps_wf st0 st1 -> keeps_wf st1 st2 -> keeps_wf st0 st2.
Proof. unfold keeps_wf. auto. Qed.

Lemma keeps_wf_set_variable x name v : respects keeps_wf (set_variable x name v).
Proof.
  intros st a st' E. primitive E; intros W; simpl;
    eapply wf_from_list_set; [exact W | eassumption | reflexivity].
Qed.

Lemma keeps_wf_add_import x m : respects keeps_wf (add_import x m).
Proof.
  intros st a st' E. primitive E; intros W; simpl;
    eapply wf_from_list_set; [exact W | eassumption | reflexivity].
Qed.

Lemma keeps_wf_new_scope p pf : respects keeps_wf (new_scope p pf).
Proof.
  intros st a st' E. primitive E; intros W; unfold wf_store in *; cbn [scopes];
    rewrite wf_from_app, W; simpl; apply Nat.ltb_lt;
    apply nth_error_Some; congruence.
Qed.

Lemma keeps_wf_new_Function sc args rt cb dr fn :
  respects keeps_wf (new_Function sc args rt cb dr fn).
Proof. intros st a st' E. primitive E; intros W; exact W. Qed.

Lemma keeps_wf_print s : respects keeps_wf (print s).
Proof. intros st a st' E. primitive E; intros W; exact W. Qed.

Lemma keeps_wf_push_error d msg : respects keeps_wf (push_error d msg).
Proof. intros st a st' E. primitive E; intros W; exact W. Qed.

Lemma keeps_wf_push_warning d msg : respects keeps_wf (push_warning d msg).
Proof. intros st a st' E. primitive E; intros W; exact W. Qed.

Lemma keeps_wf_print_diagnostics : respects keeps_wf print_diagnostics.
Proof. intros st a st' E. primitive E; intros W; exact W. Qed.

Lemma keeps_wf_with_fresh_sinks A (m : M A) :
  respects keeps_wf m -> respects keeps_wf (with_fresh_sinks m).
Proof.
  intros Hm st a st' E. unfold with_fresh_sinks in E.
  destruct (m _) as [[b s1] | | |] eqn:Em; try discriminate.
  injection E as <- <-. exact (Hm _ _ _ Em).
Qed.

End Well_formed.

(** ** The evaluator only writes the scope it runs in *)

Section Frame_of_the_evaluator.
Variables n self : nat.

Lemma respects_print s : respects (extends n self) (print s).
Proof.
  intros st [] st' E. unfold print in E. injection E as <-.
  intros _. repeat split; simpl;
    try (exists []; rewrite app_nil_r; reflexivity); lia.
Qed.

Lemma respects_find_import x name : respects (extends n self) (find_import x name).
Proof.
  unfold find_import. apply respects_bind; [apply respects_get_scope | intros s].
  apply respects_ret.
Qed.

Lemma respects_map_M {A B} (f : A -> M B) l :
  (forall a, respects (extends n self) (f a)) -> respects (extends n self) (map_M f l).
Proof.
  intros Hf. induction l as [| a r IH]; simpl.
  - apply respects_ret.
  - apply respects_bind; [apply Hf | intros y].
    apply respects_bind; [exact IH | intros ys]. apply respects_ret.
Qed.

Lemma respects_for_until {A} (f : A -> M (bool * value_)) l :
  (forall a, respects (extends n self) (f a)) ->
  respects (extends n self) (for_until f l).
Proof.
  intros Hf. induction l as [| a r IH]; simpl.
  - apply respects_ret.
  - apply respects_bind; [apply Hf | intros ev].
    destruct (fst ev); [apply respects_ret | exact IH].
Qed.

Lemma respects_bind_arguments x (arguments : list value_) declared :
  x = self \/ (n <= x)%nat ->
  respects (extends n self) (bind_arguments x arguments declared).
Proof.
  intros Hx. revert declared.
  induction arguments as [| v vs IH]; intros [| [t a] ds]; simpl;
    try apply respects_ret.
  apply respects_bind; [apply respects_set_variable; exact Hx | intros _; apply IH].
Qed.

Lemma respects_eval_value x value :
  respects (extends n self) (eval_value x value).
Proof.
  unfold eval_value. destruct value as [t v p | |]; try apply respects_raise.
  repeat match goal with
  | |- respects _ (if ?b then _ else _) => destruct b
  | |- respects _ (ret _) => apply respects_ret
  | |- respects _ (raise _) => apply respects_raise
  | |- respects _ unmodelled => intros ? ? ? ?; discriminate
  | |- respects _ (bind _ _) => apply respects_bind; [| intros ?]
  | |- respects _ (get_variable _ _ _) => apply respects_get_variable
  | |- respects _ (match ?x with _ => _ end) => destruct x
  end.
Qed.

Ltac eval_step IH :=
  cbv beta iota;
  match goal with
  | |- respects _ (ret _) => apply respects_ret
  | |- respects _ (raise _) => apply respects_raise
  | |- respects _ (lift _) => apply respects_lift
  | |- respects _ (print _) => apply respects_print
  | |- respects _ (find_import _ _) => apply respects_find_import
  | |- respects _ (new_Function _ _ _ _ _ _) => apply respects_new_Function
  | |- respects _ (eval_value _ _) => apply respects_eval_value
  | |- respects _ (set_variable _ _ _) =>
      apply respects_set_variable;
      first [assumption | right; assumption | left; reflexivity]
  | |- respects _ (add_import _ _) =>
      apply respects_add_import;
      first [assumption | right; assumption | left; reflexivity]
  | |- respects _ (bind_arguments _ _ _) =>
      apply respects_bind_arguments;
      first [assumption | right; assumption | left; reflexivity]
  | |- respects _ (map_M _ _) => apply respects_map_M; intros ?
  | |- respects _ (for_until _ _) => apply respects_for_until; intros ?
  | |- respects _ (bind (new_scope _ _) _) => apply respects_new_scope; intros ? ?
  | |- respects _ (bind _ _) => apply respects_bind; [| intros ?]
  | |- respects _ (eval_expr _ _ _) => IH
  | |- respects _ (eval_command _ _ _) => IH
  | |- respects _ (run _ _ _) => IH
  | |- context [match ?x with _ => _ end] => is_var x; destruct x
  | |- respects _ (if ?b then _ else _) => destruct b
  | |- respects _ (match ?x with _ => _ end) => destruct x
  end.

(** An expression writes no scope that exists; a command writes the scope
    it runs in; a call writes the scope it creates. *)
Lemma respects_eval {H : Host} fuel :
  (forall x e, respects (extends n self) (eval_expr fuel x e)) /\
  (forall x t, x = self \/ (n <= x)%nat ->
     respects (extends n self) (eval_command fuel x t)) /\
  (forall f args, respects (extends n self) (run fuel f args)).
Proof.
  induction fuel as [| fuel (IHe & IHc & IHr)].
  - split; [| split]; intros; intros ? ? ? ?; discriminate.
  - split; [| split]; intros.
    + destruct e as [t v p | d children |].
      * exact (respects_eval_value x (Token t v p)).
      * cbn -[String.eqb append eval_value compare_of_type int_of_str range].
        repeat eval_step ltac:(first [apply IHe | apply IHr]).
      * apply respects_raise.
    + destruct t as [t v p | d children |]; try apply respects_raise.
      cbn -[String.eqb append eval_value compare_of_type int_of_str range].
      repeat eval_step
        ltac:(first [apply IHe | apply IHr
                     | apply IHc; first [assumption | right; assumption]]).
    + cbn -[String.eqb append eval_value compare_of_type int_of_str range].
      repeat eval_step
        ltac:(first [apply IHe | apply IHr
                     | apply IHc; first [assumption | right; assumption]]).
Qed.

(** A command that is not an import, a function definition or a
    declaration writes no scope that exists. *)
Lemma respects_eval_block {H : Host} fuel x cdata cchildren rest :
  String.eqb cdata "imp" = false ->
  String.eqb cdata "function_def" = false ->
  String.eqb cdata "declare" = false ->
  respects (extends n self)
    (eval_command fuel x (Tree "instruction" (Tree cdata cchildren :: rest))).
Proof.
  intros Hi Hf Hd. destruct fuel as [| fuel].
  - intros ? ? ? ?; discriminate.
  - destruct (respects_eval fuel) as (IHe & IHc & IHr).
    cbn -[String.eqb append eval_value compare_of_type int_of_str range].
    rewrite Hi, Hf, Hd.
    repeat eval_step
      ltac:(first [apply IHe | apply IHr
                   | apply IHc; first [assumption | right; assumption]]).
Qed.

End Frame_of_the_evaluator.

(** ** What a check and a run leave alone *)

Lemma check_same_output {H : Host} :
  (forall x e, respects same_output (type_check_expr x e)) /\
  (forall x t, respects same_output (type_check_command x t)).
Proof.
  split; intros x t.
  - exact (keeps_type_check_expr same_output same_output_refl same_output_trans
             same_output_new_scope same_output_push_error same_output_push_warning
             same_output_with_fresh_sinks t x).
  - exact (keeps_type_check_command same_output same_output_refl same_output_trans
             same_output_set_variable same_output_add_import same_output_new_scope
             same_output_new_Function same_output_push_error same_output_push_warning
             same_output_with_fresh_sinks t x).
Qed.

Lemma eval_same_diagnostics {H : Host} fuel :
  (forall x e, respects same_diagnostics (eval_expr fuel x e)) /\
  (forall x t, respects same_diagnostics (eval_command fuel x t)) /\
  (forall f args, respects same_diagnostics (run fuel f args)).
Proof.
  exact (keeps_eval same_diagnostics same_diagnostics_refl same_diagnostics_trans
           same_diagnostics_set_variable same_diagnostics_add_import
           same_diagnostics_new_scope same_diagnostics_new_Function
           same_diagnostics_print fuel).
Qed.

(** X1. Checking a command only appends to the two diagnostic lists (what
    they held stays, in place), prints nothing, never removes a scope, and
    writes no scope that existed before other than the one it runs in. *)
Theorem X1_check_of_a_command_appends_and_writes_its_scope {H : Host}
    (self : nat) (tree : node) (st : state) (x : option node) (st' : state) :
  type_check_command self tree st = Ok (x, st') ->
  (exists es, errors st' = (errors st ++ es)%list) /\
  (exists ws, warnings st' = (warnings st ++ ws)%list) /\
  stdout st' = stdout st /\
  (List.length (scopes st) <= List.length (scopes st'))%nat /\
  (forall i, (i < List.length (scopes st))%nat -> i <> self ->
     nth_error (scopes st') i = nth_error (scopes st) i).
Proof.
  intros E.
  destruct (respects_type_check_command (List.length (scopes st)) self tree self
              (or_introl eq_refl) st x st' E (le_n _)) as (Hes & Hws & Hlen & F).
  repeat split; try assumption.
  exact (proj2 check_same_output self tree st x st' E).
Qed.

Lemma X1_witness :
  exists x st',
    @type_check_command example_host 1 (declare_x "1") shadow_state = Ok (x, st')
    /\ stdout st' = []
    /\ nth_error (scopes st') 0 = nth_error (scopes shadow_state) 0.
Proof.
  eassert (E : @type_check_command example_host 1 (declare_x "1") shadow_state
               = Ok (_, _)) by (lazy; reflexivity).
  eexists. eexists. split; [exact E |].
  destruct (X1_check_of_a_command_appends_and_writes_its_scope _ _ _ _ _ E)
    as (_ & _ & Hout & _ & F).
  split; [exact Hout | apply F; simpl; lia].
Defined.

(** X2. Checking an expression only appends to the two diagnostic lists,
    prints nothing, and leaves every scope that existed as it was: an
    expression declares nothing. *)
Theorem X2_check_of_an_expression_writes_no_scope
    (self : nat) (expr : node) (st : state) (t : option ntype) (st' : state) :
  type_check_expr self expr st = Ok (t, st') ->
  (exists es, errors st' = (errors st ++ es)%list) /\
  (exists ws, warnings st' = (warnings st ++ ws)%list) /\
  stdout st' = stdout st /\
  (forall i, (i < List.length (scopes st))%nat ->
     nth_error (scopes st') i = nth_error (scopes st) i).
Proof.
  intros E.
  destruct (respects_type_check_expr (List.length (scopes st)) (List.length (scopes st))
              expr self st t st' E (le_n _)) as (Hes & Hws & Hlen & F).
  repeat split; try assumption.
  - exact (proj1 (@check_same_output example_host) self expr st t st' E).
  - intros i Hi. apply F; lia.
Qed.

Lemma X2_witness :
  exists t st',
    type_check_expr 1 x_plus_1 shadow_state = Ok (t, st')
    /\ nth_error (scopes st') 1 = nth_error (scopes shadow_state) 1.
Proof.
  eassert (E : type_check_expr 1 x_plus_1 shadow_state = Ok (_, _))
    by (lazy; reflexivity).
  eexists. eexists. split; [exact E |].
  destruct (X2_check_of_an_expression_writes_no_scope _ _ _ _ _ E) as (_ & _ & _ & F).
  apply F. simpl. lia.
Defined.

(** X3. Evaluating an expression, calls included, adds no diagnostic and
    leaves every scope that existed as it was: a call binds its arguments
    and runs its body in a scope of its own. *)
Theorem X3_evaluation_of_an_expression_writes_no_scope {H : Host}
    (fuel self : nat) (expr : node) (st : state) (v : value_) (st' : state) :
  eval_expr fuel self expr st = Ok (v, st') ->
  errors st' = errors st /\ warnings st' = warnings st /\
  (List.length (scopes st) <= List.length (scopes st'))%nat /\
  (forall i, (i < List.length (scopes st))%nat ->
     nth_error (scopes st') i = nth_error (scopes st) i).
Proof.
  intros E.
  destruct (proj1 (eval_same_diagnostics fuel) self expr st v st' E) as (He & Hw).
  destruct (proj1 (respects_eval (List.length (scopes st)) (List.length (scopes st)) fuel)
              self expr st v st' E (le_n _)) as (_ & _ & Hlen & F).
  repeat split; try assumption.
  intros i Hi. apply F; lia.
Qed.

Lemma X3_witness :
  exists st',
    @eval_expr example_host 10 0
      (Tree "function_callback" [Tree "call" [var "intInBase10"; num "5"]])
      initial_state = Ok (VStr "5", st')
    /\ nth_error (scopes st') 0 = Some global_scope.
Proof.
  eassert (E : @eval_expr example_host 10 0
                 (Tree "function_callback" [Tree "call" [var "intInBase10"; num "5"]])
                 initial_state = Ok (_, _)) by (lazy; reflexivity).
  eexists. split; [exact E |].
  destruct (X3_evaluation_of_an_expression_writes_no_scope _ _ _ _ _ _ E)
    as (_ & _ & _ & F).
  apply (F 0%nat). simpl. lia.
Defined.

(** X4. Running a command adds no diagnostic and writes no scope that
    existed before other than the one it runs in. *)
Theorem X4_run_of_a_command_writes_its_scope {H : Host}
    (fuel self : nat) (tree : node) (st : state) (r : bool * value_) (st' : state) :
  eval_command fuel self tree st = Ok (r, st') ->
  errors st' = errors st /\ warnings st' = warnings st /\
  (List.length (scopes st) <= List.length (scopes st'))%nat /\
  (forall i, (i < List.length (scopes st))%nat -> i <> self ->
     nth_error (scopes st') i = nth_error (scopes st) i).
Proof.
  intros E.
  destruct (proj1 (proj2 (eval_same_diagnostics fuel)) self tree st r st' E)
    as (He & Hw).
  destruct (proj1 (proj2 (respects_eval (List.length (scopes st)) self fuel))
              self tree (or_introl eq_refl) st r st' E (le_n _))
    as (_ & _ & Hlen & F).
  repeat split; assumption.
Qed.

Lemma X4_witness :
  exists r st',
    @eval_command example_host 10 1 (declare_x "1") shadow_state = Ok (r, st')
    /\ nth_error (scopes st') 0 = nth_error (scopes shadow_state) 0.
Proof.
  eassert (E : @eval_command example_host 10 1 (declare_x "1") shadow_state
               = Ok (_, _)) by (lazy; reflexivity).
  eexists. eexists. split; [exact E |].
  destruct (X4_run_of_a_command_writes_its_scope _ _ _ _ _ _ E) as (_ & _ & _ & F).
  apply F; simpl; lia.
Defined.

(** X5. Only an import, a function definition and a declaration write the
    scope they run in. Every other command (print, return, if, if-else,
    loop, an expression used as a command) leaves every scope that existed
    as it was: the body of an if, of an if-else branch and of a loop
    iteration runs in a scope of its own, so what it declares is not
    visible once it ends. *)
Theorem X5_blocks_declare_in_a_scope_of_their_own {H : Host}
    (fuel self : nat) (cdata : string) (cchildren rest : list node)
    (st : state) (r : bool * value_) (st' : state) :
  eval_command fuel self (Tree "instruction" (Tree cdata cchildren :: rest)) st
    = Ok (r, st') ->
  cdata <> "imp" -> cdata <> "function_def" -> cdata <> "declare" ->
  forall i, (i < List.length (scopes st))%nat ->
    nth_error (scopes st') i = nth_error (scopes st) i.
Proof.
  intros E Hi Hf Hd i Hlt.
  apply String.eqb_neq in Hi, Hf, Hd.
  destruct (respects_eval_block (List.length (scopes st)) (List.length (scopes st))
              fuel self cdata cchildren rest Hi Hf Hd st r st' E (le_n _))
    as (_ & _ & _ & F).
  apply F; lia.
Qed.

Lemma X5_witness :
  exists r st',
    @eval_command example_host 10 0 if_true_declare_x initial_state = Ok (r, st')
    /\ nth_error (scopes st') 0 = Some global_scope
    /\ List.length (scopes st') = 2%nat.
Proof.
  eassert (E : @eval_command example_host 10 0 if_true_declare_x initial_state
               = Ok (_, _)) by (lazy; reflexivity).
  eexists. eexists. split; [exact E |]. split; [| reflexivity].
  apply (X5_blocks_declare_in_a_scope_of_their_own _ _ _ _ _ _ _ _ E);
    try discriminate.
  simpl. lia.
Defined.

(** ** The parent links of a store *)

Lemma check_keeps_wf {H : Host} x t : respects keeps_wf (type_check_command x t).
Proof.
  exact (keeps_type_check_command keeps_wf keeps_wf_refl keeps_wf_trans
           keeps_wf_set_variable keeps_wf_add_import keeps_wf_new_scope
           keeps_wf_new_Function keeps_wf_push_error keeps_wf_push_warning
           keeps_wf_with_fresh_sinks t x).
Qed.

Lemma eval_keeps_wf {H : Host} fuel x t : respects keeps_wf (eval_command fuel x t).
Proof.
  exact (proj1 (proj2 (keeps_eval keeps_wf keeps_wf_refl keeps_wf_trans
           keeps_wf_set_variable keeps_wf_add_import keeps_wf_new_scope
           keeps_wf_new_Function keeps_wf_print fuel)) x t).
Qed.

Lemma driver_keeps_wf {H : Host} fuel tree : respects keeps_wf (driver fuel tree).
Proof.
  exact (keeps_driver keeps_wf keeps_wf_refl keeps_wf_trans
           keeps_wf_set_variable keeps_wf_add_import keeps_wf_new_scope
           keeps_wf_new_Function keeps_wf_print keeps_wf_push_error
           keeps_wf_push_warning keeps_wf_with_fresh_sinks
           keeps_wf_print_diagnostics fuel tree).
Qed.

(** X6. The parent of a scope is always a scope created before it (the
    parent links never form a cycle), and the checker, the evaluator and
    the whole driver keep it so. *)
Theorem X6_every_parent_is_older {H : Host}
    (fuel : nat) (tree : node) (st : state) :
  wf_store (scopes st) ->
  (forall self x st',
     type_check_command self tree st = Ok (x, st') -> wf_store (scopes st')) /\
  (forall self r st',
     eval_command fuel self tree st = Ok (r, st') -> wf_store (scopes st')) /\
  (forall u st', driver fuel tree st = Ok (u, st') -> wf_store (scopes st')).
Proof.
  intros W. repeat split.
  - intros self x st' E. exact (check_keeps_wf self tree st x st' E W).
  - intros self r st' E. exact (eval_keeps_wf fuel self tree st r st' E W).
  - intros u st' E. exact (driver_keeps_wf fuel tree st u st' E W).
Qed.

Lemma X6_witness :
  exists u st',
    @driver example_host 20 scenario_3 initial_state = Ok (u, st')
    /\ wf_store (scopes st').
Proof.
  eassert (E : @driver example_host 20 scenario_3 initial_state = Ok (_, _))
    by (lazy; reflexivity).
  eexists. eexists. split; [exact E |].
  exact (proj2 (proj2 (@X6_every_parent_is_older example_host 20 scenario_3
                         initial_state eq_refl)) _ _ E).
Defined.

(** ** Name lookup *)

Lemma dict_get_set_ne {A} (d : dict A) k k' v :
  k' <> k -> dict_get (dict_set d k v) k' = dict_get d k'.
Proof.
  intros Hne. induction d as [| [k0 v0] r IH]; simpl.
  - destruct (String.eqb k k') eqn:E; [| reflexivity].
    apply String.eqb_eq in E. congruence.
  - destruct (String.eqb k0 k) eqn:E0; simpl.
    + apply String.eqb_eq in E0. subst k0.
      destruct (String.eqb k k') eqn:E; [| reflexivity].
      apply String.eqb_eq in E. congruence.
    + destruct (String.eqb k0 k'); [reflexivity | exact IH].
Qed.

(** In a well-formed store the walk reaches the global scope. *)
Lemma walk_total scs name :
  wf_store scs ->
  forall b self, (self < b)%nat -> (self < List.length scs)%nat ->
    exists r, get_variable_walk b scs self name = Ok r.
Proof.
  intros W. induction b as [| b IH]; intros self Hb Hlen; [lia |].
  simpl. destruct (nth_error scs self) as [s |] eqn:Hs.
  - destruct (dict_get (variables s) name) as [v |]; [eexists; reflexivity |].
    destruct (parent s) as [p |] eqn:Hp; [| eexists; reflexivity].
    pose proof (wf_nth scs self s p W Hs Hp). apply IH; lia.
  - apply nth_error_None in Hs. lia.
Qed.

(** An answer of the walk does not depend on the bound, nor on the scopes
    created later. *)
Lemma walk_more scs extra name :
  forall b b' self r, (b <= b')%nat ->
    get_variable_walk b scs self name = Ok r ->
    get_variable_walk b' (scs ++ extra) self name = Ok r.
Proof.
  induction b as [| b IH]; intros b' self r Hle E; [discriminate |].
  destruct b' as [| b']; [lia |]. simpl in *.
  destruct (nth_error scs self) as [s |] eqn:Hs; [| discriminate].
  rewrite (nth_error_app1 scs extra) by (apply nth_error_Some; congruence).
  rewrite Hs. destruct (dict_get (variables s) name); [exact E |].
  destruct (parent s); [| exact E]. apply (IH b'); [lia | exact E].
Qed.

(** The walk from a scope reads that scope and older ones only. *)
Lemma walk_frame scs scs' name :
  wf_store scs ->
  forall b self,
    (forall i, (i <= self)%nat -> nth_error scs' i = nth_error scs i) ->
    get_variable_walk b scs' self name = get_variable_walk b scs self name.
Proof.
  intros W. induction b as [| b IH]; intros self F; [reflexivity |].
  simpl. rewrite (F self (le_n _)).
  destruct (nth_error scs self) as [s |] eqn:Hs; [| reflexivity].
  destruct (dict_get (variables s) name); [reflexivity |].
  destruct (parent s) as [p |] eqn:Hp; [| reflexivity].
  pose proof (wf_nth scs self s p W Hs Hp).
  apply IH. intros i Hi. apply F. lia.
Qed.

(** Binding [name] in a scope changes no lookup of another name. *)
Lemma walk_other scs self s s' k :
  nth_error scs self = Some s ->
  parent s' = parent s ->
  dict_get (variables s') k = dict_get (variables s) k ->
  forall b x,
    get_variable_walk b (list_set scs self s') x k = get_variable_walk b scs x k.
Proof.
  intros Hs Hp Hd. induction b as [| b IH]; intros x; [reflexivity |].
  simpl. destruct (Nat.eq_dec x self) as [-> | Hne].
  - rewrite (nth_error_list_set_eq scs self s' s Hs), Hs, Hd, Hp.
    destruct (dict_get (variables s) k); [reflexivity |].
    destruct (parent s); [apply IH | reflexivity].
  - rewrite nth_error_list_set_ne by exact Hne.
    destruct (nth_error scs x) as [sx |]; [| reflexivity].
    destruct (dict_get (variables sx) k); [reflexivity |].
    destruct (parent sx); [apply IH | reflexivity].
Qed.

Lemma get_variable_result self name err st :
  result_of (get_variable self name err st) =
  match get_variable_walk (List.length (scopes st)) (scopes st) self name with
  | Ok (Some v) => Ok (Some v)
  | Ok None =>
      if err
      then Raise (NameError ("You tried to get a variable/function `" ++ name
                             ++ "`, but it isn't defined."))
      else Ok None
  | Raise e => Raise e
  | OutOfFuel => OutOfFuel
  | Unmodelled => Unmodelled
  end.
Proof.
  unfold get_variable, result_of.
  destruct (get_variable_walk _ _ _ _) as [[v |] | | |]; try reflexivity.
  destruct err; reflexivity.
Qed.

(** X7. In a well-formed store a lookup from an existing scope always
    answers and leaves the state as it is: with [err=False] it returns the
    variable or [None]; with [err=True] it returns the same variable, and
    raises [NameError] with the name in its message exactly when the other
    returns [None]. *)
Theorem X7_lookup_always_answers
    (self : nat) (name : string) (st : state) :
  wf_store (scopes st) ->
  (self < List.length (scopes st))%nat ->
  exists r,
    get_variable self name false st = Ok (r, st) /\
    get_variable self name true st =
      match r with
      | Some v => Ok (Some v, st)
      | None => Raise (NameError ("You tried to get a variable/function `" ++ name
                                  ++ "`, but it isn't defined."))
      end.
Proof.
  intros W Hlen.
  destruct (walk_total (scopes st) name W (List.length (scopes st)) self Hlen Hlen)
    as [r E].
  exists r. unfold get_variable. rewrite E. destruct r; split; reflexivity.
Qed.

Lemma X7_witness :
  exists r,
    get_variable 1 "x" false shadow_state = Ok (r, shadow_state) /\
    get_variable 1 "x" true shadow_state =
      match r with
      | Some v => Ok (Some v, shadow_state)
      | None => Raise (NameError ("You tried to get a variable/function `" ++ "x"
                                  ++ "`, but it isn't defined."))
      end.
Proof.
  apply (X7_lookup_always_answers 1 "x" shadow_state); [reflexivity | simpl; lia].
Defined.

Lemma set_variable_same self name v st st' :
  set_variable self name v st = Ok (tt, st') ->
  forall err, get_variable self name err st' = Ok (Some v, st').
Proof.
  intros E. unfold set_variable, bind, get_scope, put_scope in E.
  destruct (nth_error (scopes st) self) as [s |] eqn:Hs; [| discriminate].
  injection E as <-.
  intros err. unfold get_variable. cbn [scopes]. rewrite length_list_set.
  destruct (List.length (scopes st)) as [| b] eqn:Hlen.
  - destruct (scopes st); [destruct self |]; discriminate.
  - simpl. rewrite (nth_error_list_set_eq _ _ _ _ Hs). cbn [variables].
    rewrite dict_get_set_eq. reflexivity.
Qed.

Lemma set_variable_other self name v st st' :
  set_variable self name v st = Ok (tt, st') ->
  forall x k err, k <> name ->
    result_of (get_variable x k err st') = result_of (get_variable x k err st).
Proof.
  intros E. unfold set_variable, bind, get_scope, put_scope in E.
  destruct (nth_error (scopes st) self) as [s |] eqn:Hs; [| discriminate].
  injection E as <-.
  intros x k err Hne. rewrite !get_variable_result. cbn [scopes].
  rewrite length_list_set.
  rewrite (walk_other (scopes st) self s _ k Hs); try reflexivity.
  cbn [variables]. apply dict_get_set_ne. exact Hne.
Qed.

(** X8. After [self.variables[name] = v], a lookup of [name] from that
    scope returns [v] whatever the enclosing scopes bind (the innermost
    binding wins), and the lookup of any other name, from any scope, answers
    as it did before. *)
Theorem X8_binding_then_lookup
    (self : nat) (name : string) (v : Variable_) (st st' : state) :
  set_variable self name v st = Ok (tt, st') ->
  (forall err, get_variable self name err st' = Ok (Some v, st')) /\
  (forall x k err, k <> name ->
     result_of (get_variable x k err st') = result_of (get_variable x k err st)).
Proof.
  intros E. split.
  - exact (set_variable_same self name v st st' E).
  - exact (set_variable_other self name v st st' E).
Qed.

Lemma X8_witness :
  exists st',
    set_variable 1 "x" (mk_Variable (TStr "str") (VStr "inner")) shadow_state
      = Ok (tt, st')
    /\ get_variable 1 "x" true st'
       = Ok (Some (mk_Variable (TStr "str") (VStr "inner")), st').
Proof.
  eexists. split; [reflexivity |].
  apply (proj1 (X8_binding_then_lookup 1 "x" _ shadow_state _ eq_refl)).
Defined.

(** X9. A scope just created by [new_scope] binds nothing of its own: a
    lookup from it, of any name, answers what the lookup from its parent
    answers. *)
Theorem X9_new_scope_sees_the_bindings_of_its_parent
    (self : nat) (pf : option Function) (st : state) (c : nat) (st1 : state) :
  wf_store (scopes st) ->
  new_scope self pf st = Ok (c, st1) ->
  forall name err,
    result_of (get_variable c name err st1) = result_of (get_variable self name err st).
Proof.
  intros W E name err. unfold new_scope, bind, get_scope in E.
  destruct (nth_error (scopes st) self) as [s |] eqn:Hs; [| discriminate].
  injection E as <- <-. rewrite !get_variable_result. cbn [scopes].
  assert (Hlen : (self < List.length (scopes st))%nat)
    by (apply nth_error_Some; congruence).
  destruct (walk_total (scopes st) name W _ self Hlen Hlen) as [r Er].
  rewrite Er, length_app. cbn [List.length].
  replace (List.length (scopes st) + 1)%nat with (S (List.length (scopes st))) by lia.
  cbn [get_variable_walk]. rewrite nth_error_app2 by lia.
  rewrite Nat.sub_diag. cbn [nth_error empty_scope variables dict_get parent].
  rewrite (walk_more _ _ _ _ _ _ _ (le_n _) Er). reflexivity.
Qed.

Lemma X9_witness :
  exists c st1,
    new_scope 1 None shadow_state = Ok (c, st1)
    /\ result_of (get_variable c "x" true st1)
       = Ok (Some (mk_Variable (TStr "int") (VStr "whatever"))).
Proof.
  eexists. eexists. split; [reflexivity |].
  rewrite (X9_new_scope_sees_the_bindings_of_its_parent 1 None shadow_state _ _
             eq_refl eq_refl).
  reflexivity.
Defined.

(** X10. A binding made in a scope is not seen from the scopes created
    before it: after [c.variables[name] = v], every lookup from an older
    scope answers as it did before. A declaration in an inner scope shadows;
    it does not overwrite. *)
Theorem X10_inner_binding_leaves_outer_lookups
    (self c : nat) (name : string) (v : Variable_) (st st' : state) :
  wf_store (scopes st) ->
  set_variable c name v st = Ok (tt, st') ->
  (self < c)%nat ->
  forall k err,
    result_of (get_variable self k err st') = result_of (get_variable self k err st).
Proof.
  intros W E Hlt k err. unfold set_variable, bind, get_scope, put_scope in E.
  destruct (nth_error (scopes st) c) as [s |] eqn:Hs; [| discriminate].
  injection E as <-. rewrite !get_variable_result. cbn [scopes].
  rewrite length_list_set.
  rewrite (walk_frame (scopes st) _ k W); [reflexivity |].
  intros i Hi. apply nth_error_list_set_ne. lia.
Qed.

Lemma X10_witness :
  exists st',
    set_variable 1 "x" (mk_Variable (TStr "str") (VStr "inner")) shadow_state
      = Ok (tt, st')
    /\ result_of (get_variable 0 "x" true st')
       = Ok (Some (mk_Variable (TStr "int") (VStr "whatever"))).
Proof.
  eexists. split; [reflexivity |].
  rewrite (X10_inner_binding_leaves_outer_lookups 0 1 "x" _ shadow_state _
             eq_refl eq_refl); [reflexivity | lia].
Defined.

(** ** What the rules of the checker return *)

Lemma yields_ret {A} (P : A -> Prop) (a : A) : P a -> yields P (ret a).
Proof. intros Ha st b st' E. injection E as <- _. exact Ha. Qed.

Lemma yields_raise {A} (P : A -> Prop) e : yields P (raise e).
Proof. intros st b st' E. discriminate. Qed.

Lemma yields_bind {A B} (P : B -> Prop) (m : M A) (k : A -> M B) :
  (forall a, yields P (k a)) -> yields P (bind m k).
Proof.
  intros Hk st b st' E. unfold bind in E.
  destruct (m st) as [[a s1] | | |]; try discriminate.
  exact (Hk a s1 b st' E).
Qed.

Lemma compare_not_binary otype op :
  compare_of_type otype = Some op -> dict_get binary_operation_types otype = None.
Proof.
  unfold compare_of_type. intros E.
  repeat match type of E with
  | (if ?b then _ else _) = _ =>
      let Hb := fresh "Hb" in
      destruct b eqn:Hb;
      [ first [ apply String.eqb_eq in Hb
              | apply orb_prop in Hb; destruct Hb as [Hb | Hb];
                apply String.eqb_eq in Hb ];
        subst otype; reflexivity | clear Hb ]
  end.
  discriminate.
Qed.

(** X11. A comparison is a [bool] for both passes: the checker gives it the
    type [bool] whatever it finds in the operands (errors and unknown
    operand types included), and whenever the evaluator yields a value for
    it the value is a Python [bool]. *)
Theorem X11_comparison_is_a_bool {H : Host}
    (l r : node) (otype ov : string) (p : position) (op : comparison_op) :
  compare_of_type otype = Some op ->
  (forall self st t st',
     type_check_expr self (Tree "compare_expression" [l; Token otype ov p; r]) st
       = Ok (t, st') ->
     t = Some (TStr "bool")) /\
  (forall fuel self st v st',
     eval_expr fuel self (Tree "compare_expression" [l; Token otype ov p; r]) st
       = Ok (v, st') ->
     host_type v = "bool").
Proof.
  intros Hop. split.
  - intros self.
    change (yields (fun t => t = Some (TStr "bool"))
              (type_check_expr self (Tree "compare_expression" [l; Token otype ov p; r]))).
    cbn -[dict_get append]. rewrite (compare_not_binary otype op Hop).
    destruct l;
      (apply yields_bind; intros lt; apply yields_bind; intros rt;
       destruct lt as [lt |]; [| apply yields_ret; reflexivity];
       apply yields_bind; intros _; apply yields_bind; intros _;
       apply yields_ret; reflexivity).
  - intros fuel self st v st' E.
    destruct (compare_expression_bool fuel self _ st v st' E) as [b ->]. reflexivity.
Qed.

Lemma X11_witness :
  (exists t st',
     type_check_expr 0 one_less_2 initial_state = Ok (t, st')
     /\ t = Some (TStr "bool")) /\
  (exists v st',
     @eval_expr example_host 5 0 one_less_2 initial_state = Ok (v, st')
     /\ host_type v = "bool").
Proof.
  pose proof (@X11_comparison_is_a_bool example_host (num "1") (num "2") "LESS" "<"
                nopos LESS eq_refl) as [Hc He].
  split.
  - eassert (E : type_check_expr 0 one_less_2 initial_state = Ok (_, _))
      by (lazy; reflexivity).
    eexists. eexists. split; [exact E | exact (Hc _ _ _ _ E)].
  - eassert (E : @eval_expr example_host 5 0 one_less_2 initial_state = Ok (_, _))
      by (lazy; reflexivity).
    eexists. eexists. split; [exact E | exact (He _ _ _ _ _ E)].
Defined.

Lemma unpack_function_type arg_types return_type :
  unpack_func_type (TTuple (arg_types ++ [return_type])) = Some (arg_types, return_type).
Proof.
  unfold unpack_func_type. rewrite removelast_last, last_last.
  destruct arg_types; reflexivity.
Qed.

(** X12. The rule of a call. When the type of the callee is unknown the
    call is unknown too and nothing else is looked at: the arguments are not
    checked. When the callee has a function type, the arguments are checked
    against the parameter types, an error is added for the call exactly when
    the number of arguments is not the number of parameters, and the call
    has the declared return type whatever was reported. *)
Theorem X12_rule_of_a_call
    (self : nat) (cdata : string) (function : node) (arguments rest : list node)
    (st st1 : state) :
  (type_check_expr self function st = Ok (None, st1) ->
   type_check_expr self
     (Tree "function_callback" (Tree cdata (function :: arguments) :: rest)) st
   = Ok (None, st1)) /\
  (forall arg_types return_type st2,
     type_check_expr self function st
       = Ok (Some (TTuple (arg_types ++ [return_type])), st1) ->
     check_arguments (type_check_expr self)
       (Tree "function_callback" (Tree cdata (function :: arguments) :: rest))
       (TTuple (arg_types ++ [return_type])) 1 arguments arg_types st1 = Ok (tt, st2) ->
     type_check_expr self
       (Tree "function_callback" (Tree cdata (function :: arguments) :: rest)) st
     = Ok (Some (TStr return_type),
           with_errors st2
             (arity_error
                (Tree "function_callback" (Tree cdata (function :: arguments) :: rest))
                (TTuple (arg_types ++ [return_type])) arguments arg_types))).
Proof.
  split.
  - intros E. cbn -[dict_get append unpack_func_type check_arguments].
    unfold bind at 1. rewrite E. reflexivity.
  - intros arg_types return_type st2 E Ea.
    cbn -[dict_get append unpack_func_type check_arguments].
    unfold bind at 1. rewrite E. rewrite unpack_function_type.
    unfold bind at 1. rewrite Ea. unfold arity_error.
    destruct (negb _).
    + unfold bind, push_error, ret, with_errors. reflexivity.
    + unfold bind, ret. rewrite with_errors_nil. reflexivity.
Qed.

Lemma X12_witness :
  (exists st1, type_check_expr 0 call_undefined initial_state = Ok (None, st1)
               /\ List.length (errors st1) = 1%nat) /\
  (exists st2, type_check_expr 0 call_two_arguments initial_state
               = Ok (Some (TStr "str"), st2)
               /\ List.length (errors st2) = 1%nat).
Proof.
  split.
  - eassert (E : type_check_expr 0 (var "f") initial_state = Ok (None, _))
      by (lazy; reflexivity).
    eexists. split.
    + exact (proj1 (X12_rule_of_a_call 0 "call" (var "f") [var "y"] [] initial_state _) E).
    + reflexivity.
  - eassert (E : type_check_expr 0 (var "intInBase10") initial_state
                 = Ok (Some (TTuple (["int"] ++ ["str"])), _)) by (lazy; reflexivity).
    eassert (Ea : check_arguments (type_check_expr 0) call_two_arguments
                    (TTuple (["int"] ++ ["str"])) 1 [num "1"; num "2"] ["int"] _
                  = Ok (tt, _)) by (lazy; reflexivity).
    eexists. split.
    + exact (proj2 (X12_rule_of_a_call 0 "call" (var "intInBase10") [num "1"; num "2"] []
                      initial_state _) ["int"] "str" _ E Ea).
    + reflexivity.
Defined.

(** ** Exit points *)

Lemma exit_ok_None : exit_ok None.
Proof. intros p E. discriminate. Qed.

Lemma yields_check_loop_body check ep l :
  (forall c, In c l -> yields exit_ok (check c)) ->
  exit_ok ep ->
  yields exit_ok (check_loop_body check ep l).
Proof.
  revert ep. induction l as [| c r IH]; intros ep Hc Hep; simpl.
  - apply yields_ret. exact Hep.
  - intros st a st' E. unfold bind in E.
    destruct (check c st) as [[exit s1] | | |] eqn:Ec; try discriminate.
    refine (IH _ _ _ s1 a st' E).
    + intros b Hb. apply Hc. right. exact Hb.
    + destruct ep as [q |]; [exact Hep |].
      exact (Hc c (or_introl eq_refl) st exit s1 Ec).
Qed.

Ltac exit_step IH :=
  cbv beta iota;
  match goal with
  | |- yields _ (ret None) => apply yields_ret; exact exit_ok_None
  | |- yields _ (ret (Some (Tree _ _))) =>
      apply yields_ret; intros ? Hp; injection Hp as <-; cbn [is_exit_node];
      repeat match goal with
             | Hb : String.eqb _ _ = _ |- _ => rewrite Hb; clear Hb
             end;
      rewrite ?orb_true_r; reflexivity
  | |- yields _ (raise _) => apply yields_raise
  | |- yields _ (bind _ _) => apply yields_bind; intros ?
  | |- yields _ (check_loop_body _ _ _) =>
      apply yields_check_loop_body; [intros ? ? | exact exit_ok_None]
  | |- yields _ (type_check_command _ _) => IH
  | |- context [match ?x with _ => _ end] => is_var x; destruct x
  | |- yields _ (if ?b then _ else _) => destruct b eqn:?
  | |- yields _ (match ?x with _ => _ end) => destruct x
  end.

Lemma yields_type_check_command {H : Host} tree :
  forall x, yields exit_ok (type_check_command x tree).
Proof.
  assert (Hk : forall k t, (node_size t < k)%nat ->
            forall x, yields exit_ok (type_check_command x t)).
  { induction k as [| k IH]; intros t Hsz x; [lia |].
    destruct t as [t v p | d children |]; try apply yields_raise.
    cbn -[dict_get String.eqb append type_check_expr check_body].
    repeat exit_step ltac:(apply IH; smaller). }
  intros x. apply (Hk (S (node_size tree))). lia.
Qed.

(** X13. Whatever command is checked, the exit point the checker reports
    for it (the node later warnings point at) is a [return] command or an
    [if-else] command: an [if] without [else], a loop, a declaration, a
    print or a function definition is never itself reported as the place
    where a block ends. *)
Theorem X13_exit_points_are_returns_and_if_elses {H : Host}
    (self : nat) (tree : node) (st : state) (p : node) (st' : state) :
  type_check_command self tree st = Ok (Some p, st') ->
  exists children, p = Tree "return" children \/ p = Tree "ifelse" children.
Proof.
  intros E.
  pose proof (yields_type_check_command tree self st (Some p) st' E p eq_refl) as Hp.
  destruct p as [| d children |]; try discriminate.
  exists children. cbn [is_exit_node] in Hp.
  apply orb_prop in Hp. destruct Hp as [Hp | Hp]; apply String.eqb_eq in Hp;
    subst d; [left | right]; reflexivity.
Qed.

Lemma X13_witness :
  exists p st',
    @type_check_command example_host 1 loop_3_return body_state = Ok (Some p, st')
    /\ exists children, p = Tree "return" children \/ p = Tree "ifelse" children.
Proof.
  eassert (E : @type_check_command example_host 1 loop_3_return body_state
               = Ok (Some _, _)) by (lazy; reflexivity).
  eexists. eexists. split; [exact E |].
  exact (X13_exit_points_are_returns_and_if_elses _ _ _ _ _ E).
Defined.

(** ** Literals *)

(** X14. On a literal (a number, a string or a boolean token) the two
    passes agree: whenever [eval_value] yields a value, the name of its
    Python type is the type [get_value_type] reports, and neither of them
    changes the state. *)
Theorem X14_literals_have_the_type_the_checker_reports
    (self : nat) (type text : string) (pos : position)
    (st : state) (v : value_) (st1 : state) (t : option ntype) (st2 : state) :
  type <> "NAME" ->
  eval_value self (Token type text pos) st = Ok (v, st1) ->
  get_value_type self (Token type text pos) st = Ok (t, st2) ->
  t = Some (TStr (host_type v)) /\ st1 = st /\ st2 = st.
Proof.
  intros Hn Ev Et. apply String.eqb_neq in Hn.
  unfold eval_value in Ev. unfold get_value_type in Et. rewrite Hn in Ev, Et.
  destruct (String.eqb type "NUMBER").
  { destruct (int_of_str text); [| discriminate].
    injection Ev as <- <-. injection Et as <- <-. repeat split. }
  destruct (String.eqb type "STRING").
  { injection Ev as <- <-. injection Et as <- <-. repeat split. }
  destruct (String.eqb type "BOOLEAN"); [| discriminate].
  destruct (String.eqb text "false").
  { injection Ev as <- <-. injection Et as <- <-. repeat split. }
  destruct (String.eqb text "true"); [| discriminate].
  injection Ev as <- <-. injection Et as <- <-. repeat split.
Qed.

Lemma X14_witness :
  Some (TStr "int") = Some (TStr (host_type (VInt 12)))
  /\ initial_state = initial_state /\ initial_state = initial_state.
Proof.
  apply (X14_literals_have_the_type_the_checker_reports 0 "NUMBER"
           "12" nopos initial_state (VInt 12) initial_state (Some (TStr "int"))
           initial_state); [discriminate | reflexivity | reflexivity].
Defined.

(** ** A tree that is not a program *)



(** ** The function a scope belongs to *)

Lemma parent_function_walk_total scs :
  wf_store scs ->
  forall b self, (self < b)%nat -> (self < List.length scs)%nat ->
    exists r, get_parent_function_walk b scs self = Ok r.
Proof.
  intros W. induction b as [| b IH]; intros self Hb Hlen; [lia |].
  simpl. destruct (nth_error scs self) as [s |] eqn:Hs.
  - destruct (parent_function s) as [f |]; [eexists; reflexivity |].
    destruct (parent s) as [p |] eqn:Hp; [| eexists; reflexivity].
    pose proof (wf_nth scs self s p W Hs Hp). apply IH; lia.
  - apply nth_error_None in Hs. lia.
Qed.

Lemma parent_function_walk_more scs extra :
  forall b b' self r, (b <= b')%nat ->
    get_parent_function_walk b scs self = Ok r ->
    get_parent_function_walk b' (scs ++ extra) self = Ok r.
Proof.
  induction b as [| b IH]; intros b' self r Hle E; [discriminate |].
  destruct b' as [| b']; [lia |]. simpl in *.
  destruct (nth_error scs self) as [s |] eqn:Hs; [| discriminate].
  rewrite (nth_error_app1 scs extra) by (apply nth_error_Some; congruence).
  rewrite Hs. destruct (parent_function s); [exact E |].
  destruct (parent s); [| exact E]. apply (IH b'); [lia | exact E].
Qed.

(** X16. A scope belongs to the function it was created for, and otherwise
    to the function its parent belongs to: [get_parent_function] on a scope
    that [new_scope] just created answers the function given to
    [new_scope], and without one whatever it answers on the parent. The
    blocks nested in a function body are checked against that function. *)
Theorem X16_new_scope_belongs_to_the_enclosing_function
    (self : nat) (pf : option Function) (st : state) (c : nat) (st1 : state) :
  wf_store (scopes st) ->
  new_scope self pf st = Ok (c, st1) ->
  result_of (get_parent_function c st1) =
  match pf with
  | Some f => Ok (Some f)
  | None => result_of (get_parent_function self st)
  end.
Proof.
  intros W E. unfold new_scope, bind, get_scope in E.
  destruct (nth_error (scopes st) self) as [s |] eqn:Hs; [| discriminate].
  injection E as <- <-. unfold get_parent_function, result_of. cbn [scopes].
  assert (Hlen : (self < List.length (scopes st))%nat)
    by (apply nth_error_Some; congruence).
  rewrite length_app. cbn [List.length].
  replace (List.length (scopes st) + 1)%nat with (S (List.length (scopes st))) by lia.
  cbn [get_parent_function_walk]. rewrite nth_error_app2 by lia.
  rewrite Nat.sub_diag. cbn [nth_error empty_scope parent_function parent].
  destruct pf as [f |]; [reflexivity |].
  destruct (parent_function_walk_total (scopes st) W _ self Hlen Hlen) as [r Er].
  rewrite Er. cbn [res_map fst].
  destruct (parent_function s) as [f |] eqn:Hf.
  - destruct (List.length (scopes st)) as [| b]; [lia |].
    simpl in Er. rewrite Hs, Hf in Er. injection Er as <-. reflexivity.
  - rewrite (parent_function_walk_more _ _ _ _ _ _ (le_n _) Er). reflexivity.
Qed.

Lemma X16_witness :
  exists c st1,
    new_scope 1 None body_state = Ok (c, st1)
    /\ result_of (get_parent_function c st1) = Ok (Some h_no_return).
Proof.
  eassert (E : new_scope 1 None body_state = Ok (_, _)) by (lazy; reflexivity).
  eexists. eexists. split; [exact E |].
  rewrite (X16_new_scope_belongs_to_the_enclosing_function 1 None body_state _ _
             eq_refl E).
  reflexivity.
Defined.

(** ** The arguments of a call *)

Lemma bind_arguments_other c (arguments : list value_) declared :
  forall st st', bind_arguments c arguments declared st = Ok (tt, st') ->
  forall x k err, ~ In k (map snd declared) ->
    result_of (get_variable x k err st') = result_of (get_variable x k err st).
Proof.
  revert declared. induction arguments as [| v vs IH]; intros [| [t a] ds] st st' E;
    simpl in E; try (injection E as <-; reflexivity).
  unfold bind in E.
  destruct (set_variable c a _ st) as [[[] s1] | | |] eqn:Es; try discriminate.
  intros x k err Hk. simpl in Hk.
  rewrite (IH ds s1 st' E x k err) by tauto.
  apply (set_variable_other _ _ _ _ _ Es). intros ->. tauto.
Qed.

(** X17. [Function.run] binds the parameters in order: when the parameter
    names are distinct, after the loop over
    [zip(arguments, self.arguments)] the name of each parameter that has an
    argument resolves, from the scope of the call, to that argument with the
    declared type. *)
Theorem X17_parameters_are_bound_to_their_arguments
    (c : nat) (arguments : list value_) (declared : list (string * string))
    (st st' : state) :
  bind_arguments c arguments declared st = Ok (tt, st') ->
  NoDup (map snd declared) ->
  forall i arg_type arg_name value err,
    nth_error declared i = Some (arg_type, arg_name) ->
    nth_error arguments i = Some value ->
    result_of (get_variable c arg_name err st')
    = Ok (Some (mk_Variable (TStr arg_type) value)).
Proof.
  revert declared st. induction arguments as [| v vs IH];
    intros [| [t a] ds] st E Hnd [| i] arg_type arg_name value err Hd Ha;
    simpl in Hd, Ha; try discriminate.
  - injection Hd as <- <-. injection Ha as <-.
    simpl in E. unfold bind in E.
    destruct (set_variable c a _ st) as [[[] s1] | | |] eqn:Es; try discriminate.
    inversion Hnd as [| ? ? Hnotin Hnd']; subst.
    rewrite (bind_arguments_other c vs ds s1 st' E c a err Hnotin).
    rewrite (set_variable_same _ _ _ _ _ Es err). reflexivity.
  - simpl in E. unfold bind in E.
    destruct (set_variable c a _ st) as [[[] s1] | | |] eqn:Es; try discriminate.
    inversion Hnd as [| ? ? Hnotin Hnd']; subst.
    exact (IH ds s1 E Hnd' i arg_type arg_name value err Hd Ha).
Qed.

Lemma X17_witness :
  exists st',
    bind_arguments 1 [VInt 2; VInt 3] [("int", "a"); ("int", "b")] body_state
      = Ok (tt, st')
    /\ result_of (get_variable 1 "b" true st')
       = Ok (Some (mk_Variable (TStr "int") (VInt 3))).
Proof.
  eexists. split; [reflexivity |].
  apply (X17_parameters_are_bound_to_their_arguments 1 [VInt 2; VInt 3]
           [("int", "a"); ("int", "b")] body_state _ eq_refl) with (i := 1%nat);
    [| reflexivity | reflexivity].
  repeat constructor; simpl; intuition discriminate.
Defined.

(** ** Rendering: where a diagnostic points *)

Lemma first_token_leaves x : forall a,
  first_token x = Ok a -> exists post, leaves x = a :: post.
Proof.
  assert (Hk : forall k x, (node_size x < k)%nat -> forall a,
            first_token x = Ok a -> exists post, leaves x = a :: post).
  { induction k as [| k IH]; intros y Hsz a E; [lia |].
    destruct y as [t v p | d [| c r] |]; simpl in E; try discriminate.
    - injection E as <-. exists []. reflexivity.
    - destruct (IH c ltac:(cbn [node_size list_sum map fold_right] in Hsz;
                           unfold list_sum in Hsz; lia) a E) as [post Hpost].
      exists (post ++ flat_map leaves r)%list. simpl. rewrite Hpost. reflexivity.
    - injection E as <-. exists []. reflexivity. }
  intros a. apply (Hk (S (node_size x))). lia.
Qed.

Lemma last_child_leaves l : forall b,
  (forall c, In c l -> forall b, last_token c = Ok b ->
     exists pre, leaves c = (pre ++ [b])%list) ->
  last_child last_token l = Ok b ->
  exists pre, flat_map leaves l = (pre ++ [b])%list.
Proof.
  induction l as [| c r IH]; intros b Hc E; [discriminate |].
  destruct r as [| c' r'].
  - simpl in E. destruct (Hc c (or_introl eq_refl) b E) as [pre Hpre].
    exists pre. simpl. rewrite app_nil_r. exact Hpre.
  - change (last_child last_token (c' :: r') = Ok b) in E.
    destruct (IH b (fun x Hx => Hc x (or_intror Hx)) E) as [pre Hpre].
    exists (leaves c ++ pre)%list.
    change (flat_map leaves (c :: c' :: r'))
      with (leaves c ++ flat_map leaves (c' :: r'))%list.
    rewrite Hpre, app_assoc. reflexivity.
Qed.

Lemma last_token_leaves x : forall b,
  last_token x = Ok b -> exists pre, leaves x = (pre ++ [b])%list.
Proof.
  assert (Hk : forall k x, (node_size x < k)%nat -> forall b,
            last_token x = Ok b -> exists pre, leaves x = (pre ++ [b])%list).
  { induction k as [| k IH]; intros y Hsz b E; [lia |].
    destruct y as [t v p | d children |].
    - injection E as <-. exists []. reflexivity.
    - apply last_child_leaves; [| exact E].
      intros c Hc. apply IH. smaller.
    - injection E as <-. exists []. reflexivity. }
  intros b. apply (Hk (S (node_size x))). lia.
Qed.

Lemma first_token_not_Tree x : forall a d c, first_token x = Ok a -> a <> Tree d c.
Proof.
  assert (Hk : forall k x, (node_size x < k)%nat -> forall a d c,
            first_token x = Ok a -> a <> Tree d c).
  { induction k as [| k IH]; intros y Hsz a d c E; [lia |].
    destruct y as [t v p | d' [| c' r] |]; simpl in E; try discriminate.
    - injection E as <-. discriminate.
    - apply (IH c'); [| exact E].
      cbn [node_size list_sum map fold_right] in Hsz; unfold list_sum in Hsz; lia.
    - injection E as <-. discriminate. }
  intros a d c. apply (Hk (S (node_size x))). lia.
Qed.

(** X18. The place a diagnostic on a tree points at goes from the first
    leaf of the tree to its last leaf: the two loops of
    [TypeCheckError.display] end, when they do not raise, on the first and
    on the last element of the left-to-right list of the leaves, both
    tokens, and the location line and the excerpt of the rendering are taken
    from the start of the one and the end of the other. *)
Theorem X18_a_diagnostic_on_a_tree_spans_its_leaves
    (data : string) (children : list node) (msg display_type : string) (file : File)
    (text : string) :
  TypeCheckError_display (mk_TypeCheckError (Tree data children) msg) display_type file
    = Ok text ->
  exists ta va pa tb vb pb head excerpt,
    hd_error (leaves (Tree data children)) = Some (Token ta va pa)
    /\ last (leaves (Tree data children)) NoneNode = Token tb vb pb
    /\ headline display_type msg = Ok head
    /\ File_display file (line pa) (column pa) (end_line pb) (end_column pb)
       = Ok excerpt
    /\ text = head ++ location_line pa ++ excerpt.
Proof.
  unfold TypeCheckError_display. cbn [datum message]. intros E.
  destruct (headline display_type msg) as [head | | |]; try discriminate.
  cbn [res_bind] in E.
  destruct (first_token (Tree data children)) as [a | | |] eqn:Ea; try discriminate.
  cbn [res_bind] in E.
  destruct (last_token (Tree data children)) as [b | | |] eqn:Eb; try discriminate.
  cbn [res_bind] in E.
  destruct a as [ta va pa | |]; try discriminate. cbn [res_bind get_position] in E.
  destruct b as [tb vb pb | |]; try discriminate. cbn [res_bind get_position] in E.
  destruct (File_display file _ _ _ _) as [excerpt | | |] eqn:Ed; try discriminate.
  injection E as <-.
  destruct (first_token_leaves _ _ Ea) as [post Hpost].
  destruct (last_token_leaves _ _ Eb) as [pre Hpre].
  exists ta, va, pa, tb, vb, pb, head, excerpt.
  split; [rewrite Hpost; reflexivity |].
  split; [rewrite Hpre; apply last_last |].
  split; [reflexivity |]. split; [exact Ed | reflexivity].
Qed.

Lemma X18_witness :
  exists text,
    TypeCheckError_display example_diagnostic "error" example_file = Ok text
    /\ exists excerpt,
         File_display example_file 1 14 2 10 = Ok excerpt
         /\ text = Fore_RED ++ Style_BRIGHT ++ "Error" ++ Style_RESET_ALL ++ ": "
                   ++ "I don't know how to use ADD." ++ newline
                   ++ location_line (mk_position 1 14 1 15) ++ excerpt.
Proof.
  eassert (E : TypeCheckError_display example_diagnostic "error" example_file = Ok _)
    by (lazy; reflexivity).
  eexists. split; [exact E |].
  destruct (X18_a_diagnostic_on_a_tree_spans_its_leaves _ _ _ _ _ _ E)
    as (ta & va & pa & tb & vb & pb & head & excerpt & Ha & Hb & Hh & Hd & Ht).
  injection Ha as <- <- <-. injection Hb as <- <- <-. injection Hh as <-.
  exists excerpt. split; [exact Hd | exact Ht].
Defined.

(** ** Rendering: the excerpt *)

Lemma string_app_assoc (a b c : string) : (a ++ b) ++ c = a ++ b ++ c.
Proof. induction a as [| x a IH]; simpl; [reflexivity | rewrite IH; reflexivity]. Qed.

Lemma string_app_nil_r (a : string) : a ++ "" = a.
Proof. induction a as [| x a IH]; simpl; [reflexivity | rewrite IH; reflexivity]. Qed.

Lemma string_length_app (a b : string) :
  String.length (a ++ b) = (String.length a + String.length b)%nat.
Proof. induction a as [| x a IH]; simpl; [reflexivity | rewrite IH; reflexivity]. Qed.

Lemma length_repeat_char (c : ascii) n :
  String.length (repeat_string (String c "") n) = n.
Proof. induction n as [| n IH]; simpl; [reflexivity | rewrite IH; reflexivity]. Qed.

Lemma repeat_string_add s n m :
  repeat_string s (n + m) = repeat_string s n ++ repeat_string s m.
Proof.
  induction n as [| n IH]; simpl; [reflexivity |].
  rewrite IH, string_app_assoc. reflexivity.
Qed.

Lemma substring_all s : substring 0 (String.length s) s = s.
Proof. induction s as [| c s IH]; simpl; [reflexivity | rewrite IH; reflexivity]. Qed.

Lemma substring_split s : forall n, (n <= String.length s)%nat ->
  substring 0 n s ++ substring n (String.length s - n) s = s.
Proof.
  induction s as [| c s IH]; intros [| n] Hn; simpl in *; try reflexivity; try lia.
  - rewrite substring_all. reflexivity.
  - rewrite IH by lia. reflexivity.
Qed.

Lemma slice_bound_le n i : (slice_bound n i <= n)%nat.
Proof. unfold slice_bound. destruct (i <? 0) eqn:E; lia. Qed.

(** [s[:k] + s[k:] == s] *)
Lemma slice_to_from s k : slice_to s k ++ slice_from s k = s.
Proof. unfold slice_to, slice_from. apply substring_split. apply slice_bound_le. Qed.

Lemma gutter_length file l :
  (String.length (str_of_int l) <= line_num_width file)%nat ->
  String.length (gutter file l) = (line_num_width file + 3)%nat.
Proof.
  intros Hl. unfold gutter, right_aligned.
  rewrite !string_length_app, length_repeat_char. simpl. lia.
Qed.

(** X19. The excerpt of a range within one line is two lines: the line
    behind its number, and carets under it. When the number fits the width
    kept for line numbers and the start column is at least 1, the first
    caret stands exactly under the character of column [start_col] (columns
    count from 1) and there are [end_col - start_col] carets, none when the
    range is empty or reversed. *)
Theorem X19_carets_stand_under_the_range
    (file : File) (l start_col end_col : Z) (text : string) :
  get_line file l = Ok text ->
  (String.length (str_of_int l) <= line_num_width file)%nat ->
  1 <= start_col ->
  File_display file l start_col l end_col
  = Ok (Fore_CYAN ++ gutter file l ++ Style_RESET_ALL ++ text ++ newline
        ++ repeat_string " " (String.length (gutter file l) + Z.to_nat (start_col - 1))
        ++ Fore_RED ++ repeat_string "^" (Z.to_nat (end_col - start_col))
        ++ Style_RESET_ALL).
Proof.
  intros Hg Hl Hc. unfold File_display. rewrite Z.eqb_refl, Hg.
  cbn [join]. unfold numbered, underline.
  rewrite (gutter_length file l Hl).
  replace (Z.to_nat (Z.of_nat (line_num_width file) + 2 + start_col))
    with (line_num_width file + 3 + Z.to_nat (start_col - 1))%nat by lia.
  rewrite !string_app_assoc. reflexivity.
Qed.

Lemma X19_witness :
  File_display example_file 3 7 3 8
  = Ok (Fore_CYAN ++ "3 | " ++ Style_RESET_ALL ++ "print x" ++ newline
        ++ "          " ++ Fore_RED ++ "^" ++ Style_RESET_ALL).
Proof.
  rewrite (X19_carets_stand_under_the_range example_file 3 7 8 "print x");
    [reflexivity | reflexivity | simpl; lia | lia].
Defined.

Lemma nth_error_enumerate {A} (l : list A) : forall start i,
  nth_error (enumerate l start) i
  = option_map (fun x => (start + Z.of_nat i, x)) (nth_error l i).
Proof.
  induction l as [| x r IH]; intros start [| i]; try reflexivity.
  - simpl. rewrite Z.add_0_r. reflexivity.
  - cbn [enumerate nth_error]. rewrite IH.
    destruct (nth_error r i); [| reflexivity]. cbn [option_map].
    replace (start + 1 + Z.of_nat i) with (start + Z.of_nat (S i)) by lia.
    reflexivity.
Qed.

Lemma length_enumerate {A} (l : list A) : forall start,
  List.length (enumerate l start) = List.length l.
Proof.
  induction l as [| x r IH]; intros start; simpl; [reflexivity |].
  rewrite IH. reflexivity.
Qed.

(** The lines from [start] to [end_], both included. *)
Lemma get_lines_range file start end_ :
  1 <= start -> start <= end_ -> end_ <= Z.of_nat (List.length (lines file)) ->
  List.length (get_lines file start end_) = Z.to_nat (end_ - start + 1)
  /\ forall i, (i < Z.to_nat (end_ - start + 1))%nat ->
       exists text,
         get_line file (start + Z.of_nat i) = Ok text
         /\ nth_error (get_lines file start end_) i = Some text.
Proof.
  intros Hs Hse He. unfold get_lines, get_line, py_slice, py_index.
  assert (Ha : slice_bound (List.length (lines file)) (start - 1) = Z.to_nat (start - 1)).
  { unfold slice_bound. destruct (start - 1 <? 0) eqn:E; lia. }
  assert (Hb : slice_bound (List.length (lines file)) end_ = Z.to_nat end_).
  { unfold slice_bound. destruct (end_ <? 0) eqn:E; lia. }
  rewrite Ha, Hb. split.
  - rewrite length_firstn, length_skipn. lia.
  - intros i Hi.
    destruct (start + Z.of_nat i - 1 <? 0) eqn:E1; [lia |].
    destruct ((start + Z.of_nat i - 1 <? 0)
              || (Z.of_nat (List.length (lines file)) <=? start + Z.of_nat i - 1))
      eqn:E2; [apply orb_prop in E2; destruct E2; lia |].
    destruct (nth_error (lines file) (Z.to_nat (start + Z.of_nat i - 1)))
      as [text |] eqn:Ht; [| apply nth_error_None in Ht; lia].
    exists text. split; [reflexivity |].
    rewrite nth_error_firstn.
    destruct (i <? Z.to_nat end_ - Z.to_nat (start - 1))%nat eqn:E3;
      [| apply Nat.ltb_ge in E3; lia].
    rewrite nth_error_skipn, <- Ht. f_equal. lia.
Qed.

Lemma highlight_keeps_the_text start_line start_col end_line end_col line_num text :
  exists a b c,
    text = a ++ b ++ c
    /\ highlight start_line start_col end_line end_col line_num text
       = a ++ Fore_RED ++ b ++ Style_RESET_ALL ++ c
    /\ b = (if line_num =? start_line then slice_from text (start_col - 1)
            else if line_num =? end_line then slice_to text (end_col - 1)
            else text).
Proof.
  unfold highlight. destruct (line_num =? start_line).
  - exists (slice_to text (start_col - 1)), (slice_from text (start_col - 1)), "".
    rewrite !string_app_nil_r, slice_to_from. repeat split.
  - destruct (line_num =? end_line).
    + exists "", (slice_to text (end_col - 1)), (slice_from text (end_col - 1)).
      cbn [append]. rewrite slice_to_from. repeat split.
    + exists "", text, "". cbn [append]. rewrite !string_app_nil_r. repeat split.
Qed.

(** X20. The excerpt of a range over several lines that lie in the file
    has one rendered line for each line from [start_line] to [end_line],
    both included and in order, each behind its own number. The text of a
    line is kept as it is, with one stretch in red: from the start column to
    the end of the line on the first line, from the beginning of the line up
    to the end column on the last, the whole line in between. *)
Theorem X20_excerpt_over_several_lines
    (file : File) (start_line start_col end_line end_col : Z) :
  1 <= start_line -> start_line < end_line ->
  end_line <= Z.of_nat (List.length (lines file)) ->
  exists rendered,
    File_display file start_line start_col end_line end_col
      = Ok (join newline rendered)
    /\ List.length rendered = Z.to_nat (end_line - start_line + 1)
    /\ forall i, (i < List.length rendered)%nat ->
         exists text a b c,
           get_line file (start_line + Z.of_nat i) = Ok text
           /\ text = a ++ b ++ c
           /\ b = (if start_line + Z.of_nat i =? start_line
                   then slice_from text (start_col - 1)
                   else if start_line + Z.of_nat i =? end_line
                   then slice_to text (end_col - 1)
                   else text)
           /\ nth_error rendered i
              = Some (numbered file (start_line + Z.of_nat i)
                        (a ++ Fore_RED ++ b ++ Style_RESET_ALL ++ c)).
Proof.
  intros Hs Hse He.
  destruct (get_lines_range file start_line end_line Hs ltac:(lia) He) as (Hlen & Hnth).
  unfold File_display.
  destruct (start_line =? end_line) eqn:E; [apply Z.eqb_eq in E; lia |].
  eexists. split; [reflexivity |].
  rewrite length_map, length_enumerate. split; [exact Hlen |].
  intros i Hi. rewrite Hlen in Hi.
  destruct (Hnth i Hi) as (text & Hg & Ht).
  destruct (highlight_keeps_the_text start_line start_col end_line end_col
              (start_line + Z.of_nat i) text) as (a & b & c & Habc & Hh & Hb).
  exists text, a, b, c. repeat split; try assumption.
  rewrite nth_error_map, nth_error_enumerate, Ht. cbn [option_map fst snd].
  rewrite Hh. reflexivity.
Qed.

Lemma X20_witness :
  exists rendered,
    File_display example_file 1 14 2 10 = Ok (join newline rendered)
    /\ List.length rendered = 2%nat.
Proof.
  destruct (X20_excerpt_over_several_lines example_file 1 14 2 10)
    as (rendered & E & Hlen & _); [lia | lia | simpl; lia |].
  exists rendered. split; [exact E | exact Hlen].
Defined.

(** ** The lines of a file *)

Lemma last_char_Some s : forall x, exists c, last_char (String x s) = Some c.
Proof.
  induction s as [| y s IH]; intros x; [exists x; reflexivity |].
  destruct (IH y) as [c Hc]. exists c. exact Hc.
Qed.

Lemma last_char_cons x s :
  last_char (String x s) =
  match last_char s with
  | Some c => Some c
  | None => Some x
  end.
Proof.
  destruct s as [| y s]; [reflexivity |].
  destruct (last_char_Some s y) as [c Hc].
  change (last_char (String x (String y s))) with (last_char (String y s)).
  rewrite Hc. reflexivity.
Qed.

Lemma last_char_app a b :
  last_char (a ++ b) =
  match last_char b with
  | Some c => Some c
  | None => last_char a
  end.
Proof.
  induction a as [| x a IH].
  - simpl. destruct (last_char b); reflexivity.
  - change (String x a ++ b) with (String x (a ++ b)).
    rewrite !last_char_cons, IH.
    destruct (last_char b); [reflexivity |]. reflexivity.
Qed.

Lemma last_char_rstrip s c : last_char (rstrip s) = Some c -> is_whitespace c = false.
Proof.
  induction s as [| x s IH]; simpl; [discriminate |].
  destruct (rstrip s) as [| y r] eqn:E.
  - destruct (is_whitespace x) eqn:Ex; simpl; [discriminate |].
    intros [= <-]. exact Ex.
  - exact IH.
Qed.

Lemma last_char_replace_tabs n s c :
  last_char s = Some c -> Ascii.eqb c tab = false ->
  last_char (replace_tabs n s) = Some c.
Proof.
  intros Hs Hc. induction s as [| x s IH]; [discriminate |].
  rewrite last_char_cons in Hs. cbn [replace_tabs].
  destruct (last_char s) as [d |] eqn:Ed.
  - specialize (IH Hs).
    destruct (Ascii.eqb x tab).
    + rewrite last_char_app, IH. reflexivity.
    + rewrite last_char_cons, IH. reflexivity.
  - injection Hs as ->. rewrite Hc.
    destruct s as [| y s]; [reflexivity |].
    destruct (last_char_Some s y) as [e He]. congruence.
Qed.

Lemma no_tab_in_spaces n : ~ In tab (list_ascii_of_string (repeat_string " " n)).
Proof. induction n as [| n IH]; simpl; [tauto |]. intros [E | E]; [discriminate | tauto]. Qed.

Lemma list_ascii_app a b :
  list_ascii_of_string (a ++ b) = (list_ascii_of_string a ++ list_ascii_of_string b)%list.
Proof. induction a as [| x a IH]; simpl; [reflexivity | rewrite IH; reflexivity]. Qed.

Lemma no_tab_after_replace n s : ~ In tab (list_ascii_of_string (replace_tabs n s)).
Proof.
  induction s as [| x s IH]; simpl; [tauto |].
  destruct (Ascii.eqb x tab) eqn:E.
  - rewrite list_ascii_app. intros Hin. apply in_app_or in Hin.
    destruct Hin as [Hin | Hin]; [exact (no_tab_in_spaces n Hin) | exact (IH Hin)].
  - simpl. intros [Hx | Hin]; [| exact (IH Hin)].
    subst x. rewrite Ascii.eqb_refl in E. discriminate.
Qed.

Lemma last_char_normalised n s c :
  last_char (replace_tabs n (rstrip s)) = Some c -> is_whitespace c = false.
Proof.
  intros E. destruct (last_char (rstrip s)) as [d |] eqn:Ed.
  - pose proof (last_char_rstrip s d Ed) as Hd.
    assert (Ht : Ascii.eqb d tab = false).
    { destruct (Ascii.eqb d tab) eqn:Et; [| reflexivity].
      apply Ascii.eqb_eq in Et. subst d. discriminate. }
    rewrite (last_char_replace_tabs n _ d Ed Ht) in E. injection E as <-. exact Hd.
  - destruct (rstrip s) as [| y r]; [simpl in E; discriminate |].
    destruct (last_char_Some r y) as [e He]. congruence.
Qed.

(** X21. [File] keeps one line for each line it reads, without the
    whitespace that ended it (the line break included) and with every tab
    replaced by [tab_length] spaces: no stored line holds a tab or ends
    with a whitespace character, and the width kept for line numbers is the
    number of digits of the number of lines. *)
Theorem X21_stored_lines_are_normalised (file : list string) (tab_length : nat) :
  List.length (lines (File_init file tab_length)) = List.length file
  /\ line_num_width (File_init file tab_length)
     = String.length (str_of_int (Z.of_nat (List.length file)))
  /\ forall text, In text (lines (File_init file tab_length)) ->
       ~ In tab (list_ascii_of_string text)
       /\ forall c, last_char text = Some c -> is_whitespace c = false.
Proof.
  unfold File_init. cbn [lines line_num_width]. rewrite length_map.
  split; [reflexivity | split; [reflexivity |]].
  intros text Hin. apply in_map_iff in Hin. destruct Hin as (raw & <- & _).
  split; [apply no_tab_after_replace | apply last_char_normalised].
Qed.

(** ** The width kept for line numbers *)

Lemma little_value_double d :
  little_value (Decimal.Little.double d) = 2 * little_value d
  /\ little_value (Decimal.Little.succ_double d) = 2 * little_value d + 1.
Proof.
  induction d as [| d [IH1 IH2] | d [IH1 IH2] | d [IH1 IH2] | d [IH1 IH2] | d [IH1 IH2]
                  | d [IH1 IH2] | d [IH1 IH2] | d [IH1 IH2] | d [IH1 IH2] | d [IH1 IH2]];
    cbn [Decimal.Little.double Decimal.Little.succ_double little_value];
    try rewrite IH1; try rewrite IH2; split; lia.
Qed.

Lemma little_value_to_little_uint p : little_value (Pos.to_little_uint p) = Z.pos p.
Proof.
  induction p as [p IH | p IH |]; cbn [Pos.to_little_uint].
  - rewrite (proj2 (little_value_double _)), IH. lia.
  - rewrite (proj1 (little_value_double _)), IH. lia.
  - reflexivity.
Qed.

Lemma little_value_bounds d :
  0 <= little_value d < 10 ^ Z.of_nat (Decimal.nb_digits d).
Proof.
  induction d; cbn [little_value Decimal.nb_digits];
    [simpl; lia | rewrite Nat2Z.inj_succ, Z.pow_succ_r by lia; lia ..].
Qed.

Lemma leading_nonzero_double d :
  leading_nonzero d = true ->
  leading_nonzero (Decimal.Little.double d) = true
  /\ leading_nonzero (Decimal.Little.succ_double d) = true.
Proof.
  induction d as [| d IH | d IH | d IH | d IH | d IH | d IH | d IH | d IH | d IH | d IH];
    intros Hd; try discriminate;
    destruct d; try discriminate Hd;
    try (split; reflexivity);
    destruct (IH Hd) as [IH1 IH2];
    cbn [Decimal.Little.double Decimal.Little.succ_double leading_nonzero] in *;
    split; assumption.
Qed.

Lemma leading_nonzero_to_little_uint p : leading_nonzero (Pos.to_little_uint p) = true.
Proof.
  induction p as [p IH | p IH |]; cbn [Pos.to_little_uint].
  - apply leading_nonzero_double. exact IH.
  - apply leading_nonzero_double. exact IH.
  - reflexivity.
Qed.

Lemma leading_nonzero_bound d :
  leading_nonzero d = true ->
  10 ^ Z.of_nat (Decimal.nb_digits d - 1) <= little_value d.
Proof.
  induction d as [| d IH | d IH | d IH | d IH | d IH | d IH | d IH | d IH | d IH | d IH];
    intros Hd; try discriminate;
    (destruct d as [| | | | | | | | | |] eqn:Ed;
     [ try discriminate Hd; simpl; lia
     | rewrite <- Ed in *;
       assert (Hd' : leading_nonzero d = true) by (subst d; exact Hd);
       specialize (IH Hd');
       assert (Hn : (Decimal.nb_digits d <> 0)%nat) by (subst d; discriminate);
       cbn [little_value Decimal.nb_digits];
       replace (S (Decimal.nb_digits d) - 1)%nat
         with (S (Decimal.nb_digits d - 1)) by lia;
       rewrite Nat2Z.inj_succ, Z.pow_succ_r by lia; lia .. ]).
Qed.

Lemma nb_digits_revapp d : forall d',
  Decimal.nb_digits (Decimal.revapp d d')
  = (Decimal.nb_digits d + Decimal.nb_digits d')%nat.
Proof.
  induction d; intros d'; cbn [Decimal.revapp Decimal.nb_digits];
    try rewrite IHd; cbn [Decimal.nb_digits]; lia.
Qed.

Lemma length_string_of_uint d :
  String.length (NilEmpty.string_of_uint d) = Decimal.nb_digits d.
Proof. induction d; simpl; try rewrite IHd; reflexivity. Qed.

Lemma length_str_of_int p :
  String.length (str_of_int (Z.pos p)) = Decimal.nb_digits (Pos.to_little_uint p).
Proof.
  unfold str_of_int. cbn [Z.to_int NilZero.string_of_int]. unfold NilZero.string_of_uint.
  unfold Pos.to_uint, Decimal.rev.
  pose proof (nb_digits_revapp (Pos.to_little_uint p) Decimal.Nil) as Hn.
  cbn [Decimal.nb_digits] in Hn.
  destruct (Decimal.revapp (Pos.to_little_uint p) Decimal.Nil) eqn:E;
    rewrite <- ?E; [| rewrite length_string_of_uint, E; lia ..].
  pose proof (leading_nonzero_to_little_uint p) as Hl.
  destruct (Pos.to_little_uint p); try discriminate; simpl in Hn; lia.
Qed.

(** A number has at least as many digits as a smaller positive one. *)
Lemma length_str_of_int_mono a b :
  1 <= a -> a <= b ->
  (String.length (str_of_int a) <= String.length (str_of_int b))%nat.
Proof.
  intros Ha Hab. destruct a as [| p |]; try lia. destruct b as [| q |]; try lia.
  rewrite !length_str_of_int.
  destruct (le_lt_dec (Decimal.nb_digits (Pos.to_little_uint p))
              (Decimal.nb_digits (Pos.to_little_uint q))) as [Hle | Hlt];
    [exact Hle | exfalso].
  pose proof (leading_nonzero_bound _ (leading_nonzero_to_little_uint p)) as Hp.
  pose proof (little_value_bounds (Pos.to_little_uint q)) as Hq.
  rewrite little_value_to_little_uint in Hp, Hq.
  assert (Hpow : 10 ^ Z.of_nat (Decimal.nb_digits (Pos.to_little_uint q))
                 <= 10 ^ Z.of_nat (Decimal.nb_digits (Pos.to_little_uint p) - 1)).
  { apply Z.pow_le_mono_r; lia. }
  lia.
Qed.

(** X22. The width [File] keeps for line numbers is enough for every line
    of the file: whatever line of the file an excerpt shows, its number and
    the bar after it take the same room, so the texts of all rendered lines
    start in the same column. *)
Theorem X22_every_line_number_fits (file : list string) (tab_length : nat) (k : Z) :
  1 <= k -> k <= Z.of_nat (List.length file) ->
  (String.length (str_of_int k) <= line_num_width (File_init file tab_length))%nat
  /\ String.length (gutter (File_init file tab_length) k)
     = (line_num_width (File_init file tab_length) + 3)%nat.
Proof.
  intros Hk Hle.
  assert (Hfit : (String.length (str_of_int k)
                  <= line_num_width (File_init file tab_length))%nat).
  { unfold File_init. cbn [line_num_width]. rewrite length_map.
    apply length_str_of_int_mono; assumption. }
  split; [exact Hfit | apply gutter_length; exact Hfit].
Qed.

Lemma X22_witness :
  (String.length (str_of_int 2) <= line_num_width example_file)%nat
  /\ String.length (gutter example_file 2) = (line_num_width example_file + 3)%nat.
Proof.
  apply (X22_every_line_number_fits
           ["var x: int = 1 +" ++ newline; String tab ("  'a'  " ++ newline); "print x"]
           4 2); simpl; lia.
Defined.

(** ** Declarations, as the two passes record them *)

Lemma ends_bind {A B} (Q : state -> Prop) (m : M A) (k : A -> M B) :
  (forall a, ends Q (k a)) -> ends Q (bind m k).
Proof.
  intros Hk st b st' E. unfold bind in E.
  destruct (m st) as [[a s1] | | |]; try discriminate.
  exact (Hk a s1 b st' E).
Qed.

Lemma ends_raise {A} (Q : state -> Prop) e : ends Q (@raise A e).
Proof. intros st b st' E. discriminate. Qed.

Lemma ends_then_ret {A B} (Q : state -> Prop) (m : M A) (b : B) :
  ends Q m -> ends Q (bind m (fun _ => ret b)).
Proof.
  intros Hm st x st' E. unfold bind in E.
  destruct (m st) as [[a s1] | | |] eqn:Em; try discriminate.
  injection E as _ <-. exact (Hm st a s1 Em).
Qed.

Lemma ends_bind_lift {A B} (Q : state -> Prop) (a : A) (k : A -> M B) :
  ends Q (k a) -> ends Q (bind (lift (Ok a)) k).
Proof. intros Hk st b st' E. exact (Hk st b st' E). Qed.

Lemma ends_set_variable self n v :
  ends (fun st' => forall err, get_variable self n err st' = Ok (Some v, st'))
       (set_variable self n v).
Proof. intros st [] st' E. exact (set_variable_same self n v st st' E). Qed.

(** X23. Running a declaration evaluates its expression once, in the scope
    of the declaration, and binds the name to the value with the declared
    type in that scope: a lookup of the name from it then returns that
    value, and the command is not an exit. *)
Theorem X23_declaration_binds_the_value {H : Host}
    (fuel self : nat) (nd nty n tty t : string) (np tp : position) (value : node)
    (st : state) (r : bool * value_) (st' : state) :
  eval_command (S fuel) self
    (instr (Tree "declare" [Tree nd [Token nty n np; Token tty t tp]; value])) st
    = Ok (r, st') ->
  exists v st1,
    eval_expr fuel self value st = Ok (v, st1)
    /\ set_variable self n (mk_Variable (TStr t) v) st1 = Ok (tt, st')
    /\ r = (false, VNone)
    /\ forall err, get_variable self n err st' = Ok (Some (mk_Variable (TStr t) v), st').
Proof.
  unfold instr. cbn -[eval_expr append]. unfold bind, lift. cbn [res_map].
  intros E.
  destruct (eval_expr fuel self value st) as [[v st1] | | |]; try discriminate.
  destruct (set_variable self n _ st1) as [[[] st2] | | |] eqn:Es; try discriminate.
  injection E as <- <-.
  exists v, st1. repeat split; try assumption.
  exact (set_variable_same _ _ _ _ _ Es).
Qed.

Lemma X23_witness :
  exists r st',
    @eval_command example_host 5 1 (declare_x "7") shadow_state = Ok (r, st')
    /\ get_variable 1 "x" true st'
       = Ok (Some (mk_Variable (TStr "int") (VInt 7)), st').
Proof.
  eassert (E : @eval_command example_host 5 1 (declare_x "7") shadow_state = Ok (_, _))
    by (lazy; reflexivity).
  eexists. eexists. split; [exact E |].
  destruct (X23_declaration_binds_the_value _ _ _ _ _ _ _ _ _ _ _ _ _ E)
    as (v & st1 & Ev & _ & _ & Hg).
  assert (Hv : v = VInt 7) by (lazy in Ev; congruence).
  subst v. apply Hg.
Defined.

(** X24. The checker checks the body of an [if] in the scope of the [if]
    itself, not in a scope of its own: after the check of
    [if c { var n: t = e }] the name [n] is bound, with type [t], in the
    scope the [if] stands in, and so is visible to the commands that follow
    it (the evaluator runs the body in a fresh scope, see X5). *)
Theorem X24_checker_keeps_what_an_if_body_declares {H : Host}
    (self : nat) (condition : node) (nd nty n tty t : string) (np tp : position)
    (value : node) (st : state) (x : option node) (st' : state) :
  type_check_command self
    (instr (Tree "if"
       [condition;
        instr (Tree "declare" [Tree nd [Token nty n np; Token tty t tp]; value])])) st
    = Ok (x, st') ->
  forall err,
    get_variable self n err st'
    = Ok (Some (mk_Variable (TStr t) (VStr "whatever")), st').
Proof.
  revert st x st'.
  change (ends (fun st' => forall err, get_variable self n err st'
                  = Ok (Some (mk_Variable (TStr t) (VStr "whatever")), st'))
            (type_check_command self
               (instr (Tree "if"
                  [condition;
                   instr (Tree "declare"
                            [Tree nd [Token nty n np; Token tty t tp]; value])])))).
  unfold instr. cbn -[type_check_expr append dict_in].
  apply ends_bind. intros ct. apply ends_bind. intros _.
  apply ends_then_ret.
  apply ends_bind_lift. cbv beta iota.
  apply ends_bind_lift. cbv beta iota.
  apply ends_bind. intros s. apply ends_bind. intros _.
  apply ends_bind. intros vt.
  apply ends_bind_lift. cbv beta iota.
  apply ends_bind. intros _.
  apply ends_then_ret. apply ends_set_variable.
Qed.

Lemma X24_witness :
  exists x st',
    @type_check_command example_host 1 if_x_declare_x shadow_state = Ok (x, st')
    /\ get_variable 1 "x" false st'
       = Ok (Some (mk_Variable (TStr "int") (VStr "whatever")), st')
    /\ List.length (scopes st') = 2%nat.
Proof.
  eassert (E : @type_check_command example_host 1 if_x_declare_x shadow_state
               = Ok (_, _)) by (lazy; reflexivity).
  eexists. eexists. split; [exact E |]. split; [| reflexivity].
  exact (X24_checker_keeps_what_an_if_body_declares _ _ _ _ _ _ _ _ _ _ _ _ _ E false).
Defined.

(** ** Blocks: nothing runs after a return *)

(** X25. In a block (the body of a function or of a loop iteration) the
    commands run in order until one of them returns: once the commands up
    to some point have ended with a return of [v], whatever commands follow
    in the block are not run, and the block ends with [v] in the state the
    return left. *)
Theorem X25_nothing_runs_after_a_return {H : Host}
    (fuel scope : nat) (commands rest : list node) (st : state)
    (v : value_) (st' : state) :
  for_until (eval_command fuel scope) commands st = Ok ((true, v), st') ->
  for_until (eval_command fuel scope) (commands ++ rest) st = Ok ((true, v), st').
Proof.
  revert st. induction commands as [| c r IH]; intros st E; [discriminate |].
  simpl in *. unfold bind in *.
  destruct (eval_command fuel scope c st) as [[[exit w] s1] | | |]; try discriminate.
  destruct exit; simpl in *; [exact E | exact (IH s1 E)].
Qed.

Lemma X25_witness :
  exists st',
    for_until (@eval_command example_host 5 1) ([return_1] ++ [print_2]) body_state
      = Ok ((true, VInt 1), st')
    /\ stdout st' = [].
Proof.
  eassert (E : for_until (@eval_command example_host 5 1) [return_1] body_state
               = Ok ((true, VInt 1), _)) by (lazy; reflexivity).
  eexists. split.
  - exact (X25_nothing_runs_after_a_return 5 1 [return_1] [print_2] body_state _ _ E).
  - reflexivity.
Defined.

(** ** Calls run in the scope of the definition *)

Section Links.

Lemma keeps_links_refl st : keeps_links st st.
Proof. intros i s Hs. exists s. repeat split. exact Hs. Qed.

Lemma keeps_links_trans st0 st1 st2 :
  keeps_links st0 st1 -> keeps_links st1 st2 -> keeps_links st0 st2.
Proof.
  intros H01 H12 i s Hs.
  destruct (H01 i s Hs) as (s1 & Hs1 & Hp1 & Hf1).
  destruct (H12 i s1 Hs1) as (s2 & Hs2 & Hp2 & Hf2).
  exists s2. repeat split; congruence.
Qed.

Lemma keeps_links_list_set st x s0 s1 st' :
  nth_error (scopes st) x = Some s0 ->
  parent s1 = parent s0 -> parent_function s1 = parent_function s0 ->
  scopes st' = list_set (scopes st) x s1 ->
  keeps_links st st'.
Proof.
  intros Hx Hp Hf Hsc i s Hs. rewrite Hsc.
  destruct (Nat.eq_dec i x) as [-> | Hne].
  - exists s1. rewrite (nth_error_list_set_eq _ _ _ _ Hx).
    repeat split; congruence.
  - exists s. rewrite nth_error_list_set_ne by exact Hne. repeat split. exact Hs.
Qed.

Lemma keeps_links_same st st' : scopes st' = scopes st -> keeps_links st st'.
Proof. intros Hsc i s Hs. exists s. rewrite Hsc. repeat split. exact Hs. Qed.

Lemma keeps_links_set_variable x name v : respects keeps_links (set_variable x name v).
Proof.
  intros st a st' E. primitive E.
  eapply keeps_links_list_set; [eassumption | | | reflexivity]; reflexivity.
Qed.

Lemma keeps_links_add_import x m : respects keeps_links (add_import x m).
Proof.
  intros st a st' E. primitive E.
  eapply keeps_links_list_set; [eassumption | | | reflexivity]; reflexivity.
Qed.

Lemma keeps_links_new_scope p pf : respects keeps_links (new_scope p pf).
Proof.
  intros st a st' E. primitive E; intros i sc Hs; exists sc; cbn [scopes];
    (rewrite nth_error_app1 by (apply nth_error_Some; congruence));
    repeat split; exact Hs.
Qed.

Lemma keeps_links_new_Function sc args rt cb dr fn :
  respects keeps_links (new_Function sc args rt cb dr fn).
Proof. intros st a st' E. primitive E. apply keeps_links_same. reflexivity. Qed.

Lemma keeps_links_print s : respects keeps_links (print s).
Proof. intros st a st' E. primitive E. apply keeps_links_same. reflexivity. Qed.

Lemma eval_keeps_links {H : Host} fuel :
  (forall x e, respects keeps_links (eval_expr fuel x e)) /\
  (forall x t, respects keeps_links (eval_command fuel x t)) /\
  (forall f args, respects keeps_links (run fuel f args)).
Proof.
  exact (keeps_eval keeps_links keeps_links_refl keeps_links_trans
           keeps_links_set_variable keeps_links_add_import keeps_links_new_scope
           keeps_links_new_Function keeps_links_print fuel).
Qed.

End Links.

(** X26. A call runs the body of the function in a scope created for the
    call whose parent is the scope the function was defined in, not the
    scope of the caller, and which belongs to the function: names that the
    body does not bind resolve through the definition (lexical scoping).
    The scope is still so linked when the body has run. *)
Theorem X26_call_scope_is_a_child_of_the_definition_scope {H : Host}
    (fuel : nat) (f : Function) (arguments : list value_) (st : state)
    (scope : nat) (ev : bool * value_) (st' : state) :
  run_body fuel f arguments st = Ok ((scope, ev), st') ->
  scope = List.length (scopes st)
  /\ exists s, nth_error (scopes st') scope = Some s
               /\ parent s = Some (fn_scope f)
               /\ parent_function s = Some f.
Proof.
  unfold run_body. intros E. unfold bind at 1 in E.
  destruct (new_scope (fn_scope f) (Some f) st) as [[c st1] | | |] eqn:En;
    try discriminate.
  assert (Hc : c = List.length (scopes st)
               /\ nth_error (scopes st1) c
                  = Some (empty_scope (Some (fn_scope f)) (Some f))).
  { unfold new_scope, bind, get_scope in En.
    destruct (nth_error (scopes st) (fn_scope f)); [| discriminate].
    injection En as <- <-. split; [reflexivity |]. cbn [scopes].
    rewrite nth_error_app2, Nat.sub_diag by lia. reflexivity. }
  destruct Hc as [-> Hc].
  assert (Hk : respects keeps_links
            (if (List.length arguments <? List.length (fn_arguments f))%nat
             then raise (TypeError ("Missing arguments " ++
                    join ", " (map snd (skipn (List.length arguments) (fn_arguments f)))))
             else
               bind_arguments (List.length (scopes st)) arguments (fn_arguments f) ;;;
               body <- lift (get_children (fn_codeblock f)) ;;
               ev <- for_until (eval_command fuel (List.length (scopes st))) body ;;
               ret (List.length (scopes st), ev))).
  { destruct (_ <? _)%nat; [intros ? ? ? ?; discriminate |].
    apply (keeps_bind keeps_links keeps_links_trans).
    - apply (keeps_bind_arguments keeps_links keeps_links_refl keeps_links_trans
               keeps_links_set_variable).
    - intros _. apply (keeps_bind keeps_links keeps_links_trans).
      + apply (keeps_lift keeps_links keeps_links_refl).
      + intros body. apply (keeps_bind keeps_links keeps_links_trans).
        * apply (keeps_for_until keeps_links keeps_links_refl keeps_links_trans).
          intros a. apply (proj1 (proj2 (eval_keeps_links fuel))).
        * intros e. apply (keeps_ret keeps_links keeps_links_refl). }
  destruct (Hk st1 _ st' E _ _ Hc) as (s' & Hs' & Hp & Hf).
  assert (Hscope : scope = List.length (scopes st)).
  { destruct (_ <? _)%nat; [discriminate |]. unfold bind in E.
    destruct (bind_arguments _ _ _ st1) as [[[] s2] | | |]; try discriminate.
    destruct (lift _ s2) as [[body s3] | | |]; try discriminate.
    destruct (for_until _ body s3) as [[e s4] | | |]; try discriminate.
    injection E as <- _ _. reflexivity. }
  subst scope. split; [reflexivity |].
  exists s'. repeat split; assumption.
Qed.

Lemma X26_witness :
  exists scope ev st',
    @run_body example_host 5 f_add [VInt 2; VInt 3] body_state = Ok ((scope, ev), st')
    /\ scope = 2%nat
    /\ exists s, nth_error (scopes st') scope = Some s
                 /\ parent s = Some 0%nat /\ parent_function s = Some f_add.
Proof.
  eassert (E : @run_body example_host 5 f_add [VInt 2; VInt 3] body_state
               = Ok ((_, _), _)) by (lazy; reflexivity).
  eexists. eexists. eexists. split; [exact E |].
  exact (X26_call_scope_is_a_child_of_the_definition_scope _ _ _ _ _ _ _ E).
Defined.

(** ** Imports *)

(** X27. An import is recorded in the scope that runs it and is looked for
    in the scope of the command that uses it only: a scope that [new_scope]
    just created (the body of an if, of a loop iteration or of a call) has
    no import, so there an imported command raises [SyntaxError], whatever
    the enclosing scopes imported. *)
Theorem X27_imports_are_not_inherited {H : Host}
    (fuel self : nat) (pf : option Function) (st : state) (c : nat) (st1 : state)
    (lt l : string) (lp : position) (command : node) (args : list node) :
  new_scope self pf st = Ok (c, st1) ->
  find_import c l st1 = Ok (None, st1)
  /\ eval_expr (S fuel) c
       (Tree "imported_command" (Token lt l lp :: command :: args)) st1
     = Raise (SyntaxError ("Library " ++ l ++ " not found")).
Proof.
  intros E. unfold new_scope, bind, get_scope in E.
  destruct (nth_error (scopes st) self) as [s |]; [| discriminate].
  injection E as <- <-.
  assert (Hf : forall name,
    find_import (List.length (scopes st)) name
      (mk_state (scopes st ++ [empty_scope (Some self)
                                 (match pf with Some f => Some f
                                  | None => parent_function s end)])
                (next_function st) (errors st) (warnings st) (stdout st))
    = Ok (None, mk_state (scopes st ++ [empty_scope (Some self)
                                 (match pf with Some f => Some f
                                  | None => parent_function s end)])
                (next_function st) (errors st) (warnings st) (stdout st))).
  { intros name. unfold find_import, bind, get_scope. cbn [scopes].
    rewrite nth_error_app2, Nat.sub_diag by lia. reflexivity. }
  split; [apply Hf |].
  cbn -[append find_import]. unfold bind at 1. unfold lift at 1. cbn [res_map].
  unfold bind at 1. rewrite Hf. reflexivity.
Qed.

Lemma X27_witness :
  exists c st1,
    new_scope 0 None initial_state = Ok (c, st1)
    /\ @eval_expr example_host 3 c imported_call st1
       = Raise (SyntaxError "Library m not found").
Proof.
  eassert (E : new_scope 0 None initial_state = Ok (_, _)) by (lazy; reflexivity).
  eexists. eexists. split; [exact E |].
  exact (proj2 (@X27_imports_are_not_inherited example_host 2 0 None initial_state _ _
                  "NAME" "m" nopos (tok "NAME" "f") [] E)).
Defined.

(** ** The scopes the checker gives to blocks *)

Ltac check_step IH :=
  cbv beta iota;
  match goal with
  | |- respects _ (ret _) => apply respects_ret
  | |- respects _ (raise _) => apply respects_raise
  | |- respects _ (lift _) => apply respects_lift
  | |- respects _ (push_error _ _) => apply respects_push_error
  | |- respects _ (push_warning _ _) => apply respects_push_warning
  | |- respects _ (get_parent_function _) => apply respects_get_parent_function
  | |- respects _ (get_scope _) => apply respects_get_scope
  | |- respects _ (type_check_expr _ _) => apply respects_type_check_expr
  | |- respects _ (set_variable _ _ _) =>
      apply respects_set_variable; right; assumption
  | |- respects _ (check_loop_body _ _ _) => apply respects_check_loop_body; intros ? ?
  | |- respects _ (bind (new_scope _ _) _) => apply respects_new_scope; intros ? ?
  | |- respects _ (bind _ _) => apply respects_bind; [| intros ?]
  | |- respects _ (type_check_command _ _) => IH
  | |- context [match ?x with _ => _ end] => is_var x; destruct x
  | |- respects _ (if ?b then _ else _) => destruct b
  | |- respects _ (match ?x with _ => _ end) => destruct x
  end.

(** X28. For the checker, a loop, a print, a return and an expression used
    as a command leave every scope that existed as it was: the body of a
    loop is checked in a scope of its own, in which the induction variable
    is bound, so neither that variable nor what the body declares is
    visible after the loop. (Not so for the body of an [if], see X24.) *)
Theorem X28_checker_gives_a_loop_body_its_own_scope {H : Host}
    (self : nat) (cdata : string) (cchildren rest : list node)
    (st : state) (x : option node) (st' : state) :
  type_check_command self (Tree "instruction" (Tree cdata cchildren :: rest)) st
    = Ok (x, st') ->
  cdata <> "imp" -> cdata <> "function_def" -> cdata <> "declare" ->
  cdata <> "if" -> cdata <> "ifelse" ->
  forall i, (i < List.length (scopes st))%nat ->
    nth_error (scopes st') i = nth_error (scopes st) i.
Proof.
  intros E Hi Hf Hd Hif Hie i Hlt.
  apply String.eqb_neq in Hi, Hf, Hd, Hif, Hie.
  assert (R : respects (extends (List.length (scopes st)) (List.length (scopes st)))
                (type_check_command self
                   (Tree "instruction" (Tree cdata cchildren :: rest)))).
  { cbn -[dict_get String.eqb append type_check_expr].
    rewrite Hi, Hf, Hd, Hif, Hie.
    repeat check_step
      ltac:(apply respects_type_check_command; right; assumption). }
  destruct (R st x st' E (le_n _)) as (_ & _ & _ & F).
  apply F; lia.
Qed.

Lemma X28_witness :
  exists x st',
    @type_check_command example_host 1 loop_5_print shadow_state = Ok (x, st')
    /\ nth_error (scopes st') 1 = nth_error (scopes shadow_state) 1
    /\ List.length (scopes st') = 3%nat.
Proof.
  eassert (E : @type_check_command example_host 1 loop_5_print shadow_state
               = Ok (_, _)) by (lazy; reflexivity).
  eexists. eexists. split; [exact E |]. split; [| reflexivity].
  apply (X28_checker_gives_a_loop_body_its_own_scope _ _ _ _ _ _ _ E);
    try discriminate.
  simpl. lia.
Defined.

(** ** Diagnostics are about a token or a tree *)

Lemma located_app l d :
  forallb located l = true -> located d = true -> forallb located (l ++ [d]) = true.
Proof.
  intros Hl Hd. rewrite forallb_app, Hl. simpl. rewrite Hd. reflexivity.
Qed.

Section Located.

Lemma keeps_located_refl st : keeps_located st st.
Proof. intros L. exact L. Qed.

Lemma keeps_located_trans st0 st1 st2 :
  keeps_located st0 st1 -> keeps_located st1 st2 -> keeps_located st0 st2.
Proof. unfold keeps_located. auto. Qed.

Lemma keeps_located_set_variable x name v :
  respects keeps_located (set_variable x name v).
Proof. intros st a st' E. primitive E; intros L; exact L. Qed.

Lemma keeps_located_add_import x m : respects keeps_located (add_import x m).
Proof. intros st a st' E. primitive E; intros L; exact L. Qed.

Lemma keeps_located_new_scope p pf : respects keeps_located (new_scope p pf).
Proof. intros st a st' E. primitive E; intros L; exact L. Qed.

Lemma keeps_located_new_Function sc args rt cb dr fn :
  respects keeps_located (new_Function sc args rt cb dr fn).
Proof. intros st a st' E. primitive E; intros L; exact L. Qed.

Lemma keeps_located_print s : respects keeps_located (print s).
Proof. intros st a st' E. primitive E; intros L; exact L. Qed.

Lemma keeps_located_print_diagnostics : respects keeps_located print_diagnostics.
Proof. intros st a st' E. primitive E; intros L; exact L. Qed.

Lemma keeps_located_push_error d msg : respects keeps_located (push_error d msg).
Proof.
  intros st a st' E. unfold push_error in E.
  destruct d; try discriminate; injection E as <- <-; intros L;
    unfold diagnostics_located in *; cbn [errors warnings] in *;
    apply andb_prop in L; destruct L as [Le Lw];
    (rewrite located_app, Lw by (assumption || reflexivity)); reflexivity.
Qed.

Lemma keeps_located_push_warning d msg : respects keeps_located (push_warning d msg).
Proof.
  intros st a st' E. unfold push_warning in E.
  destruct d; try discriminate; injection E as <- <-; intros L;
    unfold diagnostics_located in *; cbn [errors warnings] in *;
    apply andb_prop in L; destruct L as [Le Lw];
    (rewrite located_app, Le by (assumption || reflexivity)); reflexivity.
Qed.

Lemma keeps_located_with_fresh_sinks A (m : M A) :
  respects keeps_located m -> respects keeps_located (with_fresh_sinks m).
Proof.
  intros Hm st a st' E. unfold with_fresh_sinks in E.
  destruct (m _) as [[b s1] | | |]; try discriminate.
  injection E as <- <-. intros L. exact L.
Qed.

End Located.

(** X29. Every diagnostic the passes record is about a token or a tree,
    never about an absent node: [TypeCheckError] refuses anything else, so
    a list of located diagnostics stays one through the check of a command,
    through [type_check] and through the whole driver, and what
    [type_check] hands to the rendering is located. *)
Theorem X29_diagnostics_are_about_a_token_or_a_tree {H : Host}
    (fuel : nat) (tree : node) (st : state) :
  diagnostics_located st = true ->
  (forall self x st',
     type_check_command self tree st = Ok (x, st') -> diagnostics_located st' = true) /\
  (forall counts st',
     type_check tree st = Ok (counts, st') ->
     diagnostics_located st' = true
     /\ exists printed_before,
          stdout st' = (printed_before ++ [PDiagnostics (warnings st') (errors st')])%list)
  /\
  (forall u st', driver fuel tree st = Ok (u, st') -> diagnostics_located st' = true).
Proof.
  intros L. split; [| split].
  - intros self x st' E.
    exact (keeps_type_check_command keeps_located keeps_located_refl keeps_located_trans
             keeps_located_set_variable keeps_located_add_import keeps_located_new_scope
             keeps_located_new_Function keeps_located_push_error
             keeps_located_push_warning keeps_located_with_fresh_sinks
             tree self st x st' E L).
  - intros counts st' E. split.
    + exact (keeps_type_check keeps_located keeps_located_refl keeps_located_trans
               keeps_located_set_variable keeps_located_add_import keeps_located_new_scope
               keeps_located_new_Function keeps_located_push_error
               keeps_located_push_warning keeps_located_with_fresh_sinks
               keeps_located_print_diagnostics tree st counts st' E L).
    + unfold type_check in E. unfold bind at 1 in E.
      destruct (new_scope 0 None st) as [[scope s1] | | |]; try discriminate.
      unfold bind at 1 in E.
      destruct (match tree with
                | Tree data children =>
                    if String.eqb data "start"
                    then for_each (type_check_command scope) children
                    else push_error tree
                           "Internal issue: I cannot type check from a non-starting branch."
                | _ => raise AttributeError
                end s1) as [[[] s2] | | |]; try discriminate.
      unfold bind, print_diagnostics, count_diagnostics in E.
      injection E as _ <-. cbn [stdout warnings errors]. eexists. reflexivity.
  - intros u st' E.
    exact (keeps_driver keeps_located keeps_located_refl keeps_located_trans
             keeps_located_set_variable keeps_located_add_import keeps_located_new_scope
             keeps_located_new_Function keeps_located_print keeps_located_push_error
             keeps_located_push_warning keeps_located_with_fresh_sinks
             keeps_located_print_diagnostics fuel tree st u st' E L).
Qed.

Lemma X29_witness :
  exists counts st',
    @type_check example_host scenario_2 initial_state = Ok (counts, st')
    /\ diagnostics_located st' = true
    /\ List.length (errors st') = 1%nat.
Proof.
  eassert (E : @type_check example_host scenario_2 initial_state = Ok (_, _))
    by (lazy; reflexivity).
  eexists. eexists. split; [exact E |]. split; [| reflexivity].
  exact (proj1 (proj1 (proj2 (@X29_diagnostics_are_about_a_token_or_a_tree example_host
                                0 scenario_2 initial_state eq_refl)) _ _ E)).
Defined.

(** ** Names *)

(** X30. On a name the two passes look the variable up in the same way:
    when the lookup finds a variable, the checker reports the type stored
    with it and the evaluator returns the value stored with it, both
    without changing the state; when it finds none, the checker records
    "You haven't yet defined ..." at the name and goes on with an unknown
    type exactly where the evaluator raises [NameError]. *)
Theorem X30_names_resolve_alike_in_both_passes
    (self : nat) (text : string) (pos : position) (st : state)
    (r : option Variable_) :
  get_variable self text false st = Ok (r, st) ->
  match r with
  | Some variable =>
      get_value_type self (Token "NAME" text pos) st = Ok (Some (var_type variable), st)
      /\ eval_value self (Token "NAME" text pos) st = Ok (var_value variable, st)
  | None =>
      get_value_type self (Token "NAME" text pos) st
        = Ok (None, with_errors st
                      [mk_TypeCheckError (Token "NAME" text pos)
                         ("You haven't yet defined " ++ text ++ ".")])
      /\ eval_value self (Token "NAME" text pos) st
         = Raise (NameError ("You tried to get a variable/function `" ++ text
                             ++ "`, but it isn't defined."))
  end.
Proof.
  intros E. cbn -[append get_variable]. unfold bind. rewrite E.
  unfold get_variable in *.
  destruct (get_variable_walk _ _ _ _) as [[w |] | | |]; try discriminate.
  - injection E as <-. split; reflexivity.
  - injection E as <-. split; reflexivity.
Qed.

Lemma X30_witness :
  get_value_type 1 (Token "NAME" "x" nopos) shadow_state
    = Ok (Some (TStr "int"), shadow_state)
  /\ eval_value 1 (Token "NAME" "x" nopos) shadow_state
     = Ok (VStr "whatever", shadow_state).
Proof.
  exact (X30_names_resolve_alike_in_both_passes 1 "x" nopos shadow_state
           (Some (mk_Variable (TStr "int") (VStr "whatever"))) eq_refl).
Defined.
